(** * The shared HTTP access layer of the Arbetsformedlingen MCP server

    A shallow embedding of [src/services/apiClient.ts] (the retry, timeout
    and back-off policy and the URL builders), of the formatters, of the two
    handlers of [src/tools/taxonomyExtended.ts] and of the handlers of
    [af_search_taxonomy], [af_get_job], [af_search_jobs] and [af_stream_jobs],
    with the properties the specification states about them and further
    properties of the code. *)

From Equations Require Import Equations.
From Stdlib Require Import ZArith List String Ascii Bool Lia DecimalString.
Import ListNotations.

Local Open Scope Z_scope.

(** The unfolding equations of the two recursive functions are proved
    below from the extensionality of their bodies. *)
Unset Equations With Funext.
Set Warnings "-solve_obligation_error".

(** ** JavaScript values *)

(** A JavaScript string is a sequence of UTF-16 code units; [length] and
    [slice] count code units. *)
Definition jsstring : Type := list Z.

(** An ASCII literal as a JavaScript string (one code unit per character). *)
Definition js (s : string) : jsstring :=
  map (fun a => Z.of_N (N_of_ascii a)) (list_ascii_of_string s).

Fixpoint jsstring_eqb (s t : jsstring) : bool :=
  match s, t with
  | [], [] => true
  | a :: s', b :: t' => (a =? b) && jsstring_eqb s' t'
  | _, _ => false
  end.

(** [String(n)] for a safe integer [n] (below 2^53 in magnitude), where
    JavaScript prints the plain decimal numeral: the statuses, limits,
    offsets, counts and delays of this program are such numbers.  From 2^53
    on [String] prints the digits of the nearest double, and from 10^21 on an
    exponent, which this function does not. *)
Definition String_number (n : Z) : jsstring :=
  js (NilZero.string_of_int (Z.to_int n)).

(** [String(b)] for a boolean. *)
Definition String_boolean (b : bool) : jsstring :=
  if b then js "true" else js "false".

(** [s.slice(0, n)] for [0 <= n]. *)
Definition slice0 (n : Z) (s : jsstring) : jsstring := firstn (Z.to_nat n) s.

(** [s.length]. *)
Definition jslength {A} (s : list A) : Z := Z.of_nat (List.length s).

(** [lines.join(sep)]. *)
Fixpoint join (sep : jsstring) (lines : list jsstring) : jsstring :=
  match lines with
  | [] => []
  | [l] => l
  | l :: rest => l ++ sep ++ join sep rest
  end.

(** Thrown values.  [ApiError] is the class of [apiClient.ts]; a
    [NativeError] is an [Error] object of the platform ([TypeError],
    [SyntaxError], the [DOMException] named [AbortError]), which has no
    [statusCode] property; [Thrown] is a thrown value that is no [Error]
    object at all. *)
Inductive JsError : Type :=
| ApiError (message : jsstring) (statusCode : option Z) (endpoint : option jsstring)
| NativeError (name message : jsstring)
| Thrown (value : jsstring).

Definition instanceof_Error (e : JsError) : bool :=
  match e with Thrown _ => false | _ => true end.

Definition err_name (e : JsError) : jsstring :=
  match e with
  | ApiError _ _ _ => js "ApiError"
  | NativeError n _ => n
  | Thrown _ => []
  end.

Definition err_message (e : JsError) : jsstring :=
  match e with
  | ApiError m _ _ => m
  | NativeError _ m => m
  | Thrown _ => []
  end.

Definition err_statusCode (e : JsError) : option Z :=
  match e with ApiError _ sc _ => sc | _ => None end.

Definition err_endpoint (e : JsError) : option jsstring :=
  match e with ApiError _ _ ep => ep | _ => None end.

(** [err.statusCode === n]. *)
Definition statusCode_is (e : JsError) (n : Z) : bool :=
  match err_statusCode e with Some c => c =? n | None => false end.

(** The settlement of a promise: fulfilled with a value or rejected. *)
Inductive JsResult (A : Type) : Type :=
| Ok (a : A)
| Throw (e : JsError).
Arguments Ok {A} a.
Arguments Throw {A} e.

(** ** The network *)

Inductive Method : Type := GET | POST.

Record Request : Type := mkRequest {
  req_method : Method;
  req_url : jsstring;
  req_headers : list (jsstring * jsstring);
  req_body : option jsstring
}.

(** What [fetch] resolves with once the status line and the headers have
    arrived: the status line, and what [response.json()] settles to after the
    [body_latency] milliseconds it takes to read and parse the body. *)
Record Response (T : Type) : Type := mkResponse {
  status : Z;
  statusText : jsstring;
  body_latency : Z;
  json : JsResult T
}.
Arguments mkResponse {T}.
Arguments status {T}.
Arguments statusText {T}.
Arguments body_latency {T}.
Arguments json {T}.

(** [response.ok]. *)
Definition ok {T} (r : Response T) : bool :=
  (200 <=? status r) && (status r <=? 299).

(** How the upstream reacts to one request: after [latency] milliseconds the
    request settles, with a response or with a transport failure. *)
Inductive Settlement (T : Type) : Type :=
| Responds (r : Response T)
| Fails (e : JsError).
Arguments Responds {T}.
Arguments Fails {T}.

Record Reply (T : Type) : Type := mkReply {
  latency : Z;
  settlement : Settlement T
}.
Arguments mkReply {T}.
Arguments latency {T}.
Arguments settlement {T}.

(** What one network attempt came to. *)
Inductive Answer : Type :=
| Answered (st : Z)
| Aborted
| Unreachable.

(** The observable effects of the client, oldest first. *)
Inductive Event : Type :=
| Fetched (r : Request) (a : Answer)
| Warned (msg : jsstring) (retriesLeft delay : Z)
| Slept (ms : Z).

Definition World : Type := list Event.

Definition is_fetch (e : Event) : bool :=
  match e with Fetched _ _ => true | _ => false end.

(** Number of network attempts made so far. *)
Definition attempts (w : World) : nat := List.length (filter is_fetch w).

(** The delays waited so far, oldest first. *)
Fixpoint delays (w : World) : list Z :=
  match w with
  | [] => []
  | Slept ms :: w' => ms :: delays w'
  | _ :: w' => delays w'
  end.

(** The [DOMException] with which [fetch] rejects when its signal aborts. *)
Definition AbortError : JsError :=
  NativeError (js "AbortError") (js "This operation was aborted").

Section Client.

(** The payload type [T] of [fetchJson<T>] and the upstream: its reply to
    the [n]-th request the process makes. *)
Variable T : Type.
Variable server : nat -> Request -> Reply T.

(** [setTimeout(() => controller.abort(), ms)] followed by
    [await fetch(url, { ..., signal: controller.signal })]: the request
    settles as the upstream decides unless the timer fires first, in which
    case [fetch] rejects with [AbortError].  Every attempt arms a timer of
    its own, and the timer bounds this wait only.  The [finally] block clears
    it as soon as the attempt throws or returns the promise of
    [response.json()], so the [body_latency] of the response is not under the
    timer.  On the retry path the timer stays armed during the back-off; when
    it fires there the fetch has resolved and nothing awaits the signal, so
    the run goes on as if it had not fired. *)
Definition fetch (ms : Z) (rq : Request) (w : World)
  : JsResult (Response T) * World :=
  let reply := server (attempts w) rq in
  if ms <=? latency reply then (Throw AbortError, w ++ [Fetched rq Aborted])
  else match settlement reply with
       | Responds r => (Ok r, w ++ [Fetched rq (Answered (status r))])
       | Fails e => (Throw e, w ++ [Fetched rq Unreachable])
       end.

(** [logger.warn({ url, retriesLeft, delay }, msg)]. *)
Definition logger_warn (retriesLeft delay : Z) (msg : jsstring) (w : World) : World :=
  w ++ [Warned msg retriesLeft delay].

(** [await new Promise((res) => setTimeout(res, delay))]. *)
Definition sleep (delay : Z) (w : World) : World := w ++ [Slept delay].

(** The error thrown when the abort signal tripped. *)
Definition timeout_error (url : jsstring) : JsError :=
  ApiError (js "Timeout after 10s for " ++ url) (Some 0) (Some url).

(** The [catch] block shared by [fetchJson] and [postJson]. *)
Definition on_catch (url : jsstring) (err : JsError) : JsError :=
  if instanceof_Error err && jsstring_eqb (err_name err) (js "AbortError")
  then timeout_error url
  else err.

Definition en_dash : jsstring := [8211].

(** The error thrown on status 429. *)
Definition rate_limited (url : jsstring) : JsError :=
  ApiError (js "Rate limit reached " ++ en_dash ++ js " please try again shortly")
           (Some 429) (Some url).

(** The error thrown on any other response that is not [ok]; [what] is
    the start of its message. *)
Definition http_error (what : jsstring) (response : Response T) (url : jsstring)
  : JsError :=
  ApiError (what ++ String_number (status response) ++ js " " ++ statusText response)
           (Some (status response)) (Some url).

Definition retry_message (retries : Z) (url : jsstring) (delay : Z) : jsstring :=
  js "Retry " ++ String_number (4 - retries) ++ js "/3 for " ++ url
     ++ js " after " ++ String_number delay ++ js "ms".

(** The request [fetchJson] issues. *)
Definition get_request (url : jsstring) : Request :=
  mkRequest GET url [(js "accept", js "application/json")] None.

(** [fetchJson<T>(url, retries = 3)], with [retries] an integer.  A value
    thrown inside the [try] block (by [await fetch] or by a [throw]) goes
    through the [catch] block, [on_catch]; the promises that are returned,
    [response.json()] and the recursive call, are not awaited and settle the
    call as they are.  The recursion is on the budget, which decreases while
    it is positive. *)
Equations? fetchJson (url : jsstring) (retries : Z) (w : World)
  : JsResult T * World by wf (Z.to_nat retries) lt :=
fetchJson url retries w :=
  match fetch 10000 (get_request url) w with
  | (Throw err, w1) => (Throw (on_catch url err), w1)
  | (Ok response, w1) =>
      if status response =? 429 then
        (Throw (on_catch url (rate_limited url)), w1)
      else
        match sumbool_of_bool ((500 <=? status response) && (0 <? retries)) with
        | left _ =>
            let delay := (4 - retries) * 1000 in
            let w2 := logger_warn (retries - 1) delay (retry_message retries url delay) w1 in
            let w3 := sleep delay w2 in
            fetchJson url (retries - 1) w3
        | right _ =>
            if negb (ok response) then
              (Throw (on_catch url (http_error (js "API request failed: ") response url)), w1)
            else (json response, w1)
        end
  end.
Proof.
  apply andb_prop in e as [_ H]. apply Z.ltb_lt in H. lia.
Qed.
Next Obligation.
  unfold fetchJson.
  match goal with
  | |- context [ @FixWf ?A ?R ?WF ?P ?f ?x ] =>
      let step := fresh "step" in
      set (step := fun y (_ : R y x) => @FixWf A R WF P f y) in *;
      unshelve erewrite (@FixWf_unfold_step A R WF P f x _ step)
  end.
  - red. intros [u [r w0]] f g Hext. simpl. unfold fetchJson_functional.
    destruct (fetch 10000 (get_request u) w0) as [[response|err] w1]; [|reflexivity].
    destruct (status response =? 429); [reflexivity|].
    destruct (sumbool_of_bool ((500 <=? status response) && (0 <? r)));
      [apply Hext | reflexivity].
  - reflexivity.
  - reflexivity.
Defined.

(** The fetchers of the seven upstreams call with the default budget. *)
Definition jobSearchFetch (url : jsstring) := fetchJson url 3.
Definition jobStreamFetch (url : jsstring) := fetchJson url 3.
Definition historicalFetch (url : jsstring) := fetchJson url 3.
Definition linksFetch (url : jsstring) := fetchJson url 3.
Definition jobEdFetch (url : jsstring) := fetchJson url 3.
Definition taxonomyFetch (url : jsstring) := fetchJson url 3.

(** [Math.pow(2, e) * k].  For [e < 0] the JavaScript value is the fraction
    [k / 2^(-e)]; with [k = 1000] it is an integer down to [e = -3], that is
    for budgets up to 6.  Below that the function keeps the integer part of
    the fraction the source logs and passes to [setTimeout] (62 for the 62.5
    of budget 7). *)
Definition Math_pow2_times (e k : Z) : Z :=
  if 0 <=? e then 2 ^ e * k else k / 2 ^ (- e).

Variable Body : Type.
(** [JSON.stringify(body)] for the plain objects the callers post. *)
Variable JSON_stringify : Body -> jsstring.

(** The request [postJson] issues. *)
Definition post_request (url : jsstring) (body : Body) : Request :=
  mkRequest POST url
    [(js "Content-Type", js "application/json"); (js "accept", js "application/json")]
    (Some (JSON_stringify body)).

(** [postJson<T>(url, body, retries = 3)]. *)
Equations? postJson (url : jsstring) (body : Body) (retries : Z) (w : World)
  : JsResult T * World by wf (Z.to_nat retries) lt :=
postJson url body retries w :=
  match fetch 10000 (post_request url body) w with
  | (Throw err, w1) => (Throw (on_catch url err), w1)
  | (Ok response, w1) =>
      if status response =? 429 then
        (Throw (on_catch url (rate_limited url)), w1)
      else
        match sumbool_of_bool ((500 <=? status response) && (0 <? retries)) with
        | left _ =>
            let delay := Math_pow2_times (3 - retries) 1000 in
            let w2 := logger_warn (retries - 1) delay (retry_message retries url delay) w1 in
            let w3 := sleep delay w2 in
            postJson url body (retries - 1) w3
        | right _ =>
            if negb (ok response) then
              (Throw (on_catch url (http_error (js "POST API request failed: ") response url)), w1)
            else (json response, w1)
        end
  end.
Proof.
  apply andb_prop in e as [_ H]. apply Z.ltb_lt in H. lia.
Qed.
Next Obligation.
  unfold postJson.
  match goal with
  | |- context [ @FixWf ?A ?R ?WF ?P ?f ?x ] =>
      let step := fresh "step" in
      set (step := fun y (_ : R y x) => @FixWf A R WF P f y) in *;
      unshelve erewrite (@FixWf_unfold_step A R WF P f x _ step)
  end.
  - red. intros [u [b [r w0]]] f g Hext. simpl. unfold postJson_functional.
    destruct (fetch 10000 (post_request u b) w0) as [[response|err] w1]; [|reflexivity].
    destruct (status response =? 429); [reflexivity|].
    destruct (sumbool_of_bool ((500 <=? status response) && (0 <? r)));
      [apply Hext | reflexivity].
  - reflexivity.
  - reflexivity.
Defined.

Definition jobEdPost (url : jsstring) (body : Body) := postJson url body 3.
Definition enrichmentPost (url : jsstring) (body : Body) := postJson url body 3.

End Client.

(** ** URLs *)

(** The code points of a string, as the conversion to a [USVString] reads
    them: a surrogate pair is one code point, a lone surrogate becomes
    U+FFFD. *)
Fixpoint code_points (s : jsstring) : list Z :=
  match s with
  | [] => []
  | c :: rest =>
      if (55296 <=? c) && (c <=? 56319) then
        match rest with
        | d :: rest' =>
            if (56320 <=? d) && (d <=? 57343)
            then (65536 + (c - 55296) * 1024 + (d - 56320)) :: code_points rest'
            else 65533 :: code_points rest
        | [] => [65533]
        end
      else if (56320 <=? c) && (c <=? 57343) then 65533 :: code_points rest
      else c :: code_points rest
  end.

(** UTF-8 encoding of one code point. *)
Definition utf8_encode (cp : Z) : list Z :=
  if cp <? 128 then [cp]
  else if cp <? 2048 then [192 + cp / 64; 128 + cp mod 64]
  else if cp <? 65536 then [224 + cp / 4096; 128 + (cp / 64) mod 64; 128 + cp mod 64]
  else [240 + cp / 262144; 128 + (cp / 4096) mod 64; 128 + (cp / 64) mod 64; 128 + cp mod 64].

Definition hex_digit (d : Z) : Z := if d <? 10 then 48 + d else 55 + d.

Definition is_alphanumeric (b : Z) : bool :=
  ((48 <=? b) && (b <=? 57)) || ((65 <=? b) && (b <=? 90)) || ((97 <=? b) && (b <=? 122)).

(** The [application/x-www-form-urlencoded] byte serializer: alphanumerics
    and [*-._] stay, a space becomes [+], every other byte is [%XX]. *)
Definition urlencode_byte (b : Z) : jsstring :=
  if is_alphanumeric b || (b =? 42) || (b =? 45) || (b =? 46) || (b =? 95) then [b]
  else if b =? 32 then [43]
  else [37; hex_digit (b / 16); hex_digit (b mod 16)].

Definition urlencode (s : jsstring) : jsstring :=
  flat_map urlencode_byte (flat_map utf8_encode (code_points s)).

(** The [application/x-www-form-urlencoded] serializer of a list of
    name-value pairs. *)
Definition urlencoded_serialize (l : list (jsstring * jsstring)) : jsstring :=
  join (js "&") (map (fun p => urlencode (fst p) ++ js "=" ++ urlencode (snd p)) l).

(** A [URL] object: the serialised scheme, authority and path, the query
    and the fragment of the URL record, and the list of its [searchParams]
    object. *)
Record URL : Type := mkURL {
  url_base : jsstring;
  url_query : option jsstring;
  url_fragment : option jsstring;
  searchParams : list (jsstring * jsstring)
}.

(** The update steps of [URLSearchParams]: the query of the URL becomes the
    serialisation of the list, or null when that is empty. *)
Definition searchParams_update (u : URL) (l : list (jsstring * jsstring)) : URL :=
  let serializedQuery := urlencoded_serialize l in
  mkURL (url_base u)
        (match serializedQuery with [] => None | _ => Some serializedQuery end)
        (url_fragment u) l.

(** [url.searchParams.append(name, value)]. *)
Definition searchParams_append (name value : jsstring) (u : URL) : URL :=
  searchParams_update u (searchParams u ++ [(name, value)]).

(** The list after [set]: the first pair named [name] takes the value, the
    other pairs of that name go, and without any the pair is appended. *)
Fixpoint set_first (name value : jsstring) (l : list (jsstring * jsstring))
  : list (jsstring * jsstring) :=
  match l with
  | [] => [(name, value)]
  | (k, v) :: l' =>
      if jsstring_eqb k name
      then (k, value) :: filter (fun p => negb (jsstring_eqb (fst p) name)) l'
      else (k, v) :: set_first name value l'
  end.

(** [url.searchParams.set(name, value)]. *)
Definition searchParams_set (name value : jsstring) (u : URL) : URL :=
  searchParams_update u (set_first name value (searchParams u)).

(** [url.toString()]: the URL serializer. *)
Definition URL_toString (u : URL) : jsstring :=
  url_base u
  ++ match url_query u with Some q => js "?" ++ q | None => [] end
  ++ match url_fragment u with Some f => js "#" ++ f | None => [] end.

(** A reference model of [new URL(s)] for the inputs this development
    evaluates it on.  A string [http://host/path] or [https://host/path]
    whose host is made of lower-case letters, dots and single hyphens and
    whose path is made of alphanumerics, [/], [-], [_] and [~] parses to
    itself, without query or fragment (an empty path is serialised as [/]).
    The reference model answers [None] for every other string, among them
    strings the platform accepts (a path with a dot, say): it is evaluated
    below on strings of the first kind only, and the general theorems do not
    depend on it, they hold for any parser. *)
Fixpoint strip_prefix (p s : jsstring) : option jsstring :=
  match p, s with
  | [], _ => Some s
  | a :: p', b :: s' => if a =? b then strip_prefix p' s' else None
  | _ :: _, [] => None
  end.

Fixpoint split_at_slash (s : jsstring) : jsstring * jsstring :=
  match s with
  | [] => ([], [])
  | c :: s' => if c =? 47 then ([], s)
               else let (h, p) := split_at_slash s' in (c :: h, p)
  end.

Fixpoint plain_host (prev_hyphen : bool) (h : jsstring) : bool :=
  match h with
  | [] => true
  | c :: h' =>
      if c =? 45 then negb prev_hyphen && plain_host true h'
      else (((97 <=? c) && (c <=? 122)) || (c =? 46)) && plain_host false h'
  end.

Definition plain_path_char (c : Z) : bool :=
  is_alphanumeric c || (c =? 47) || (c =? 45) || (c =? 95) || (c =? 126).

Definition reference_new_URL (s : jsstring) : option URL :=
  let after_scheme :=
    match strip_prefix (js "https://") s with
    | Some r => Some r
    | None => strip_prefix (js "http://") s
    end in
  match after_scheme with
  | None => None
  | Some r =>
      let (host, path) := split_at_slash r in
      match host with
      | [] => None
      | _ :: _ =>
          if plain_host false host && forallb plain_path_char path
          then Some (mkURL (match path with [] => s ++ js "/" | _ => s end) None None [])
          else None
      end
  end.

(** The values of [Params]:
    [string | number | boolean | string[] | undefined]; numbers are
    integers. *)
Inductive ParamValue : Type :=
| PUndefined
| PString (s : jsstring)
| PNumber (n : Z)
| PBoolean (b : bool)
| PArray (vs : list jsstring).

(** [Object.entries(params)]: the own properties in enumeration order; an
    object holds a key once. *)
Definition Params : Type := list (jsstring * ParamValue).

(** [String(value)] for the scalar values. *)
Definition String_value (v : ParamValue) : jsstring :=
  match v with
  | PString s => s
  | PNumber n => String_number n
  | PBoolean b => String_boolean b
  | PUndefined => js "undefined"
  | PArray vs => join (js ",") vs
  end.

Section BuildUrl.

(** The URL parser of the platform, [new URL(s)]; [None] when it throws. *)
Variable new_URL : jsstring -> option URL.

(** One turn of the loop of [buildUrl]. *)
Definition buildUrl_step (url : URL) (entry : jsstring * ParamValue) : URL :=
  let (key, value) := entry in
  match value with
  | PUndefined => url
  | PArray vs => fold_left (fun u v => searchParams_append key v u) vs url
  | _ => searchParams_set key (String_value value) url
  end.

Definition buildUrl (base path : jsstring) (params : Params) : JsResult jsstring :=
  match new_URL (base ++ path) with
  | None => Throw (NativeError (js "TypeError") (js "Invalid URL"))
  | Some url => Ok (URL_toString (fold_left buildUrl_step params url))
  end.

Definition TAXONOMY_BASE_URL : jsstring := js "https://taxonomy.api.jobtechdev.se".

Definition buildTaxonomyUrl (path : jsstring) (params : Params) : JsResult jsstring :=
  buildUrl TAXONOMY_BASE_URL path params.

End BuildUrl.

(** ** Formatters *)

Definition CHARACTER_LIMIT : Z := 50000.

(** The marker [\n...[trunkerat pga l(a-umlaut)ngd]]. *)
Definition truncation_marker : jsstring :=
  [10] ++ js "...[trunkerat pga l" ++ [228] ++ js "ngd]".

Definition truncateIfNeeded (text : jsstring) : jsstring :=
  if jslength text >? CHARACTER_LIMIT
  then slice0 CHARACTER_LIMIT text ++ truncation_marker
  else text.

(** ** The taxonomy tools *)

Record TaxonomyApiResponse : Type := mkTaxonomyApiResponse {
  taxonomy_id : jsstring;
  taxonomy_type : jsstring;
  taxonomy_preferred_label : jsstring;
  taxonomy_deprecated : option bool;
  taxonomy_definition : option jsstring
}.

Record TaxonomyConcept : Type := mkTaxonomyConcept {
  conceptId : jsstring;
  type : option jsstring;
  preferredLabel : jsstring;
  deprecated : option bool;
  definition : option jsstring
}.

Record ConceptDetail : Type := mkConceptDetail {
  baseConcept : TaxonomyConcept;
  broader : option (list TaxonomyConcept);
  narrower : option (list TaxonomyConcept);
  related : option (list TaxonomyConcept)
}.

(** The result of a tool: its text blocks, the structured payload when there
    is one, and [isError] (absent counts as [false]). *)
Record ToolResult (S : Type) : Type := mkToolResult {
  content : list jsstring;
  structuredContent : option S;
  isError : bool
}.
Arguments mkToolResult {S}.
Arguments content {S}.
Arguments structuredContent {S}.
Arguments isError {S}.

Record ConceptPayload : Type := mkConceptPayload { concept : ConceptDetail }.

Record ListPayload : Type := mkListPayload {
  list_type : jsstring;
  count : Z;
  concepts : list TaxonomyConcept
}.

(** The parsed body of a taxonomy reply, typed [TaxonomyApiResponse[]];
    [None] is the JSON value [null]. *)
Definition TaxonomyBody : Type := option (list TaxonomyApiResponse).

(** Truthiness of the optional fields. *)
Definition truthy_flag (b : option bool) : bool :=
  match b with Some true => true | _ => false end.

Definition truthy_string (s : option jsstring) : bool :=
  match s with Some (_ :: _) => true | _ => false end.

(** [Promise.all] over four promises: fulfilled with the four values when
    all are fulfilled, else rejected with the rejection that happened
    first; [first] says which of the rejections that was. *)
Definition rejection {A} (r : JsResult A) : list JsError :=
  match r with Ok _ => [] | Throw e => [e] end.

Definition Promise_all {A} (first : nat) (r1 r2 r3 r4 : JsResult A)
  : JsResult (A * A * A * A) :=
  match r1, r2, r3, r4 with
  | Ok a, Ok b, Ok c, Ok d => Ok (a, b, c, d)
  | _, _, _, _ =>
      let errs := rejection r1 ++ rejection r2 ++ rejection r3 ++ rejection r4 in
      Throw (nth first errs (hd (Thrown []) errs))
  end.

(** [array.map(f)] on a body that may be [null]. *)
Definition map_body {B} (f : TaxonomyApiResponse -> B) (body : TaxonomyBody)
  : JsResult (list B) :=
  match body with
  | Some items => Ok (map f items)
  | None => Throw (NativeError (js "TypeError")
                     (js "Cannot read properties of null (reading 'map')"))
  end.

Definition mapItem (item : TaxonomyApiResponse) : TaxonomyConcept :=
  mkTaxonomyConcept (taxonomy_id item) (Some (taxonomy_type item))
    (taxonomy_preferred_label item) (taxonomy_deprecated item)
    (taxonomy_definition item).

Definition warning_sign : jsstring := [9888; 65039].
Definition em_dash : jsstring := [8212].

Definition relation_line (c : TaxonomyConcept) : jsstring :=
  js "  - " ++ preferredLabel c ++ js " (`" ++ conceptId c ++ js "`)".

Definition not_found_text (concept_id : jsstring) : jsstring :=
  js "Taxonomy concept with ID " ++ [34] ++ concept_id ++ [34] ++ js " not found.".

(** The lines the concept handler joins. *)
Definition concept_lines (c : ConceptDetail) : list jsstring :=
  let b := baseConcept c in
  [ js "## " ++ preferredLabel b;
    js "**ID:** `" ++ conceptId b ++ js "`";
    js "**Type:** " ++ match type b with Some t => t | None => js "unknown" end ]
  ++ (if truthy_flag (deprecated b) then [warning_sign ++ js " **Deprecated concept**"] else [])
  ++ (if truthy_string (definition b)
      then [[10] ++ js "**Definition:** " ++ match definition b with Some d => d | None => [] end]
      else [])
  ++ match broader c with
     | Some (x :: xs) =>
         ([10] ++ js "**Parent (broader):**") :: map relation_line (x :: xs)
     | _ => []
     end
  ++ match narrower c with
     | Some (x :: xs) =>
         let n := x :: xs in
         ([10] ++ js "**Children (narrower) (" ++ String_number (jslength n) ++ js "):**")
           :: map relation_line (firstn 20 n)
           ++ (if jslength n >? 20
               then [js "  ...and " ++ String_number (jslength n - 20) ++ js " more"]
               else [])
     | _ => []
     end
  ++ match related c with
     | Some (x :: xs) =>
         ([10] ++ js "**Related:**") :: map relation_line (firstn 10 (x :: xs))
     | _ => []
     end.

Definition concept_path : jsstring := js "/v1/taxonomy/main/concepts".

Section TaxonomyExtended.

Variable new_URL : jsstring -> option URL.
Variable server : nat -> Request -> Reply TaxonomyBody.

(** The body of the [try] block of the concept handler, from the four
    settled values on. *)
Definition concept_try (concept_id : jsstring)
    (res : TaxonomyBody * TaxonomyBody * TaxonomyBody * TaxonomyBody)
  : JsResult (ToolResult ConceptPayload) :=
  let '(conceptRes, broaderRes, narrowerRes, relatedRes) := res in
  match conceptRes with
  | None | Some [] => Ok (mkToolResult [not_found_text concept_id] None false)
  | Some (first :: _) =>
      let baseConcept := mapItem first in
      match map_body mapItem broaderRes with
      | Throw e => Throw e
      | Ok br =>
      match map_body mapItem narrowerRes with
      | Throw e => Throw e
      | Ok na =>
      match map_body mapItem relatedRes with
      | Throw e => Throw e
      | Ok re =>
          let concept := mkConceptDetail baseConcept (Some br) (Some na) (Some re) in
          let lines := concept_lines concept in
          Ok (mkToolResult [slice0 CHARACTER_LIMIT (join [10] lines)]
                           (Some (mkConceptPayload concept)) false)
      end end end
  end.

(** The [catch] block of the concept handler. *)
Definition concept_catch (concept_id : jsstring) (err : JsError)
  : JsResult (ToolResult ConceptPayload) :=
  if statusCode_is err 404
  then Ok (mkToolResult [not_found_text concept_id] None false)
  else if instanceof_Error err
  then Ok (mkToolResult [js "An error occurred: " ++ err_message err] None true)
  else Throw err.

(** The four URLs the concept handler builds before its [try] block. *)
Definition concept_urls (concept_id : jsstring)
  : JsResult (jsstring * jsstring * jsstring * jsstring) :=
  let inc := (js "include-deprecated", PString (js "true")) in
  let rel (relation : jsstring) : Params :=
    [(js "related-ids", PString concept_id); (js "relation", PString relation); inc] in
  match buildTaxonomyUrl new_URL concept_path [(js "id", PString concept_id); inc],
        buildTaxonomyUrl new_URL concept_path (rel (js "broader")),
        buildTaxonomyUrl new_URL concept_path (rel (js "narrower")),
        buildTaxonomyUrl new_URL concept_path (rel (js "related")) with
  | Ok getConceptUrl, Ok getBroaderUrl, Ok getNarrowerUrl, Ok getRelatedUrl =>
      Ok (getConceptUrl, getBroaderUrl, getNarrowerUrl, getRelatedUrl)
  | Throw e, _, _, _ => Throw e
  | _, Throw e, _, _ => Throw e
  | _, _, Throw e, _ => Throw e
  | _, _, _, Throw e => Throw e
  end.

(** The four fetches of the concept handler.  They run concurrently; the
    trace lists their events one chain after the other. *)
Definition concept_fetches (urls : jsstring * jsstring * jsstring * jsstring)
    (w : World)
  : JsResult TaxonomyBody * JsResult TaxonomyBody * JsResult TaxonomyBody
    * JsResult TaxonomyBody * World :=
  let '(getConceptUrl, getBroaderUrl, getNarrowerUrl, getRelatedUrl) := urls in
  let (r1, w1) := taxonomyFetch _ server getConceptUrl w in
  let (r2, w2) := taxonomyFetch _ server getBroaderUrl w1 in
  let (r3, w3) := taxonomyFetch _ server getNarrowerUrl w2 in
  let (r4, w4) := taxonomyFetch _ server getRelatedUrl w3 in
  (r1, r2, r3, r4, w4).

(** The [try] and [catch] blocks on the settlement of [Promise.all]. *)
Definition concept_settle (concept_id : jsstring)
    (all : JsResult (TaxonomyBody * TaxonomyBody * TaxonomyBody * TaxonomyBody))
  : JsResult (ToolResult ConceptPayload) :=
  match all with
  | Ok res =>
      match concept_try concept_id res with
      | Ok result => Ok result
      | Throw err => concept_catch concept_id err
      end
  | Throw err => concept_catch concept_id err
  end.

(** The handler of [af_get_taxonomy_concept]; [first] tells which
    rejection [Promise.all] sees first. *)
Definition af_get_taxonomy_concept (concept_id : jsstring) (first : nat) (w : World)
  : JsResult (ToolResult ConceptPayload) * World :=
  match concept_urls concept_id with
  | Throw e => (Throw e, w)
  | Ok urls =>
      let '(r1, r2, r3, r4, w4) := concept_fetches urls w in
      (concept_settle concept_id (Promise_all first r1 r2 r3 r4), w4)
  end.

Definition list_line (c : TaxonomyConcept) : jsstring :=
  js "- **" ++ preferredLabel c ++ js "** " ++ em_dash ++ js " `" ++ conceptId c ++ js "`".

(** The handler of [af_list_taxonomy_types]. *)
Definition af_list_taxonomy_types (type_ : jsstring) (include_deprecated : bool)
    (w : World) : JsResult (ToolResult ListPayload) * World :=
  match buildTaxonomyUrl new_URL concept_path
          [(js "type", PString type_);
           (js "include-deprecated",
            PString (if include_deprecated then js "true" else js "false"));
           (js "limit", PNumber 500)] with
  | Throw e => (Throw e, w)
  | Ok url =>
      match taxonomyFetch _ server url w with
      | (Throw err, w1) =>
          if statusCode_is err 404
          then (Ok (mkToolResult
                      [js "No taxonomy concepts of type " ++ [34] ++ type_ ++ [34] ++ js " found."]
                      None false), w1)
          else (Throw err, w1)
      | (Ok response, w1) =>
          match map_body mapItem response with
          | Throw e => (Throw e, w1)
          | Ok concepts =>
              if jslength concepts =? 0 then
                (Ok (mkToolResult
                       [js "No concepts found for type " ++ [34] ++ type_ ++ [34] ++ js "."]
                       None false), w1)
              else
                let active :=
                  if include_deprecated then concepts
                  else filter (fun c => negb (truthy_flag (deprecated c))) concepts in
                let lines := map list_line active in
                let header := js "**" ++ String_number (jslength active)
                                ++ js "** concepts of type " ++ [34] ++ type_ ++ [34]
                                ++ js ":" ++ [10; 10] in
                (Ok (mkToolResult [slice0 CHARACTER_LIMIT (header ++ join [10] lines)]
                       (Some (mkListPayload type_ (jslength active) active)) false), w1)
          end
      end
  end.

End TaxonomyExtended.

(** ** Job listings *)

(** The fields of [JobAd] (types.ts) and of its nested objects; an optional
    property that is absent is [None]. *)
Record JobLabel : Type := mkJobLabel { label : option jsstring }.

Record JobDescription : Type := mkJobDescription {
  description_text : option jsstring;
  description_text_formatted : option jsstring
}.

Record JobEmployer : Type := mkJobEmployer {
  employer_name : option jsstring;
  organization_number : option jsstring;
  workplace : option jsstring
}.

Record WorkplaceAddress : Type := mkWorkplaceAddress {
  municipality : option jsstring;
  region : option jsstring;
  country : option jsstring;
  street_address : option jsstring;
  postcode : option jsstring;
  city : option jsstring;
  coordinates : option (list Z)
}.

Record MustHave : Type := mkMustHave {
  must_skills : option (list JobLabel);
  must_languages : option (list JobLabel);
  must_education_level : option (list JobLabel)
}.

Record NiceToHave : Type := mkNiceToHave {
  nice_skills : option (list JobLabel);
  nice_languages : option (list JobLabel)
}.

(** [scope_of_work]: [min] is absent ([None]), the JSON value [null]
    ([Some None]) or a number; for [max] the formatter does not tell [null]
    from absent, both are [None]. *)
Record ScopeOfWork : Type := mkScopeOfWork {
  scope_min : option (option Z);
  scope_max : option Z
}.

Record JobAd : Type := mkJobAd {
  ad_id : jsstring;
  headline : jsstring;
  description : option JobDescription;
  application_deadline : option jsstring;
  number_of_vacancies : option Z;
  employment_type : option JobLabel;
  salary_type : option JobLabel;
  employer : option JobEmployer;
  workplace_address : option WorkplaceAddress;
  occupation : option JobLabel;
  occupation_group : option JobLabel;
  occupation_field : option JobLabel;
  must_have : option MustHave;
  nice_to_have : option NiceToHave;
  duration : option JobLabel;
  working_hours_type : option JobLabel;
  scope_of_work : option ScopeOfWork;
  publication_date : option jsstring;
  last_publication_date : option jsstring;
  webpage_url : option jsstring;
  logo_url : option jsstring
}.

(** Optional chaining, [o?.f]. *)
Definition chain {A B} (o : option A) (f : A -> option B) : option B :=
  match o with Some a => f a | None => None end.

(** [a || b] on optional strings. *)
Definition or_else (a b : option jsstring) : option jsstring :=
  if truthy_string a then a else b.

(** A string in a template literal or as an element of [join]. *)
Definition template (s : option jsstring) : jsstring :=
  match s with Some t => t | None => js "undefined" end.

Definition join_element (s : option jsstring) : jsstring :=
  match s with Some t => t | None => [] end.

(** A number or [null] in a template literal. *)
Definition template_number (n : option Z) : jsstring :=
  match n with Some v => String_number v | None => js "null" end.

(** [if (cond) lines.push(line)]. *)
Definition push_if (cond : bool) (line : jsstring) : list jsstring :=
  if cond then [line] else [].

(** [s.split(sep)[0]] for a separator of one code unit. *)
Fixpoint split_head (sep : Z) (s : jsstring) : jsstring :=
  match s with
  | [] => []
  | c :: s' => if c =? sep then [] else c :: split_head sep s'
  end.

(** [skills.map((s) => s.label).join(", ")]. *)
Definition labels (items : option (list JobLabel)) : jsstring :=
  match items with
  | Some l => join (js ", ") (map (fun s => join_element (label s)) l)
  | None => []
  end.

(** [items?.length] as a condition. *)
Definition has_items {A} (items : option (list A)) : bool :=
  match items with Some (_ :: _) => true | _ => false end.

(** The lines [formatJobAdSummary] joins. *)
Definition summary_lines (ad : JobAd) : list jsstring :=
  let name := chain (employer ad) employer_name in
  let muni := chain (workplace_address ad) municipality in
  let town := chain (workplace_address ad) city in
  let occ := chain (occupation ad) label in
  let emp := chain (employment_type ad) label in
  [ js "**" ++ headline ad ++ js "**";
    js "ID: " ++ ad_id ad ]
  ++ push_if (truthy_string name) (js "Arbetsgivare: " ++ template name)
  ++ push_if (truthy_string muni || truthy_string town)
             (js "Plats: " ++ template (or_else town muni))
  ++ push_if (truthy_string occ) (js "Yrke: " ++ template occ)
  ++ push_if (truthy_string emp)
             (js "Anst" ++ [228] ++ js "llningstyp: " ++ template emp)
  ++ push_if (truthy_string (application_deadline ad))
             (js "Sista ans" ++ [246] ++ js "kningsdag: "
                ++ split_head 84 (template (application_deadline ad)))
  ++ push_if (truthy_string (webpage_url ad))
             (js "L" ++ [228] ++ js "nk: " ++ template (webpage_url ad)).

Definition formatJobAdSummary (ad : JobAd) : jsstring :=
  join [10] (summary_lines ad).

(** The lines [formatJobAdFull] joins. *)
Definition full_lines (ad : JobAd) : list jsstring :=
  let name := chain (employer ad) employer_name in
  let label_of (o : option JobLabel) := chain o label in
  let text := chain (description ad) description_text in
  [ js "# " ++ headline ad;
    js "**ID:** " ++ ad_id ad ]
  ++ push_if (truthy_string name) (js "**Arbetsgivare:** " ++ template name)
  ++ match workplace_address ad with
     | Some addr =>
         let location :=
           join (js ", ")
                (map template
                   (filter truthy_string
                      [street_address addr; or_else (city addr) (municipality addr);
                       region addr; country addr])) in
         push_if (negb (jslength location =? 0)) (js "**Adress:** " ++ location)
     | None => []
     end
  ++ push_if (truthy_string (label_of (occupation ad)))
             (js "**Yrke:** " ++ template (label_of (occupation ad)))
  ++ push_if (truthy_string (label_of (occupation_group ad)))
             (js "**Yrkesgrupp:** " ++ template (label_of (occupation_group ad)))
  ++ push_if (truthy_string (label_of (employment_type ad)))
             (js "**Anst" ++ [228] ++ js "llningsform:** "
                ++ template (label_of (employment_type ad)))
  ++ push_if (truthy_string (label_of (duration ad)))
             (js "**Varaktighet:** " ++ template (label_of (duration ad)))
  ++ push_if (truthy_string (label_of (working_hours_type ad)))
             (js "**Arbetstid:** " ++ template (label_of (working_hours_type ad)))
  ++ match chain (scope_of_work ad) scope_min with
     | Some min =>
         [ js "**Tj" ++ [228] ++ js "nstg" ++ [246] ++ js "ringsgrad:** "
             ++ template_number min ++ en_dash
             ++ template_number (match chain (scope_of_work ad) scope_max with
                                 | Some max => Some max
                                 | None => min
                                 end)
             ++ js "%" ]
     | None => []
     end
  ++ match number_of_vacancies ad with
     | Some n => push_if (negb (n =? 0)) (js "**Antal platser:** " ++ String_number n)
     | None => []
     end
  ++ push_if (truthy_string (label_of (salary_type ad)))
             (js "**L" ++ [246] ++ js "netyp:** " ++ template (label_of (salary_type ad)))
  ++ push_if (truthy_string (publication_date ad))
             (js "**Publicerad:** " ++ split_head 84 (template (publication_date ad)))
  ++ push_if (truthy_string (application_deadline ad))
             (js "**Sista ans" ++ [246] ++ js "kningsdag:** "
                ++ split_head 84 (template (application_deadline ad)))
  ++ push_if (has_items (chain (must_have ad) must_skills))
             (js "**Krav " ++ en_dash ++ js " kompetenser:** "
                ++ labels (chain (must_have ad) must_skills))
  ++ push_if (has_items (chain (must_have ad) must_languages))
             (js "**Krav " ++ en_dash ++ js " spr" ++ [229] ++ js "k:** "
                ++ labels (chain (must_have ad) must_languages))
  ++ push_if (has_items (chain (nice_to_have ad) nice_skills))
             (js "**Meriterande " ++ en_dash ++ js " kompetenser:** "
                ++ labels (chain (nice_to_have ad) nice_skills))
  ++ (if truthy_string text
      then [[10] ++ js "## Beskrivning"; template text]
      else [])
  ++ push_if (truthy_string (webpage_url ad))
             ([10] ++ js "**Ans" ++ [246] ++ js "k h" ++ [228] ++ js "r:** "
                ++ template (webpage_url ad)).

Definition formatJobAdFull (ad : JobAd) : jsstring :=
  let result := join [10] (full_lines ad) in
  if jslength result >? CHARACTER_LIMIT
  then slice0 CHARACTER_LIMIT result ++ [10] ++ js "...[trunkerat pga l" ++ [228] ++ js "ngd]"
  else result.

(** ** The other URL builders and tools *)

Definition JOBSEARCH_BASE_URL : jsstring := js "https://jobsearch.api.jobtechdev.se".
Definition JOBSTREAM_BASE_URL : jsstring := js "https://jobstream.api.jobtechdev.se".
Definition HISTORICAL_BASE_URL : jsstring := js "https://historical.api.jobtechdev.se".
Definition ENRICHMENT_BASE_URL : jsstring := js "https://jobad-enrichments-api.jobtechdev.se".
Definition LINKS_BASE_URL : jsstring := js "https://links.api.jobtechdev.se".
Definition JOBED_BASE_URL : jsstring := js "https://jobed-connect-api.jobtechdev.se".

Definition DEFAULT_LIMIT : Z := 10.
Definition MAX_LIMIT : Z := 100.

(** The payload of [af_search_taxonomy]. *)
Record SearchTaxonomyPayload : Type := mkSearchTaxonomyPayload {
  taxonomy_query : jsstring;
  taxonomy_count : Z;
  taxonomy_concepts : list TaxonomyConcept
}.

(** The parsed body of an autocomplete reply, typed
    [TaxonomyApiResponse[]]: [None] is a value that is no array ([null],
    say), and an item of the array may be [null]. *)
Definition SuggestBody : Type := option (list (option TaxonomyApiResponse)).

(** The [TypeError] of reading [property] of [null]. *)
Definition null_read (property : jsstring) : JsError :=
  NativeError (js "TypeError")
    (js "Cannot read properties of null (reading '" ++ property ++ js "')").

(** [items.map(f)] or [items.filter(f)] for a callback that reads
    [property] of each item: it throws at the first item that is [null]. *)
Fixpoint read_items {A} (property : jsstring) (items : list (option A))
  : JsResult (list A) :=
  match items with
  | [] => Ok []
  | None :: _ => Throw (null_read property)
  | Some a :: rest =>
      match read_items property rest with
      | Ok l => Ok (a :: l)
      | Throw e => Throw e
      end
  end.

(** [SearchResponse] (types.ts) as the search handler reads it:
    [data.total?.value] and [data.hits], either of which may be missing; the
    items of [hits] are listings.  The parsed body of a search reply is such
    an object or [null] ([None]). *)
Record SearchResponse : Type := mkSearchResponse {
  total_value : option Z;
  hits : option (list JobAd)
}.

Inductive Detail : Type := summary | full.

(** The arguments of [af_search_jobs], after the schema filled in the
    defaults of [limit], [offset] and [detail]. *)
Record SearchArgs : Type := mkSearchArgs {
  arg_q : option jsstring;
  arg_occupation_name : option jsstring;
  arg_occupation_group : option jsstring;
  arg_occupation_field : option jsstring;
  arg_municipality : option jsstring;
  arg_region : option jsstring;
  arg_country : option jsstring;
  arg_employer : option jsstring;
  arg_experience : option bool;
  arg_limit : Z;
  arg_offset : Z;
  arg_detail : Detail
}.

(** The payload of [af_search_jobs]. *)
Record SearchPayload : Type := mkSearchPayload {
  search_total : Z;
  search_offset : Z;
  search_count : Z;
  search_hits : list JobAd
}.

(** [StreamEvent] and [StreamResponse] (jobStream.ts). *)
Record StreamEmployer : Type := mkStreamEmployer { stream_employer_name : option jsstring }.

Record StreamEvent : Type := mkStreamEvent {
  event_id : jsstring;
  event_removed : option bool;
  event_removed_date : option jsstring;
  event_occupation : option jsstring;
  event_occupation_group : option jsstring;
  event_occupation_field : option jsstring;
  event_municipality : option jsstring;
  event_region : option jsstring;
  event_country : option jsstring;
  event_headline : option jsstring;
  event_employer : option StreamEmployer;
  event_publication_date : option jsstring;
  event_last_publication_date : option jsstring
}.

(** The parsed body of a stream reply: a direct array, an object whose
    [events] may be missing, or [null]; an item of the array may be [null]. *)
Inductive StreamData : Type :=
| StreamArray (events : list (option StreamEvent))
| StreamObject (events : option (list (option StreamEvent)))
| StreamNull.

Record StreamArgs : Type := mkStreamArgs {
  arg_date : jsstring;
  arg_date_before : option jsstring;
  arg_occupation_concept_id : option (list jsstring);
  arg_location_concept_id : option (list jsstring)
}.

(** The payload of [af_stream_jobs]. *)
Record StreamPayload : Type := mkStreamPayload {
  stream_total : Z;
  stream_new_or_updated : Z;
  stream_removed : Z;
  stream_events : list StreamEvent
}.

(** [value ?? fallback] on an optional string. *)
Definition nullish (s : option jsstring) (fallback : jsstring) : jsstring :=
  match s with Some t => t | None => fallback end.

(** The line of one concept in the text of [af_search_taxonomy]. *)
Definition search_taxonomy_line (concept : TaxonomyConcept) : jsstring :=
  let text := js "- **" ++ preferredLabel concept ++ js "** (id: `" ++ conceptId concept
                ++ js "`, type: `" ++ template (type concept) ++ js "`)" in
  if truthy_flag (deprecated concept) then text ++ js " *(DEPRECATED)*" else text.

(** The object [searchParams] of [af_search_jobs], as [Object.entries]
    lists it. *)
Definition search_jobs_params (params : SearchArgs) : Params :=
  let filter_of (key : jsstring) (value : option jsstring) : Params :=
    if truthy_string value then [(key, PString (template value))] else [] in
  [(js "limit", PNumber (arg_limit params)); (js "offset", PNumber (arg_offset params))]
  ++ filter_of (js "q") (arg_q params)
  ++ filter_of (js "occupation-name") (arg_occupation_name params)
  ++ filter_of (js "occupation-group") (arg_occupation_group params)
  ++ filter_of (js "occupation-field") (arg_occupation_field params)
  ++ filter_of (js "municipality") (arg_municipality params)
  ++ filter_of (js "region") (arg_region params)
  ++ filter_of (js "country") (arg_country params)
  ++ filter_of (js "employer") (arg_employer params)
  ++ match arg_experience params with
     | Some b => [(js "experience", PBoolean b)]
     | None => []
     end.

(** The object [af_stream_jobs] passes to the URL builder. *)
Definition stream_jobs_params (params : StreamArgs) : Params :=
  [(js "updated-after", PString (arg_date params))]
  ++ (if truthy_string (arg_date_before params)
      then [(js "updated-before", PString (template (arg_date_before params)))]
      else [])
  ++ match arg_occupation_concept_id params with
     | Some (x :: xs) => [(js "occupation-concept-id", PArray (x :: xs))]
     | _ => []
     end
  ++ match arg_location_concept_id params with
     | Some (x :: xs) => [(js "location-concept-id", PArray (x :: xs))]
     | _ => []
     end.

(** The lines of the text of [af_stream_jobs]. *)
Definition stream_lines (date : jsstring) (events active removed : list StreamEvent)
  : list jsstring :=
  [ js "**" ++ String_number (jslength events) ++ js " events** since " ++ date;
    js "New/updated: " ++ String_number (jslength active) ++ js " | Removed: "
      ++ String_number (jslength removed);
    [] ]
  ++ (if jslength active >? 0 then
        [js "### New/updated listings"]
        ++ map (fun e => js "- [" ++ event_id e ++ js "] "
                           ++ nullish (event_headline e) (js "(no title)")
                           ++ js " " ++ em_dash ++ js " "
                           ++ nullish (chain (event_employer e) stream_employer_name) [])
               (firstn 20 active)
        ++ push_if (jslength active >? 20)
                   (js "  ...and " ++ String_number (jslength active - 20) ++ js " more")
      else [])
  ++ (if jslength removed >? 0 then
        [[10] ++ js "### Removed listings"]
        ++ map (fun e => js "- [" ++ event_id e ++ js "] removed "
                           ++ nullish (event_removed_date e) [])
               (firstn 20 removed)
        ++ push_if (jslength removed >? 20)
                   (js "  ...and " ++ String_number (jslength removed - 20) ++ js " more")
      else []).

Section Tools.

Variable new_URL : jsstring -> option URL.

Definition buildJobSearchUrl (path : jsstring) (params : Params) : JsResult jsstring :=
  buildUrl new_URL JOBSEARCH_BASE_URL path params.
Definition buildJobStreamUrl (path : jsstring) (params : Params) : JsResult jsstring :=
  buildUrl new_URL JOBSTREAM_BASE_URL path params.
Definition buildHistoricalUrl (path : jsstring) (params : Params) : JsResult jsstring :=
  buildUrl new_URL HISTORICAL_BASE_URL path params.
Definition buildEnrichmentUrl (path : jsstring) (params : Params) : JsResult jsstring :=
  buildUrl new_URL ENRICHMENT_BASE_URL path params.
Definition buildLinksUrl (path : jsstring) (params : Params) : JsResult jsstring :=
  buildUrl new_URL LINKS_BASE_URL path params.
Definition buildJobEdUrl (path : jsstring) (params : Params) : JsResult jsstring :=
  buildUrl new_URL JOBED_BASE_URL path params.

(** The handler of [af_search_taxonomy].  Only the fetch is inside its
    [try] block: the [data.map] that reads the items is not. *)
Definition af_search_taxonomy (taxonomy : nat -> Request -> Reply SuggestBody)
    (q : jsstring) (type_ : option jsstring) (limit : Z) (w : World)
  : JsResult (ToolResult SearchTaxonomyPayload) * World :=
  let searchParams : Params :=
    [(js "query-string", PString q); (js "limit", PNumber limit)]
    ++ (if truthy_string type_ then [(js "type", PString (template type_))] else []) in
  match buildTaxonomyUrl new_URL (js "/v1/taxonomy/suggesters/autocomplete") searchParams with
  | Throw e => (Throw e, w)
  | Ok url =>
      match taxonomyFetch _ taxonomy url w with
      | (Throw err, w1) =>
          if instanceof_Error err
          then (Ok (mkToolResult [js "An error occurred: " ++ err_message err] None true), w1)
          else (Ok (mkToolResult [js "An unknown error occurred."] None true), w1)
      | (Ok data, w1) =>
          match data with
          | None | Some [] =>
              (Ok (mkToolResult
                     [js "No taxonomy concepts found for " ++ [34] ++ q ++ [34] ++ js "."]
                     None false), w1)
          | Some (x :: xs) =>
              match read_items (js "taxonomy/id") (x :: xs) with
              | Throw e => (Throw e, w1)
              | Ok items =>
                  let concepts :=
                    map (fun item =>
                           mkTaxonomyConcept (taxonomy_id item) (Some (taxonomy_type item))
                             (taxonomy_preferred_label item) (taxonomy_deprecated item)
                             (taxonomy_definition item)) items in
                  let lines :=
                    (js "Found **" ++ String_number (jslength concepts)
                       ++ js "** concepts for " ++ [34] ++ q ++ [34] ++ js ":" ++ [10])
                    :: map search_taxonomy_line concepts in
                  let fullText := join [10] lines in
                  let truncatedText := slice0 CHARACTER_LIMIT fullText in
                  (Ok (mkToolResult [truncatedText]
                         (Some (mkSearchTaxonomyPayload q (jslength concepts) concepts))
                         false),
                   w1)
              end
          end
      end
  end.

(** The handler of [af_get_job]; the parsed body is a listing or [null]
    ([None]), on which [formatJobAdFull] throws when it reads the headline.
    The handler has no [try] block. *)
Definition af_get_job (jobsearch : nat -> Request -> Reply (option JobAd))
    (id : jsstring) (w : World) : JsResult (ToolResult JobAd) * World :=
  match buildJobSearchUrl (js "/ad/" ++ id) [] with
  | Throw e => (Throw e, w)
  | Ok url =>
      match jobSearchFetch _ jobsearch url w with
      | (Throw e, w1) => (Throw e, w1)
      | (Ok None, w1) => (Throw (null_read (js "headline")), w1)
      | (Ok (Some ad), w1) => (Ok (mkToolResult [formatJobAdFull ad] (Some ad) false), w1)
      end
  end.

(** The handler of [af_search_jobs]; it has no [try] block, and it reads
    [data.total] of the parsed body, which throws when the body is [null]. *)
Definition af_search_jobs (jobsearch : nat -> Request -> Reply (option SearchResponse))
    (params : SearchArgs) (w : World) : JsResult (ToolResult SearchPayload) * World :=
  match buildJobSearchUrl (js "/search") (search_jobs_params params) with
  | Throw e => (Throw e, w)
  | Ok url =>
      match jobSearchFetch _ jobsearch url w with
      | (Throw e, w1) => (Throw e, w1)
      | (Ok None, w1) => (Throw (null_read (js "total")), w1)
      | (Ok (Some data), w1) =>
          let total := match total_value data with Some v => v | None => 0 end in
          let hits := match hits data with Some l => l | None => [] end in
          if jslength hits =? 0 then
            (Ok (mkToolResult [js "No jobs found for your search."] None false), w1)
          else
            let formatted :=
              join ([10; 10] ++ js "---" ++ [10; 10])
                   (map (fun ad => match arg_detail params with
                                   | full => formatJobAdFull ad
                                   | summary => formatJobAdSummary ad
                                   end) hits) in
            let header :=
              js "Found **" ++ String_number total ++ js "** jobs (showing "
                 ++ String_number (arg_offset params + 1) ++ en_dash
                 ++ String_number (arg_offset params + jslength hits) ++ js "):" ++ [10; 10] in
            (Ok (mkToolResult [header ++ formatted]
                   (Some (mkSearchPayload total (arg_offset params) (jslength hits) hits))
                   false), w1)
      end
  end.

(** [Array.isArray(data) ? data : (data.events ?? [])]: reading [events]
    of a body that is [null] throws. *)
Definition stream_events_of (data : StreamData) : JsResult (list (option StreamEvent)) :=
  match data with
  | StreamArray l => Ok l
  | StreamObject (Some l) => Ok l
  | StreamObject None => Ok []
  | StreamNull => Throw (null_read (js "events"))
  end.

(** The handler of [af_stream_jobs]; it has no [try] block.  The first
    [filter] reads [removed] of every event, so it throws when one of them is
    [null]; past it the items of the array are the events themselves. *)
Definition af_stream_jobs (jobstream : nat -> Request -> Reply StreamData)
    (params : StreamArgs) (w : World) : JsResult (ToolResult StreamPayload) * World :=
  match buildJobStreamUrl (js "/v2/stream") (stream_jobs_params params) with
  | Throw e => (Throw e, w)
  | Ok url =>
      match jobStreamFetch _ jobstream url w with
      | (Throw e, w1) => (Throw e, w1)
      | (Ok data, w1) =>
          match stream_events_of data with
          | Throw e => (Throw e, w1)
          | Ok items =>
              if jslength items =? 0 then
                (Ok (mkToolResult [js "No events found since " ++ arg_date params ++ js "."]
                       None false), w1)
              else
                match read_items (js "removed") items with
                | Throw e => (Throw e, w1)
                | Ok events =>
                    let removed := filter (fun e => truthy_flag (event_removed e)) events in
                    let active :=
                      filter (fun e => negb (truthy_flag (event_removed e))) events in
                    let text :=
                      join [10] (stream_lines (arg_date params) events active removed) in
                    (Ok (mkToolResult [slice0 CHARACTER_LIMIT text]
                           (Some (mkStreamPayload (jslength events) (jslength active)
                                    (jslength removed) (firstn 100 events)))
                           false), w1)
                end
          end
      end
  end.

End Tools.

(** ** Vocabulary of the properties *)

Section Policy.

Context {T : Type} (server : nat -> Request -> Reply T).
Variables (url : jsstring) (rq : Request) (delay : Z -> Z) (what : jsstring).

(** The body [fetchJson] and [postJson] share, with the recursive call as
    [self], the request as [rq], the wait before a retry as [delay] and the
    start of the error message as [what]. *)
Definition attempt_body (self : Z -> World -> JsResult T * World)
    (retries : Z) (w : World) : JsResult T * World :=
  match fetch T server 10000 rq w with
  | (Throw err, w1) => (Throw (on_catch url err), w1)
  | (Ok response, w1) =>
      if status response =? 429 then (Throw (on_catch url (rate_limited url)), w1)
      else if (500 <=? status response) && (0 <? retries) then
        self (retries - 1)
             (sleep (delay retries)
                (logger_warn (retries - 1) (delay retries)
                   (retry_message retries url (delay retries)) w1))
      else if negb (ok response) then
        (Throw (on_catch url (http_error T what response url)), w1)
      else (json response, w1)
  end.

(** The upstream answers the [n]-th request with [r] before the timer
    fires. *)
Definition responds (n : nat) (r : Response T) : Prop :=
  latency (server n rq) < 10000 /\ settlement (server n rq) = Responds r.

(** The upstream answers every request in time with a status of 500 or
    more. *)
Definition always_5xx : Prop :=
  forall n, exists r, responds n r /\ 500 <= status r.

(** The events of one retry. *)
Definition retry_events (retries : Z) (r : Response T) : World :=
  [Fetched rq (Answered (status r));
   Warned (retry_message retries url (delay retries)) (retries - 1) (delay retries);
   Slept (delay retries)].

(** The runs of the policy, case by case. *)
Inductive run : Z -> World -> JsResult T * World -> Prop :=
| run_timeout retries w :
    10000 <= latency (server (attempts w) rq) ->
    run retries w (Throw (timeout_error url), w ++ [Fetched rq Aborted])
| run_unreachable retries w e :
    latency (server (attempts w) rq) < 10000 ->
    settlement (server (attempts w) rq) = Fails e ->
    run retries w (Throw (on_catch url e), w ++ [Fetched rq Unreachable])
| run_rate_limited retries w r :
    responds (attempts w) r -> status r = 429 ->
    run retries w (Throw (rate_limited url), w ++ [Fetched rq (Answered 429)])
| run_retry retries w r out :
    responds (attempts w) r -> 500 <= status r -> 0 < retries ->
    run (retries - 1) (w ++ retry_events retries r) out ->
    run retries w out
| run_http_error retries w r :
    responds (attempts w) r -> status r <> 429 ->
    status r < 500 \/ retries <= 0 -> ok r = false ->
    run retries w (Throw (http_error T what r url), w ++ [Fetched rq (Answered (status r))])
| run_ok retries w r :
    responds (attempts w) r -> ok r = true ->
    run retries w (json r, w ++ [Fetched rq (Answered (status r))]).

(** The answer the trace records for a reply, under the 10 s timer. *)
Definition classify (reply : Reply T) : Answer :=
  if 10000 <=? latency reply then Aborted
  else match settlement reply with
       | Responds r => Answered (status r)
       | Fails _ => Unreachable
       end.

(** Every attempt in [evs], the first being the [n]-th request of the
    process, is recorded as the timer and the upstream decide. *)
Fixpoint faithful (n : nat) (evs : World) : Prop :=
  match evs with
  | [] => True
  | Fetched rq' a :: evs' => a = classify (server n rq') /\ faithful (S n) evs'
  | _ :: evs' => faithful n evs'
  end.

(** The events of a retry: an attempt answered with a status of 500 or
    more, the warning and the wait. *)
Definition is_retry_event (e : Event) : Prop :=
  match e with
  | Fetched _ (Answered st) => 500 <= st
  | Fetched _ _ => False
  | _ => True
  end.

(** How the result of a call follows from the answer to its last attempt. *)
Definition settles (a : Answer) (res : JsResult T) : Prop :=
  match a with
  | Aborted => res = Throw (timeout_error url)
  | Unreachable => exists e, res = Throw (on_catch url e)
  | Answered st =>
      (200 <= st <= 299) \/ exists msg, res = Throw (ApiError msg (Some st) (Some url))
  end.

(** The waits of [k] successive retries that start with budget [retries]. *)
Fixpoint retry_delays (retries : Z) (k : nat) : list Z :=
  match k with
  | O => []
  | S k' => delay retries :: retry_delays (retries - 1) k'
  end.

End Policy.

(** The wait of [fetchJson] before a retry, [(4 - retries) * 1000]. *)
Definition fetchJson_delay (retries : Z) : Z := (4 - retries) * 1000.

(** The wait of [postJson] before a retry,
    [Math.pow(2, 3 - retries) * 1000]. *)
Definition postJson_delay (retries : Z) : Z := Math_pow2_times (3 - retries) 1000.

(** The upstream answers every request for [url] in time with a status of
    500 or more. *)
Definition answers_5xx {T} (server : nat -> Request -> Reply T) (url : jsstring) : Prop :=
  forall n rq, req_url rq = url ->
    exists r, responds server rq n r /\ 500 <= status r.

(** The time from a request to the settlement of [response.json()]: the
    wait for the response and the time its body takes. *)
Definition settled_after {T} (reply : Reply T) : Z :=
  latency reply
  + match settlement reply with Responds r => body_latency r | Fails _ => 0 end.

(** Attempts made between two states of the world. *)
Definition attempts_made (w w' : World) : Z :=
  Z.of_nat (attempts w') - Z.of_nat (attempts w).

(** The pairs named [k] in a query list, in order. *)
Definition entries_of (k : jsstring) (l : list (jsstring * jsstring))
  : list (jsstring * jsstring) :=
  filter (fun p => jsstring_eqb (fst p) k) l.

(** What one parameter does to the pairs of its own name. *)
Definition effect (key : jsstring) (value : ParamValue)
    (es : list (jsstring * jsstring)) : list (jsstring * jsstring) :=
  match value with
  | PUndefined => es
  | PArray vs => es ++ map (pair key) vs
  | _ => [(key, String_value value)]
  end.

(** The pairs one parameter contributes to a fresh query. *)
Definition param_pairs (entry : jsstring * ParamValue) : list (jsstring * jsstring) :=
  effect (fst entry) (snd entry) [].

(** The loop of [buildUrl] on the list of [searchParams]. *)
Definition step_list (l : list (jsstring * jsstring)) (entry : jsstring * ParamValue)
  : list (jsstring * jsstring) :=
  match snd entry with
  | PUndefined => l
  | PArray vs => l ++ map (pair (fst entry)) vs
  | v => set_first (fst entry) (String_value v) l
  end.

(** Whether a parameter writes to the query at all. *)
Definition writes (entry : jsstring * ParamValue) : bool :=
  match snd entry with
  | PUndefined | PArray [] => false
  | _ => true
  end.

(** The query of the URL is the serialisation of its list. *)
Definition synced (u : URL) : Prop :=
  url_query u = match urlencoded_serialize (searchParams u) with
                | [] => None
                | _ :: _ => Some (urlencoded_serialize (searchParams u))
                end.

(** [s.startsWith(p)], [s.includes(p)] and [s.endsWith(suffix)]. *)
Fixpoint startsWith (p s : jsstring) : bool :=
  match p, s with
  | [], _ => true
  | a :: p', b :: s' => (a =? b) && startsWith p' s'
  | _ :: _, [] => false
  end.

Fixpoint includes (p s : jsstring) : bool :=
  startsWith p s || match s with [] => false | _ :: s' => includes p s' end.

Definition endsWith (suffix s : jsstring) : bool :=
  jsstring_eqb (skipn (List.length s - List.length suffix) s) suffix
  && (List.length suffix <=? List.length s)%nat.

(** A result that carries the structured payload [p]. *)
Definition structured {S} (res : JsResult (ToolResult S)) (p : S) : Prop :=
  exists t, res = Ok t /\ structuredContent t = Some p.

(** A failed concept lookup: the handler rejects, or answers with the
    not-found text or an error text and no payload. *)
Definition failed (concept_id : jsstring) (res : JsResult (ToolResult ConceptPayload))
  : Prop :=
  match res with
  | Throw _ => True
  | Ok t => structuredContent t = None
            /\ (isError t = true \/ content t = [not_found_text concept_id])
  end.

(** The payload and the text of a successful concept lookup. *)
Definition concept_detail (c : TaxonomyApiResponse) (br na re : list TaxonomyApiResponse)
  : ConceptDetail :=
  mkConceptDetail (mapItem c) (Some (map mapItem br)) (Some (map mapItem na))
                  (Some (map mapItem re)).

Definition concept_result (detail : ConceptDetail) : ToolResult ConceptPayload :=
  mkToolResult [slice0 CHARACTER_LIMIT (join [10] (concept_lines detail))]
               (Some (mkConceptPayload detail)) false.

(** The formatted text of the list handler before it is cut. *)
Definition list_text (p : ListPayload) : jsstring :=
  (js "**" ++ String_number (count p) ++ js "** concepts of type " ++ [34]
      ++ list_type p ++ [34] ++ js ":" ++ [10; 10])
  ++ join [10] (map list_line (concepts p)).

(** The sum of a list of waits. *)
Definition total_wait (ds : list Z) : Z := fold_right Z.add 0 ds.

(** Every attempt in [evs] sends the request [rq]. *)
Definition sends_only (rq : Request) (evs : World) : Prop :=
  Forall (fun e => match e with Fetched rq' _ => rq' = rq | _ => True end) evs.

(** The upstream answers the requests [n], ..., [n + k - 1] in time with a
    status of 500 or more. *)
Definition fails_5xx {T} (server : nat -> Request -> Reply T) (rq : Request)
    (n k : nat) : Prop :=
  forall i, (i < k)%nat -> exists r, responds server rq (n + i) r /\ 500 <= status r.

(** A string of UTF-16 code units. *)
Definition well_formed (s : jsstring) : Prop := Forall (fun c => 0 <= c <= 65535) s.

Definition well_formed_value (v : ParamValue) : Prop :=
  match v with
  | PString s => well_formed s
  | PArray vs => Forall well_formed vs
  | _ => True
  end.

(** The code units a name or a value is encoded with: the alphanumerics
    and [*-._], [+] for a space, and [%] before two hexadecimal digits. *)
Definition encoded_char (c : Z) : bool :=
  is_alphanumeric c || (c =? 42) || (c =? 45) || (c =? 46) || (c =? 95)
  || (c =? 43) || (c =? 37).

(** The number of code units [c] in [s]. *)
Definition occurrences_of (c : Z) (s : jsstring) : Z :=
  jslength (filter (Z.eqb c) s).

(** A listing that carries the two mandatory fields only. *)
Definition bare_ad (id headline : jsstring) : JobAd :=
  mkJobAd id headline None None None None None None None None None None None None None
          None None None None None None.

(** No code unit of [s] is [sep]. *)
Definition free_of (sep : Z) (s : jsstring) : Prop :=
  Forall (fun c => c <> sep) s.

(** A response that is neither [ok], nor a 429, nor a 5xx. *)
Definition client_error {T} (r : Response T) : Prop :=
  ok r = false /\ status r <> 429 /\ status r < 500.

(** The keys of an object, given each possible key with whether it is
    there. *)
Definition present_keys (spec : list (jsstring * bool)) : list jsstring :=
  flat_map (fun e : jsstring * bool => if snd e then [fst e] else []) spec.

(** ** Upstreams and inputs of the examples *)

(** An upstream that is always unavailable. *)
Definition always_503 : nat -> Request -> Reply unit :=
  fun _ _ => mkReply 10 (Responds (mkResponse 503 (js "Service Unavailable") 5 (Ok tt))).

(** An upstream that always limits the rate. *)
Definition always_429 : nat -> Request -> Reply unit :=
  fun _ _ => mkReply 10 (Responds (mkResponse 429 (js "Too Many Requests") 5 (Ok tt))).

(** An upstream that never answers within 10 s. *)
Definition never_in_time : nat -> Request -> Reply unit :=
  fun _ _ => mkReply 15000 (Responds (mkResponse 200 (js "OK") 5 (Ok tt))).

(** An upstream that fails twice with status 500 and then answers [true]. *)
Definition fails_twice : nat -> Request -> Reply bool :=
  fun n _ =>
    if (n <? 2)%nat
    then mkReply 10 (Responds (mkResponse 500 (js "Internal Server Error") 5
                                 (Throw (NativeError (js "SyntaxError") []))))
    else mkReply 10 (Responds (mkResponse 200 (js "OK") 5 (Ok true))).

(** The parameters of the example of the specification. *)
Definition example_params : Params :=
  [(js "q", PString (js "nurse")); (js "limit", PNumber 10);
   (js "tags", PArray [js "a"; js "b"]); (js "missing", PUndefined)].

(** A taxonomy that answers every request with the one concept whose label
    is [label]. *)
Definition labelled_item (label : jsstring) : TaxonomyApiResponse :=
  mkTaxonomyApiResponse (js "i46j_HmG_v64") (js "occupation-name") label None None.

Definition labelled (label : jsstring) : nat -> Request -> Reply TaxonomyBody :=
  fun _ _ =>
    mkReply 20 (Responds (mkResponse 200 (js "OK") 5 (Ok (Some [labelled_item label])))).

(** A taxonomy that serves the concept but is unavailable for its broader
    concepts. *)
Definition broader_unavailable : nat -> Request -> Reply TaxonomyBody :=
  fun n rq =>
    if includes (js "relation=broader") (req_url rq)
    then mkReply 10 (Responds (mkResponse 503 (js "Service Unavailable") 5
                                 (Throw (NativeError (js "SyntaxError") []))))
    else labelled (js "Sjukskoterska") n rq.

(** A label of 50001 code units. *)
Definition long_label : jsstring := repeat 97 (Z.to_nat 50001).

(** A taxonomy with one current and one deprecated occupation field. *)
Definition two_fields : nat -> Request -> Reply TaxonomyBody :=
  fun _ _ =>
    mkReply 20 (Responds (mkResponse 200 (js "OK") 5
      (Ok (Some [mkTaxonomyApiResponse (js "apaJ_2ja_LuF") (js "occupation-field")
                   (js "Data/IT") None None;
                 mkTaxonomyApiResponse (js "old1_xxx_yyy") (js "occupation-field")
                   (js "Retired") (Some true) None])))).

(** An upstream that answers every request with status 200. *)
Definition never_failing : nat -> Request -> Reply unit :=
  fun _ _ => mkReply 10 (Responds (mkResponse 200 (js "OK") 5 (Ok tt))).

(** An upstream that knows no resource. *)
Definition always_404 : nat -> Request -> Reply unit :=
  fun _ _ => mkReply 10 (Responds (mkResponse 404 (js "Not Found") 5 (Ok tt))).

(** A network on which no connection can be made. *)
Definition connection_refused : JsError :=
  NativeError (js "TypeError") (js "fetch failed").

Definition unreachable : nat -> Request -> Reply unit :=
  fun _ _ => mkReply 5 (Fails connection_refused).

(** A listing with an application deadline. *)
Definition closing_ad : JobAd :=
  mkJobAd (js "29384756") (js "Sjukskoterska till akuten") None
          (Some (js "2024-06-30T23:59:59")) None None None None None None None None None
          None None None None None None None None.

(** A taxonomy that knows no resource. *)
Definition missing_taxonomy : nat -> Request -> Reply TaxonomyBody :=
  fun _ _ => mkReply 10 (Responds (mkResponse 404 (js "Not Found") 5 (Ok None))).

Definition missing_suggestions : nat -> Request -> Reply SuggestBody :=
  fun _ _ => mkReply 10 (Responds (mkResponse 404 (js "Not Found") 5 (Ok None))).

(** An autocomplete whose array holds a [null]. *)
Definition null_suggestion : nat -> Request -> Reply SuggestBody :=
  fun _ _ =>
    mkReply 10 (Responds (mkResponse 200 (js "OK") 5
                            (Ok (Some [Some (labelled_item (js "Sjukskoterska")); None])))).

(** An upstream whose response arrives after 600 ms and whose body takes
    10 s more. *)
Definition slow_body : nat -> Request -> Reply unit :=
  fun _ _ => mkReply 600 (Responds (mkResponse 200 (js "OK") 10000 (Ok tt))).

(** Job tools that answer [null]. *)
Definition null_listing : nat -> Request -> Reply (option JobAd) :=
  fun _ _ => mkReply 20 (Responds (mkResponse 200 (js "OK") 5 (Ok None))).

Definition null_search : nat -> Request -> Reply (option SearchResponse) :=
  fun _ _ => mkReply 20 (Responds (mkResponse 200 (js "OK") 5 (Ok None))).

(** A listing with a deadline, and a job search that knows it only. *)
Definition one_listing : nat -> Request -> Reply (option JobAd) :=
  fun _ _ => mkReply 20 (Responds (mkResponse 200 (js "OK") 5 (Ok (Some closing_ad)))).

Definition no_listing : nat -> Request -> Reply (option JobAd) :=
  fun _ _ => mkReply 20 (Responds (mkResponse 404 (js "Not Found") 5 (Ok None))).

Definition one_hit : nat -> Request -> Reply (option SearchResponse) :=
  fun _ _ => mkReply 20 (Responds (mkResponse 200 (js "OK") 5
                                     (Ok (Some (mkSearchResponse (Some 57)
                                                  (Some [closing_ad])))))).

Definition plain_search : SearchArgs :=
  mkSearchArgs (Some (js "nurse")) None None None (Some []) None None None (Some false)
               DEFAULT_LIMIT 0 summary.

(** A stream of two new listings and one removal. *)
Definition stream_event (id : jsstring) (removed : option bool) : StreamEvent :=
  mkStreamEvent id removed None None None None None None None None None None None.

Definition three_events : nat -> Request -> Reply StreamData :=
  fun _ _ =>
    mkReply 20 (Responds (mkResponse 200 (js "OK") 5
      (Ok (StreamObject (Some [Some (stream_event (js "1") None);
                               Some (stream_event (js "2") (Some true));
                               Some (stream_event (js "3") (Some false))]))))).

Definition since_june : StreamArgs :=
  mkStreamArgs (js "2024-06-01T00:00:00") None None None.

Definition nurses_since_june : StreamArgs :=
  mkStreamArgs (js "2024-06-01T00:00:00") (Some [])
               (Some [js "bXNH_MNX_dUR"; js "Z8ci_bBE_tmx"]) None.

(** A job search that limits the rate. *)
Definition busy_search : nat -> Request -> Reply (option SearchResponse) :=
  fun _ _ => mkReply 10 (Responds (mkResponse 429 (js "Too Many Requests") 5 (Ok None))).

(** * Properties *)

(** ** Traces and strings *)

Lemma attempts_app (w w' : World) : attempts (w ++ w') = (attempts w + attempts w')%nat.
Proof. unfold attempts. rewrite filter_app, length_app. reflexivity. Qed.

Lemma delays_app (w w' : World) : delays (w ++ w') = delays w ++ delays w'.
Proof.
  induction w as [|e w IH]; simpl; [reflexivity|].
  destruct e; simpl; rewrite IH; reflexivity.
Qed.

Lemma attempts_snoc_fetch (w : World) rq a :
  attempts (w ++ [Fetched rq a]) = S (attempts w).
Proof. rewrite attempts_app. unfold attempts at 2. simpl. lia. Qed.

Lemma delays_snoc_fetch (w : World) rq a : delays (w ++ [Fetched rq a]) = delays w.
Proof. rewrite delays_app. simpl. apply List.app_nil_r. Qed.

Lemma jsstring_eqb_spec (s t : jsstring) : reflect (s = t) (jsstring_eqb s t).
Proof.
  revert t. induction s as [|a s IH]; intros [|b t]; simpl;
    try (constructor; congruence).
  destruct (Z.eqb_spec a b) as [->|Hab]; simpl.
  - destruct (IH t) as [->|Hst]; constructor; congruence.
  - constructor; congruence.
Qed.

Lemma jsstring_eqb_refl s : jsstring_eqb s s = true.
Proof. destruct (jsstring_eqb_spec s s); congruence. Qed.

Lemma jslength_app {A} (s t : list A) : jslength (s ++ t) = jslength s + jslength t.
Proof. unfold jslength. rewrite length_app. lia. Qed.

Lemma jslength_slice0 n s : 0 <= n -> jslength (slice0 n s) = Z.min n (jslength s).
Proof. intros Hn. unfold jslength, slice0. rewrite length_firstn. lia. Qed.

(** ** The runs of the retry policy *)

Lemma on_catch_AbortError url : on_catch url AbortError = timeout_error url.
Proof. reflexivity. Qed.

Lemma on_catch_ApiError url m sc ep : on_catch url (ApiError m sc ep) = ApiError m sc ep.
Proof. reflexivity. Qed.

Section PolicyFacts.

Context {T : Type} (server : nat -> Request -> Reply T).
Variables (url : jsstring) (rq : Request) (delay : Z -> Z) (what : jsstring).

Variable f : Z -> World -> JsResult T * World.
Hypothesis f_unfold :
  forall retries w, f retries w = attempt_body server url rq delay what f retries w.

(** A function that unfolds to the shared body runs as [run] says. *)
Lemma f_run : forall retries w, run server url rq delay what retries w (f retries w).
Proof.
  intros retries.
  remember (Z.to_nat retries) as n eqn:Hn.
  revert retries Hn.
  induction n as [n IH] using lt_wf_ind; intros retries Hn w.
  rewrite f_unfold. unfold attempt_body, fetch.
  destruct (Z.leb_spec 10000 (latency (server (attempts w) rq))) as [Hlat|Hlat].
  - rewrite on_catch_AbortError. now apply run_timeout.
  - destruct (settlement (server (attempts w) rq)) as [r|e] eqn:Hs.
    + assert (Hr : responds server rq (attempts w) r) by (split; assumption).
      destruct (Z.eqb_spec (status r) 429) as [H429|H429].
      * unfold rate_limited. rewrite on_catch_ApiError, H429.
        now apply run_rate_limited with (r := r).
      * destruct (Z.leb_spec 500 (status r)) as [H5|H5];
          destruct (Z.ltb_spec 0 retries) as [Hre|Hre]; simpl.
        -- apply run_retry with (r := r); try assumption.
           unfold sleep, logger_warn. rewrite <- !List.app_assoc. simpl.
           apply (IH (Z.to_nat (retries - 1))); [lia | reflexivity].
        -- assert (Hok : ok r = false).
           { unfold ok. destruct (Z.leb_spec (status r) 299); [lia|].
             now rewrite andb_false_r. }
           rewrite Hok. simpl. unfold http_error. rewrite on_catch_ApiError.
           apply run_http_error; auto.
        -- destruct (ok r) eqn:Hok; simpl.
           ++ now apply run_ok.
           ++ unfold http_error. rewrite on_catch_ApiError.
              apply run_http_error; auto.
        -- destruct (ok r) eqn:Hok; simpl.
           ++ now apply run_ok.
           ++ unfold http_error. rewrite on_catch_ApiError.
              apply run_http_error; auto.
    + now apply run_unreachable.
Qed.

Lemma faithful_app n evs evs' :
  faithful server n (evs ++ evs')
  <-> faithful server n evs /\ faithful server (n + attempts evs) evs'.
Proof.
  revert n. induction evs as [|e evs IH]; intros n; simpl.
  - rewrite Nat.add_0_r. tauto.
  - destruct e as [rq' a| |]; simpl; unfold attempts in *; simpl.
    + rewrite IH. rewrite Nat.add_succ_r. simpl. tauto.
    + apply IH.
    + apply IH.
Qed.

Lemma classify_responds n r :
  responds server rq n r -> classify (server n rq) = Answered (status r).
Proof.
  intros [Hl Hs]. unfold classify. rewrite Hs.
  destruct (Z.leb_spec 10000 (latency (server n rq))); [lia | reflexivity].
Qed.

Lemma classify_timeout n :
  10000 <= latency (server n rq) -> classify (server n rq) = Aborted.
Proof.
  intros Hl. unfold classify.
  destruct (Z.leb_spec 10000 (latency (server n rq))); [reflexivity | lia].
Qed.

Lemma responds_inj n r r' :
  responds server rq n r -> responds server rq n r' -> r = r'.
Proof. intros [_ H] [_ H']. congruence. Qed.

(** Induction on a run, with the names of the cases. *)
Ltac run_cases H :=
  induction H as [retries w Hl | retries w e Hl Hs | retries w r Hr H429
                 | retries w r out Hr H5 Hre Hrun IH
                 | retries w r Hr H429 Hex Hok | retries w r Hr Hok].

(** The trace of a run: some retries, then one last attempt that decides
    the result. *)
Lemma run_shape retries w out :
  run server url rq delay what retries w out ->
  exists pre a,
    snd out = w ++ pre ++ [Fetched rq a]
    /\ Forall is_retry_event pre
    /\ settles url a (fst out)
    /\ faithful server (attempts w) (pre ++ [Fetched rq a]).
Proof.
  intros H. run_cases H.
  - exists [], Aborted. simpl. rewrite (classify_timeout _ Hl). auto.
  - exists [], Unreachable. simpl. repeat split; eauto.
    unfold classify. rewrite Hs.
    destruct (Z.leb_spec 10000 (latency (server (attempts w) rq))); [lia | reflexivity].
  - exists [], (Answered 429). simpl. repeat split; eauto.
    + right. eexists. reflexivity.
    + rewrite (classify_responds _ _ Hr). now rewrite H429.
  - destruct IH as (pre & a & Hw & Hpre & Ha & Hf).
    exists (retry_events url rq delay retries r ++ pre), a.
    rewrite Hw, <- !List.app_assoc. split; [reflexivity|].
    split; [|split; [assumption|]].
    + apply Forall_app. split; [|assumption].
      unfold retry_events. repeat constructor; simpl; assumption.
    + apply faithful_app. split.
      * simpl. rewrite (classify_responds _ _ Hr). auto.
      * rewrite attempts_app in Hf. exact Hf.
  - exists [], (Answered (status r)). simpl. repeat split; auto.
    + right. eexists. reflexivity.
    + now rewrite (classify_responds _ _ Hr).
  - exists [], (Answered (status r)). simpl. repeat split; auto.
    + left. unfold ok in Hok. apply andb_prop in Hok as [H1 H2].
      apply Z.leb_le in H1, H2. lia.
    + now rewrite (classify_responds _ _ Hr).
Qed.

(** A run makes at least one attempt and at most one more than its budget. *)
Lemma run_attempts_bound retries w out :
  run server url rq delay what retries w out ->
  (attempts w < attempts (snd out))%nat
  /\ Z.of_nat (attempts (snd out)) <= Z.of_nat (attempts w) + 1 + Z.max 0 retries.
Proof.
  intros H. run_cases H;
    try (cbn [snd]; rewrite attempts_snoc_fetch; lia).
  rewrite attempts_app in IH.
  change (attempts (retry_events url rq delay retries r)) with 1%nat in IH.
  lia.
Qed.

(** The waits of a run are those of its retries, in order. *)
Lemma run_delays retries w out :
  run server url rq delay what retries w out ->
  delays (snd out)
  = delays w ++ retry_delays delay retries (attempts (snd out) - attempts w - 1).
Proof.
  intros H. run_cases H;
    try (cbn [snd]; rewrite attempts_snoc_fetch, delays_snoc_fetch;
         replace (S (attempts w) - attempts w - 1)%nat with O by lia;
         simpl; now rewrite List.app_nil_r).
  rewrite IH.
  destruct (run_shape _ _ _ Hrun) as (pre & a & Hw & _).
  rewrite Hw, !attempts_app, delays_app.
  change (attempts (retry_events url rq delay retries r)) with 1%nat.
  change (attempts [Fetched rq a]) with 1%nat.
  change (delays (retry_events url rq delay retries r)) with [delay retries].
  replace (attempts w + 1 + (attempts pre + 1) - (attempts w + 1) - 1)%nat
    with (attempts pre) by lia.
  replace (attempts w + 1 + (attempts pre + 1) - attempts w - 1)%nat
    with (S (attempts pre)) by lia.
  simpl. rewrite <- List.app_assoc. reflexivity.
Qed.

(** Against an upstream that always answers 500 or more a run uses its whole
    budget and ends on the error of the last response. *)
Lemma run_always_5xx retries w out :
  always_5xx server rq ->
  run server url rq delay what retries w out ->
  exists r, 500 <= status r
    /\ fst out = Throw (http_error T what r url)
    /\ Z.of_nat (attempts (snd out)) = Z.of_nat (attempts w) + 1 + Z.max 0 retries.
Proof.
  intros Hall H. run_cases H;
    destruct (Hall (attempts w)) as (r' & Hr' & H5').
  - destruct Hr'. lia.
  - destruct Hr'. congruence.
  - rewrite (responds_inj _ _ _ Hr Hr') in H429. lia.
  - destruct IH as (r0 & H0 & Hres & Hn). exists r0. repeat split; auto.
    rewrite Hn, attempts_app.
    change (attempts (retry_events url rq delay retries r)) with 1%nat. lia.
  - exists r. cbn [fst snd]. rewrite attempts_snoc_fetch.
    rewrite (responds_inj _ _ _ Hr Hr') in *. repeat split; auto; lia.
  - rewrite (responds_inj _ _ _ Hr Hr') in Hok. unfold ok in Hok.
    apply andb_prop in Hok as [_ H2]. apply Z.leb_le in H2. lia.
Qed.

(** The error of such a run is that of the reply to its last attempt. *)
Lemma run_always_5xx_last retries w out :
  always_5xx server rq ->
  run server url rq delay what retries w out ->
  exists r, responds server rq (attempts w + Z.to_nat retries) r
    /\ 500 <= status r
    /\ fst out = Throw (http_error T what r url)
    /\ exists pre, snd out = w ++ pre ++ [Fetched rq (Answered (status r))].
Proof.
  intros Hall H. run_cases H;
    destruct (Hall (attempts w)) as (r' & Hr' & H5').
  - destruct Hr'. lia.
  - destruct Hr'. congruence.
  - rewrite (responds_inj _ _ _ Hr Hr') in H429. lia.
  - destruct IH as (r0 & H0 & H50 & Hres & pre & Hw). exists r0.
    rewrite attempts_app in H0.
    change (attempts (retry_events url rq delay retries r)) with 1%nat in H0.
    replace (attempts w + 1 + Z.to_nat (retries - 1))%nat
      with (attempts w + Z.to_nat retries)%nat in H0 by lia.
    split; [exact H0|]. split; [exact H50|]. split; [exact Hres|].
    exists (retry_events url rq delay retries r ++ pre).
    rewrite Hw, <- !List.app_assoc. reflexivity.
  - exists r. cbn [fst snd].
    rewrite (responds_inj _ _ _ Hr Hr') in *.
    assert (Hz : Z.to_nat retries = O) by lia.
    rewrite Hz, Nat.add_0_r.
    split; [exact Hr'|]. split; [exact H5'|]. split; [reflexivity|].
    exists []. reflexivity.
  - rewrite (responds_inj _ _ _ Hr Hr') in Hok. unfold ok in Hok.
    apply andb_prop in Hok as [_ H2]. apply Z.leb_le in H2. lia.
Qed.

Lemma run_first_429 retries w out r :
  responds server rq (attempts w) r -> status r = 429 ->
  run server url rq delay what retries w out ->
  out = (Throw (rate_limited url), w ++ [Fetched rq (Answered 429)]).
Proof.
  intros Hr H429 Hrun.
  destruct Hrun as [retries w Hl | retries w e Hl Hs | retries w r' Hr' H429'
                   | retries w r' out Hr' H5 Hre Hrun
                   | retries w r' Hr' H429' Hex Hok | retries w r' Hr' Hok].
  - destruct Hr. lia.
  - destruct Hr. congruence.
  - reflexivity.
  - rewrite (responds_inj _ _ _ Hr' Hr) in H5. lia.
  - rewrite (responds_inj _ _ _ Hr' Hr) in H429'. contradiction.
  - rewrite (responds_inj _ _ _ Hr' Hr) in Hok. unfold ok in Hok.
    rewrite H429 in Hok. discriminate.
Qed.

Lemma run_first_timeout retries w out :
  10000 <= latency (server (attempts w) rq) ->
  run server url rq delay what retries w out ->
  out = (Throw (timeout_error url), w ++ [Fetched rq Aborted]).
Proof.
  intros Hl Hrun.
  destruct Hrun as [retries w Hl' | retries w e Hl' Hs | retries w r' [Hl' _] H429'
                   | retries w r' out [Hl' _] H5 Hre Hrun
                   | retries w r' [Hl' _] H429' Hex Hok | retries w r' [Hl' _] Hok];
    try lia.
  reflexivity.
Qed.

Lemma run_first_ok retries w out r :
  responds server rq (attempts w) r -> ok r = true ->
  run server url rq delay what retries w out ->
  out = (json r, w ++ [Fetched rq (Answered (status r))]).
Proof.
  intros Hr Hok Hrun.
  assert (Hst : 200 <= status r <= 299).
  { unfold ok in Hok. apply andb_prop in Hok as [H1 H2].
    apply Z.leb_le in H1, H2. lia. }
  destruct Hrun as [retries w Hl | retries w e Hl Hs | retries w r' Hr' H429'
                   | retries w r' out Hr' H5 Hre Hrun
                   | retries w r' Hr' H429' Hex Hok' | retries w r' Hr' Hok'].
  - destruct Hr. lia.
  - destruct Hr. congruence.
  - rewrite (responds_inj _ _ _ Hr' Hr) in H429'. lia.
  - rewrite (responds_inj _ _ _ Hr' Hr) in H5. lia.
  - rewrite (responds_inj _ _ _ Hr' Hr) in Hok'. congruence.
  - now rewrite (responds_inj _ _ _ Hr' Hr).
Qed.

End PolicyFacts.

Section ClientFacts.

Context {T : Type} (server : nat -> Request -> Reply T).
Context {Body : Type} (JSON_stringify : Body -> jsstring).

Lemma fetchJson_body url retries w :
  fetchJson T server url retries w
  = attempt_body server url (get_request url) fetchJson_delay
      (js "API request failed: ") (fetchJson T server url) retries w.
Proof.
  rewrite fetchJson_equation_1. unfold attempt_body.
  destruct (fetch T server 10000 (get_request url) w) as [[response|err] w1];
    [|reflexivity].
  destruct (status response =? 429); [reflexivity|].
  destruct (sumbool_of_bool ((500 <=? status response) && (0 <? retries))) as [e|e];
    rewrite e; reflexivity.
Qed.

Lemma postJson_body url body retries w :
  postJson T server Body JSON_stringify url body retries w
  = attempt_body server url (post_request Body JSON_stringify url body) postJson_delay
      (js "POST API request failed: ")
      (postJson T server Body JSON_stringify url body) retries w.
Proof.
  rewrite postJson_equation_1. unfold attempt_body.
  destruct (fetch T server 10000 (post_request Body JSON_stringify url body) w)
    as [[response|err] w1]; [|reflexivity].
  destruct (status response =? 429); [reflexivity|].
  destruct (sumbool_of_bool ((500 <=? status response) && (0 <? retries))) as [e|e];
    rewrite e; reflexivity.
Qed.

Lemma fetchJson_run url retries w :
  run server url (get_request url) fetchJson_delay (js "API request failed: ")
      retries w (fetchJson T server url retries w).
Proof. apply f_run. intros. apply fetchJson_body. Qed.

Lemma postJson_run url body retries w :
  run server url (post_request Body JSON_stringify url body) postJson_delay
      (js "POST API request failed: ")
      retries w (postJson T server Body JSON_stringify url body retries w).
Proof. apply f_run. intros. apply postJson_body. Qed.

Lemma answers_5xx_always url rq :
  req_url rq = url -> answers_5xx server url -> always_5xx server rq.
Proof. intros Hu H n. exact (H n rq Hu). Qed.

Lemma fetchJson_first_ok url retries w r :
  responds server (get_request url) (attempts w) r -> ok r = true ->
  fetchJson T server url retries w
  = (json r, w ++ [Fetched (get_request url) (Answered (status r))]).
Proof.
  intros Hr Hok. exact (run_first_ok _ _ _ _ _ _ _ _ _ Hr Hok (fetchJson_run url retries w)).
Qed.

End ClientFacts.

Lemma retry_delays_fetchJson k :
  (k <= 3)%nat -> retry_delays fetchJson_delay 3 k = firstn k [1000; 2000; 3000].
Proof.
  intros Hk. destruct k as [|[|[|[|k]]]]; try reflexivity. lia.
Qed.

Lemma retry_delays_postJson k :
  (k <= 3)%nat -> retry_delays postJson_delay 3 k = firstn k [1000; 2000; 4000].
Proof.
  intros Hk. destruct k as [|[|[|[|k]]]]; try reflexivity. lia.
Qed.

Lemma always_503_answers_5xx url : answers_5xx always_503 url.
Proof.
  intros n rq _. eexists. split; [split; reflexivity|]. simpl. lia.
Defined.

(** ** The retry budget *)

(** C1, as the code has it: when every response for the URL has a status of
    500 or more, [fetchJson(url, retries)] and [postJson(url, body, retries)]
    with [0 <= retries] make exactly [1 + retries] attempts and then fail with
    the [ApiError] that carries the URL and the status of the last response,
    the reply of the upstream to the attempt number [1 + retries] of the call,
    on which the trace ends; that is [min(1 + retries, 4)] attempts, and at
    most 4, whenever [retries <= 3], as with the default budget. *)
Theorem fetchJson_attempts_on_5xx :
  forall (T : Type) (server : nat -> Request -> Reply T)
         (Body : Type) (JSON_stringify : Body -> jsstring)
         (url : jsstring) (body : Body) (retries : Z) (w : World),
    0 <= retries ->
    answers_5xx server url ->
    let g := fetchJson T server url retries w in
    let p := postJson T server Body JSON_stringify url body retries w in
    let last := (attempts w + Z.to_nat retries)%nat in
    (exists r : Response T,
       responds server (get_request url) last r
       /\ 500 <= status r
       /\ fst g = Throw (ApiError (js "API request failed: " ++ String_number (status r)
                                    ++ js " " ++ statusText r)
                                 (Some (status r)) (Some url))
       /\ exists pre, snd g = w ++ pre ++ [Fetched (get_request url) (Answered (status r))])
    /\ attempts_made w (snd g) = 1 + retries
    /\ (exists r : Response T,
       responds server (post_request Body JSON_stringify url body) last r
       /\ 500 <= status r
       /\ fst p = Throw (ApiError (js "POST API request failed: " ++ String_number (status r)
                                    ++ js " " ++ statusText r)
                                 (Some (status r)) (Some url))
       /\ exists pre, snd p = w ++ pre ++ [Fetched (post_request Body JSON_stringify url body)
                                             (Answered (status r))])
    /\ attempts_made w (snd p) = 1 + retries
    /\ (retries <= 3 -> attempts_made w (snd g) = Z.min (1 + retries) 4
                        /\ attempts_made w (snd g) <= 4).
Proof.
  intros T server Body JSON_stringify url body retries w Hre H5 g p last.
  pose proof (answers_5xx_always server url (get_request url) eq_refl H5) as Ag.
  pose proof (answers_5xx_always server url (post_request Body JSON_stringify url body)
                eq_refl H5) as Ap.
  pose proof (fetchJson_run server url retries w) as Rg.
  pose proof (postJson_run server JSON_stringify url body retries w) as Rp.
  destruct (run_always_5xx _ _ _ _ _ _ _ _ Ag Rg) as (_ & _ & _ & Hn).
  destruct (run_always_5xx _ _ _ _ _ _ _ _ Ap Rp) as (_ & _ & _ & Hn').
  destruct (run_always_5xx_last _ _ _ _ _ _ _ _ Ag Rg) as (r & Hr & H50 & Hres & Hpre).
  destruct (run_always_5xx_last _ _ _ _ _ _ _ _ Ap Rp) as (r' & Hr' & H50' & Hres' & Hpre').
  assert (Hg : attempts_made w (snd g) = 1 + retries)
    by (unfold attempts_made, g; lia).
  assert (Hp : attempts_made w (snd p) = 1 + retries)
    by (unfold attempts_made, p; lia).
  split; [exists r; split; [exact Hr|]; split; [exact H50|]; split; [exact Hres | exact Hpre]|].
  split; [exact Hg|].
  split; [exists r'; split; [exact Hr'|]; split; [exact H50'|];
          split; [exact Hres' | exact Hpre']|].
  split; [exact Hp|].
  intros H3. rewrite Hg. lia.
Qed.

Lemma fetchJson_attempts_on_5xx_witness :
  let url := js "https://example.com/jobs" in
  fst (fetchJson unit always_503 url 2 [])
  = Throw (ApiError (js "API request failed: 503 Service Unavailable") (Some 503) (Some url))
  /\ attempts_made [] (snd (fetchJson unit always_503 url 2 [])) = 1 + 2
  /\ attempts_made [] (snd (postJson unit always_503 unit (fun _ => js "{}") url tt 2 [])) = 1 + 2.
Proof.
  intros url.
  destruct (fetchJson_attempts_on_5xx unit always_503 unit (fun _ => js "{}") url tt 2 []
              ltac:(lia) (always_503_answers_5xx url))
    as ((r & [_ Hr] & _ & Hres & _) & Hg & _ & Hp & _).
  cbn in Hr. injection Hr as <-.
  split; [exact Hres|]. split; [exact Hg | exact Hp].
Defined.

(** C1 as stated fails: with a budget of 4 the call makes 5 attempts, not
    [min(1 + 4, 4) = 4]. *)
Lemma fetchJson_attempts_exceed_four :
  let url := js "https://example.com/jobs" in
  let out := fetchJson unit always_503 url 4 [] in
  answers_5xx always_503 url
  /\ attempts (snd out) = 5%nat
  /\ attempts_made [] (snd out) <> Z.min (1 + 4) 4
  /\ ~ attempts_made [] (snd out) <= 4.
Proof.
  intros url out. split; [apply always_503_answers_5xx|].
  split; [vm_compute; reflexivity|].
  assert (E : attempts_made [] (snd out) = 5) by (vm_compute; reflexivity).
  rewrite E. split; lia.
Qed.

(** ** Back-off *)

(** C2: with the default budget of 3 the waits between the attempts of
    [fetchJson] are 1000, 2000, 3000 ms, as many as there are retries, and
    those of [postJson] are 1000, 2000, 4000 ms; all three occur when every
    response has a status of 500 or more.  After [i] retries, which leave a
    budget of [3 - i], the next retry of [fetchJson] waits [(i + 1) * 1000]
    ms, the number of the failed attempt times 1000, and that of [postJson]
    waits [2^i * 1000] ms. *)
Theorem retry_backoff_delays :
  forall (T : Type) (server : nat -> Request -> Reply T)
         (Body : Type) (JSON_stringify : Body -> jsstring)
         (url : jsstring) (body : Body) (w : World),
    let g := snd (fetchJson T server url 3 w) in
    let p := snd (postJson T server Body JSON_stringify url body 3 w) in
    delays g = delays w ++ firstn (attempts g - attempts w - 1) [1000; 2000; 3000]
    /\ delays p = delays w ++ firstn (attempts p - attempts w - 1) [1000; 2000; 4000]
    /\ (answers_5xx server url ->
        delays g = delays w ++ [1000; 2000; 3000]
        /\ delays p = delays w ++ [1000; 2000; 4000])
    /\ (forall i, 0 <= i <= 2 ->
        fetchJson_delay (3 - i) = (i + 1) * 1000
        /\ postJson_delay (3 - i) = 2 ^ i * 1000).
Proof.
  intros T server Body JSON_stringify url body w g p.
  pose proof (fetchJson_run server url 3 w) as Rg.
  pose proof (postJson_run server JSON_stringify url body 3 w) as Rp.
  pose proof (run_delays _ _ _ _ _ _ _ _ Rg) as Dg.
  pose proof (run_delays _ _ _ _ _ _ _ _ Rp) as Dp.
  pose proof (run_attempts_bound _ _ _ _ _ _ _ _ Rg) as [Lg Bg].
  pose proof (run_attempts_bound _ _ _ _ _ _ _ _ Rp) as [Lp Bp].
  fold g in Dg, Lg, Bg. fold p in Dp, Lp, Bp.
  rewrite retry_delays_fetchJson in Dg by lia.
  rewrite retry_delays_postJson in Dp by lia.
  split; [exact Dg|]. split; [exact Dp|]. split.
  - intros H5.
    destruct (run_always_5xx _ _ _ _ _ _ _ _
                (answers_5xx_always server url (get_request url) eq_refl H5) Rg)
      as (_ & _ & _ & Ng).
    destruct (run_always_5xx _ _ _ _ _ _ _ _
                (answers_5xx_always server url (post_request Body JSON_stringify url body)
                   eq_refl H5) Rp)
      as (_ & _ & _ & Np).
    fold g in Ng. fold p in Np.
    replace (attempts g - attempts w - 1)%nat with 3%nat in Dg by lia.
    replace (attempts p - attempts w - 1)%nat with 3%nat in Dp by lia.
    split; assumption.
  - intros i Hi. unfold fetchJson_delay, postJson_delay, Math_pow2_times.
    replace (3 - (3 - i)) with i by lia.
    destruct (Z.leb_spec 0 i); [|lia]. split; [lia | reflexivity].
Qed.

Lemma retry_backoff_delays_witness :
  let url := js "https://example.com/jobs" in
  delays (snd (fetchJson unit always_503 url 3 [])) = [1000; 2000; 3000]
  /\ delays (snd (postJson unit always_503 unit (fun _ => js "{}") url tt 3 []))
     = [1000; 2000; 4000].
Proof.
  intros url.
  destruct (retry_backoff_delays unit always_503 unit (fun _ => js "{}") url tt [])
    as (_ & _ & H & _).
  exact (H (always_503_answers_5xx url)).
Defined.

(** The scenario of the specification: two responses with status 500, then
    a 200 whose body is [true]. *)
Example retry_then_success :
  let out := fetchJson bool fails_twice (js "https://example.com/jobs") 3 [] in
  fst out = Ok true /\ attempts (snd out) = 3%nat /\ delays (snd out) = [1000; 2000].
Proof. repeat split; vm_compute; reflexivity. Qed.

(** ** Rate limiting *)

(** C3: when the first response to a call has status 429, [fetchJson] and
    [postJson] fail at once with the [ApiError] that carries 429 and the URL,
    after that one attempt, whatever the budget. *)
Theorem rate_limited_not_retried :
  forall (T : Type) (server : nat -> Request -> Reply T)
         (Body : Type) (JSON_stringify : Body -> jsstring)
         (url : jsstring) (body : Body) (retries : Z) (w : World),
    (forall rq, req_url rq = url ->
       exists r, responds server rq (attempts w) r /\ status r = 429) ->
    let g := fetchJson T server url retries w in
    let p := postJson T server Body JSON_stringify url body retries w in
    fst g = Throw (rate_limited url)
    /\ snd g = w ++ [Fetched (get_request url) (Answered 429)]
    /\ attempts_made w (snd g) = 1
    /\ fst p = Throw (rate_limited url)
    /\ snd p = w ++ [Fetched (post_request Body JSON_stringify url body) (Answered 429)]
    /\ attempts_made w (snd p) = 1
    /\ err_statusCode (rate_limited url) = Some 429
    /\ err_endpoint (rate_limited url) = Some url.
Proof.
  intros T server Body JSON_stringify url body retries w H g p.
  destruct (H (get_request url) eq_refl) as (r & Hr & H429).
  destruct (H (post_request Body JSON_stringify url body) eq_refl) as (r' & Hr' & H429').
  pose proof (run_first_429 _ _ _ _ _ _ _ _ _ Hr H429 (fetchJson_run server url retries w))
    as Eg.
  pose proof (run_first_429 _ _ _ _ _ _ _ _ _ Hr' H429'
                (postJson_run server JSON_stringify url body retries w)) as Ep.
  fold g in Eg. fold p in Ep. rewrite Eg, Ep. cbn [fst snd].
  unfold attempts_made. rewrite !attempts_snoc_fetch.
  repeat split; try reflexivity; lia.
Qed.

Lemma rate_limited_not_retried_witness :
  let url := js "https://example.com/jobs" in
  fst (fetchJson unit always_429 url 3 []) = Throw (rate_limited url)
  /\ attempts_made [] (snd (fetchJson unit always_429 url 3 [])) = 1.
Proof.
  intros url.
  destruct (rate_limited_not_retried unit always_429 unit (fun _ => js "{}") url tt 3 [])
    as (H1 & _ & H2 & _).
  - intros rq _. eexists. split; [split; reflexivity | reflexivity].
  - split; [exact H1 | exact H2].
Defined.

(** ** Timeouts *)

(** C4, as the code has it: every attempt of [fetchJson] and [postJson]
    arms a 10 s timer that bounds the wait for the response, not the reading
    of its body.  The trace of a call is a series of retried attempts, each
    answered in time with a status of 500 or more, and one last attempt; an
    attempt is recorded as aborted exactly when the upstream needs 10000 ms
    or more to respond.  An aborted attempt is the last one of its call,
    whatever budget is left, and the call then fails with
    [ApiError("Timeout after 10s for " + url, 0, url)].  A response that
    arrives in time with a status in 200..299 settles the call with what its
    [json()] settles to, however long the body takes. *)
Theorem timeout_not_retried :
  forall (T : Type) (server : nat -> Request -> Reply T)
         (Body : Type) (JSON_stringify : Body -> jsstring)
         (url : jsstring) (body : Body) (retries : Z) (w : World),
    let timeout := ApiError (js "Timeout after 10s for " ++ url) (Some 0) (Some url) in
    let terminal (rq : Request) (out : JsResult T * World) :=
      exists pre a,
        snd out = w ++ pre ++ [Fetched rq a]
        /\ Forall is_retry_event pre
        /\ faithful server (attempts w) (pre ++ [Fetched rq a])
        /\ (a = Aborted -> fst out = Throw timeout) in
    let unbounded_body (rq : Request) (out : JsResult T * World) :=
      forall st text time result,
        responds server rq (attempts w) (mkResponse st text time result) ->
        200 <= st <= 299 ->
        out = (result, w ++ [Fetched rq (Answered st)]) in
    terminal (get_request url) (fetchJson T server url retries w)
    /\ terminal (post_request Body JSON_stringify url body)
                (postJson T server Body JSON_stringify url body retries w)
    /\ (forall reply : Reply T, classify reply = Aborted <-> 10000 <= latency reply)
    /\ (10000 <= latency (server (attempts w) (get_request url)) ->
        fetchJson T server url retries w
        = (Throw timeout, w ++ [Fetched (get_request url) Aborted]))
    /\ (10000 <= latency (server (attempts w) (post_request Body JSON_stringify url body)) ->
        postJson T server Body JSON_stringify url body retries w
        = (Throw timeout,
           w ++ [Fetched (post_request Body JSON_stringify url body) Aborted]))
    /\ unbounded_body (get_request url) (fetchJson T server url retries w)
    /\ unbounded_body (post_request Body JSON_stringify url body)
                      (postJson T server Body JSON_stringify url body retries w).
Proof.
  intros T server Body JSON_stringify url body retries w timeout terminal unbounded_body.
  pose proof (fetchJson_run server url retries w) as Rg.
  pose proof (postJson_run server JSON_stringify url body retries w) as Rp.
  assert (Hok : forall st text time (result : JsResult T),
             200 <= st <= 299 -> ok (mkResponse st text time result) = true).
  { intros st text time result Hst. unfold ok. cbn [status].
    apply andb_true_intro. split; apply Z.leb_le; lia. }
  split; [|split; [|split; [|split; [|split; [|split]]]]].
  - destruct (run_shape _ _ _ _ _ _ _ _ Rg) as (pre & a & Hw & Hpre & Ha & Hf).
    exists pre, a. repeat split; try assumption.
    intros ->. exact Ha.
  - destruct (run_shape _ _ _ _ _ _ _ _ Rp) as (pre & a & Hw & Hpre & Ha & Hf).
    exists pre, a. repeat split; try assumption.
    intros ->. exact Ha.
  - intros reply. unfold classify.
    destruct (Z.leb_spec 10000 (latency reply)) as [Hl|Hl].
    + tauto.
    + split; [|lia]. destruct (settlement reply); discriminate.
  - intros Hl. exact (run_first_timeout _ _ _ _ _ _ _ _ Hl Rg).
  - intros Hl. exact (run_first_timeout _ _ _ _ _ _ _ _ Hl Rp).
  - intros st text time result Hr Hst.
    exact (run_first_ok _ _ _ _ _ _ _ _ _ Hr (Hok st text time result Hst) Rg).
  - intros st text time result Hr Hst.
    exact (run_first_ok _ _ _ _ _ _ _ _ _ Hr (Hok st text time result Hst) Rp).
Qed.

Lemma timeout_not_retried_witness :
  let url := js "https://example.com/jobs" in
  fetchJson unit never_in_time url 3 []
  = (Throw (ApiError (js "Timeout after 10s for https://example.com/jobs") (Some 0) (Some url)),
     [Fetched (get_request url) Aborted])
  /\ fetchJson unit slow_body url 3 []
     = (Ok tt, [Fetched (get_request url) (Answered 200)]).
Proof.
  intros url.
  destruct (timeout_not_retried unit never_in_time unit (fun _ => js "{}") url tt 3 [])
    as (_ & _ & _ & H & _).
  destruct (timeout_not_retried unit slow_body unit (fun _ => js "{}") url tt 3 [])
    as (_ & _ & _ & _ & _ & Hbody & _).
  split.
  - exact (H ltac:(simpl; lia)).
  - apply (Hbody 200 (js "OK") 10000 (Ok tt)); [split; reflexivity | lia].
Defined.

(** C4 as stated fails: an attempt is not bounded by the 10 s of its timer.
    When the response arrives after 600 ms and its body takes 10 s more, the
    attempt lasts 10.6 s, is not aborted, and the call returns the body
    instead of failing with the timeout error. *)
Lemma slow_body_not_cancelled :
  let url := js "https://example.com/jobs" in
  let reply := slow_body O (get_request url) in
  latency reply = 600
  /\ settled_after reply = 10600
  /\ 10000 <= settled_after reply
  /\ fetchJson unit slow_body url 3 []
     = (Ok tt, [Fetched (get_request url) (Answered 200)])
  /\ fst (fetchJson unit slow_body url 3 [])
     <> Throw (ApiError (js "Timeout after 10s for " ++ url) (Some 0) (Some url)).
Proof.
  intros url reply.
  split; [reflexivity|]. split; [reflexivity|]. split; [vm_compute; discriminate|].
  assert (E : fetchJson unit slow_body url 3 []
              = (Ok tt, [Fetched (get_request url) (Answered 200)])).
  { apply (fetchJson_first_ok slow_body url 3 []
             (mkResponse 200 (js "OK") 10000 (Ok tt))); [split; reflexivity | reflexivity]. }
  split; [exact E|]. rewrite E. discriminate.
Qed.

(** C8: the last attempt of a call decides its result, and it is recorded
    as aborted exactly when the timer fired.  A call that ends on an aborted
    attempt throws the [ApiError] with [statusCode] 0 and the requested URL as
    [endpoint], while a call that ends on a response whose status [st] is
    outside 200..299 throws an [ApiError] with [statusCode] [st]: no HTTP
    status being 0, the [statusCode] alone tells a timeout from a status
    failure. *)
Theorem timeout_error_statusCode_zero :
  forall (T : Type) (server : nat -> Request -> Reply T)
         (Body : Type) (JSON_stringify : Body -> jsstring)
         (url : jsstring) (body : Body) (retries : Z) (w : World),
    let tagged (rq : Request) (out : JsResult T * World) :=
      exists pre a,
        snd out = w ++ pre ++ [Fetched rq a]
        /\ faithful server (attempts w) (pre ++ [Fetched rq a])
        /\ (a = Aborted ->
            fst out = Throw (ApiError (js "Timeout after 10s for " ++ url)
                                      (Some 0) (Some url)))
        /\ (forall st, a = Answered st -> ~ 200 <= st <= 299 ->
            exists msg, fst out = Throw (ApiError msg (Some st) (Some url))) in
    tagged (get_request url) (fetchJson T server url retries w)
    /\ tagged (post_request Body JSON_stringify url body)
              (postJson T server Body JSON_stringify url body retries w).
Proof.
  intros T server Body JSON_stringify url body retries w tagged.
  split.
  - destruct (run_shape _ _ _ _ _ _ _ _ (fetchJson_run server url retries w))
      as (pre & a & Hw & _ & Ha & Hf).
    exists pre, a. split; [exact Hw|]. split; [exact Hf|]. split.
    + intros ->. exact Ha.
    + intros st -> Hst. destruct Ha as [Ha|Ha]; [contradiction | exact Ha].
  - destruct (run_shape _ _ _ _ _ _ _ _
                (postJson_run server JSON_stringify url body retries w))
      as (pre & a & Hw & _ & Ha & Hf).
    exists pre, a. split; [exact Hw|]. split; [exact Hf|]. split.
    + intros ->. exact Ha.
    + intros st -> Hst. destruct Ha as [Ha|Ha]; [contradiction | exact Ha].
Qed.

Lemma timeout_error_statusCode_zero_witness :
  let url := js "https://example.com/jobs" in
  exists e,
    fst (fetchJson unit never_in_time url 3 []) = Throw e
    /\ err_statusCode e = Some 0
    /\ err_endpoint e = Some url.
Proof.
  intros url.
  destruct (timeout_error_statusCode_zero unit never_in_time unit (fun _ => js "{}")
              url tt 3 []) as ((pre & a & Hw & _ & Ha & _) & _).
  assert (Hlast : snd (fetchJson unit never_in_time url 3 [])
                  = [] ++ [Fetched (get_request url) Aborted])
    by (vm_compute; reflexivity).
  rewrite Hlast in Hw. cbn [app] in Hw.
  apply (app_inj_tail [] pre) in Hw as [_ Hw]. injection Hw as <-.
  eexists. split; [exact (Ha eq_refl)|]. split; reflexivity.
Defined.

(** ** URL construction *)

Lemma synced_update u l : synced (searchParams_update u l).
Proof. reflexivity. Qed.

Lemma append_fold key vs u :
  let u' := fold_left (fun u v => searchParams_append key v u) vs u in
  searchParams u' = searchParams u ++ map (pair key) vs
  /\ url_base u' = url_base u /\ url_fragment u' = url_fragment u
  /\ (vs <> [] \/ synced u -> synced u').
Proof.
  revert u. induction vs as [|v vs IH]; intros u.
  - simpl. rewrite List.app_nil_r. repeat split; auto. intros [H|H]; [congruence | exact H].
  - destruct (IH (searchParams_append key v u)) as (Hl & Hb & Hf & Hs).
    cbn [fold_left map]. cbv zeta in Hl, Hb, Hf, Hs |- *.
    rewrite Hl, Hb, Hf. cbn [searchParams_append searchParams_update searchParams
                              url_base url_fragment].
    rewrite <- List.app_assoc. repeat split; auto.
    intros _. apply Hs. right. apply synced_update.
Qed.

Lemma buildUrl_step_list u entry :
  searchParams (buildUrl_step u entry) = step_list (searchParams u) entry
  /\ url_base (buildUrl_step u entry) = url_base u
  /\ url_fragment (buildUrl_step u entry) = url_fragment u.
Proof.
  destruct entry as [key value]. unfold step_list. simpl.
  destruct value; simpl; auto.
  destruct (append_fold key vs u) as (Hl & Hb & Hf & _). auto.
Qed.

Lemma buildUrl_step_synced u entry :
  (writes entry = false -> buildUrl_step u entry = u)
  /\ (writes entry = true \/ synced u -> synced (buildUrl_step u entry)).
Proof.
  destruct entry as [key value]. unfold writes. simpl.
  destruct value as [|s|n|b|vs]; simpl;
    try (split; [discriminate | intros _; apply synced_update]).
  - split; [reflexivity | intros [H|H]; [discriminate | exact H]].
  - destruct (append_fold key vs u) as (_ & _ & _ & Hs).
    destruct vs as [|v vs].
    + split; [reflexivity | intros [H|H]; [discriminate | exact H]].
    + split; [discriminate | intros _; apply Hs; left; discriminate].
Qed.

(** The loop of [buildUrl] on the URL object, in terms of its list. *)
Lemma buildUrl_fold params u :
  let u' := fold_left buildUrl_step params u in
  searchParams u' = fold_left step_list params (searchParams u)
  /\ url_base u' = url_base u /\ url_fragment u' = url_fragment u
  /\ (existsb writes params = false -> u' = u)
  /\ (existsb writes params = true \/ synced u -> synced u').
Proof.
  revert u. induction params as [|entry params IH]; intros u; simpl.
  - repeat split; auto. intros [H|H]; [discriminate | exact H].
  - destruct (IH (buildUrl_step u entry)) as (Hl & Hb & Hf & Hn & Hs).
    destruct (buildUrl_step_list u entry) as (Hl1 & Hb1 & Hf1).
    destruct (buildUrl_step_synced u entry) as (Hn1 & Hs1).
    simpl in *. rewrite Hl, Hb, Hf, Hl1, Hb1, Hf1.
    repeat split; auto.
    + intros H. apply orb_false_iff in H as [H1 H2].
      rewrite (Hn1 H1). rewrite (Hn1 H1) in Hn. now apply Hn.
    + intros H. apply Hs. destruct (writes entry) eqn:Hw.
      * right. apply Hs1. now left.
      * simpl in H. destruct H as [H|H]; [now left|].
        right. apply Hs1. now right.
Qed.

Lemma entries_of_app k l l' : entries_of k (l ++ l') = entries_of k l ++ entries_of k l'.
Proof. apply filter_app. Qed.

Lemma entries_of_pairs k key vs :
  entries_of k (map (pair key) vs) = if jsstring_eqb key k then map (pair key) vs else [].
Proof.
  induction vs as [|v vs IH]; simpl.
  - now destruct (jsstring_eqb key k).
  - unfold entries_of in *. simpl. rewrite IH. now destruct (jsstring_eqb key k).
Qed.

Lemma entries_of_removed name l :
  entries_of name (filter (fun p => negb (jsstring_eqb (fst p) name)) l) = [].
Proof.
  unfold entries_of. induction l as [|[k v] l IH]; simpl; [reflexivity|].
  destruct (jsstring_eqb k name) eqn:E; simpl; [assumption|].
  now rewrite E.
Qed.

Lemma entries_of_kept k name l :
  k <> name ->
  entries_of k (filter (fun p => negb (jsstring_eqb (fst p) name)) l) = entries_of k l.
Proof.
  intros Hk. unfold entries_of. induction l as [|[k0 v0] l IH]; simpl; [reflexivity|].
  destruct (jsstring_eqb_spec k0 name) as [->|Hk0]; simpl.
  - destruct (jsstring_eqb_spec name k); [congruence | assumption].
  - now rewrite IH.
Qed.

(** [set] leaves exactly one pair of the name. *)
Lemma entries_of_set_first_same name value l :
  entries_of name (set_first name value l) = [(name, value)].
Proof.
  induction l as [|[k v] l IH]; simpl.
  - unfold entries_of. simpl. now rewrite jsstring_eqb_refl.
  - destruct (jsstring_eqb_spec k name) as [->|Hk].
    + change (entries_of name ((name, value) :: ?l))
        with (if jsstring_eqb name name then (name, value) :: entries_of name l
              else entries_of name l).
      now rewrite jsstring_eqb_refl, entries_of_removed.
    + change (entries_of name ((k, v) :: ?l))
        with (if jsstring_eqb k name then (k, v) :: entries_of name l
              else entries_of name l).
      destruct (jsstring_eqb_spec k name); [contradiction | assumption].
Qed.

(** [set] does not touch the pairs of other names. *)
Lemma entries_of_set_first_other k name value l :
  k <> name -> entries_of k (set_first name value l) = entries_of k l.
Proof.
  intros Hk. induction l as [|[k0 v0] l IH]; simpl.
  - unfold entries_of. simpl.
    destruct (jsstring_eqb_spec name k); [congruence | reflexivity].
  - destruct (jsstring_eqb_spec k0 name) as [->|Hk0].
    + unfold entries_of at 1 2. simpl.
      destruct (jsstring_eqb_spec name k); [congruence|].
      now apply entries_of_kept.
    + unfold entries_of in *. simpl. destruct (jsstring_eqb k0 k); now rewrite IH.
Qed.

Lemma entries_of_step_same l key value :
  entries_of key (step_list l (key, value)) = effect key value (entries_of key l).
Proof.
  unfold step_list, effect. simpl.
  destruct value; try apply entries_of_set_first_same; [reflexivity|].
  rewrite entries_of_app, entries_of_pairs, jsstring_eqb_refl. reflexivity.
Qed.

Lemma entries_of_step_other k l key value :
  k <> key -> entries_of k (step_list l (key, value)) = entries_of k l.
Proof.
  intros Hk. unfold step_list. simpl.
  destruct value; try (now apply entries_of_set_first_other); [reflexivity|].
  rewrite entries_of_app, entries_of_pairs.
  destruct (jsstring_eqb_spec key k); [congruence | apply List.app_nil_r].
Qed.

Lemma fold_entries_absent k params l :
  ~ In k (map fst params) ->
  entries_of k (fold_left step_list params l) = entries_of k l.
Proof.
  revert l. induction params as [|[key value] params IH]; intros l Hk; simpl in *.
  - reflexivity.
  - rewrite IH by tauto. apply entries_of_step_other. intros ->. tauto.
Qed.

Lemma fold_entries_present key value params l :
  NoDup (map fst params) -> In (key, value) params ->
  entries_of key (fold_left step_list params l) = effect key value (entries_of key l).
Proof.
  revert l. induction params as [|[k0 v0] params IH]; intros l Hnd Hin; simpl in *.
  - contradiction.
  - inversion Hnd as [|? ? Hnotin Hnd']; subst.
    destruct Hin as [Heq|Hin].
    + injection Heq as -> ->.
      rewrite fold_entries_absent by assumption. apply entries_of_step_same.
    + rewrite IH by assumption. f_equal. apply entries_of_step_other.
      intros ->. apply Hnotin. apply (in_map fst) in Hin. exact Hin.
Qed.

Lemma set_first_fresh name value l :
  ~ In name (map fst l) -> set_first name value l = l ++ [(name, value)].
Proof.
  induction l as [|[k v] l IH]; intros Hn; simpl in *; [reflexivity|].
  destruct (jsstring_eqb_spec k name) as [->|Hk]; [tauto|].
  now rewrite IH by tauto.
Qed.

Lemma step_list_fresh l key value :
  ~ In key (map fst l) -> step_list l (key, value) = l ++ param_pairs (key, value).
Proof.
  intros Hk. unfold step_list, param_pairs, effect. simpl.
  destruct value; try (now apply set_first_fresh); [now rewrite List.app_nil_r|reflexivity].
Qed.

Lemma param_pairs_keys entry p : In p (param_pairs entry) -> fst p = fst entry.
Proof.
  destruct entry as [key value]. unfold param_pairs, effect. simpl.
  destruct value; simpl; try (intros [<-|[]]; reflexivity); [contradiction|].
  rewrite in_map_iff. intros (v & <- & _). reflexivity.
Qed.

(** On a list that has none of the keys the loop appends the pairs of the
    parameters, in their order. *)
Lemma fold_fresh params l :
  NoDup (map fst params) ->
  (forall k, In k (map fst params) -> ~ In k (map fst l)) ->
  fold_left step_list params l = l ++ flat_map param_pairs params.
Proof.
  revert l. induction params as [|[key value] params IH]; intros l Hnd Hfresh; simpl.
  - now rewrite List.app_nil_r.
  - inversion Hnd as [|? ? Hnotin Hnd']; subst.
    rewrite step_list_fresh by (apply Hfresh; now left).
    rewrite IH; [now rewrite <- List.app_assoc | assumption |].
    intros k Hk. rewrite map_app, in_app_iff. intros [H|H].
    + apply (Hfresh k); [now right | assumption].
    + apply in_map_iff in H as (p & Hp & Hin).
      apply param_pairs_keys in Hin. simpl in Hin. congruence.
Qed.

Lemma set_first_nonempty name value l : set_first name value l <> [].
Proof.
  destruct l as [|[k v] l]; simpl; [discriminate|].
  destruct (jsstring_eqb k name); discriminate.
Qed.

Lemma step_list_keeps l entry : l <> [] -> step_list l entry <> [].
Proof.
  intros Hl. destruct entry as [key value]. unfold step_list. simpl.
  destruct value; try apply set_first_nonempty; [assumption|].
  intros H. apply app_eq_nil in H as [H _]. contradiction.
Qed.

Lemma step_list_writes l entry : writes entry = true -> step_list l entry <> [].
Proof.
  destruct entry as [key value]. unfold step_list, writes. simpl.
  destruct value as [|s|n|b|vs]; try discriminate; try (intros _; apply set_first_nonempty).
  destruct vs; [discriminate|]. intros _ H. apply app_eq_nil in H as [_ H]. discriminate.
Qed.

Lemma fold_keeps params l : l <> [] -> fold_left step_list params l <> [].
Proof.
  revert l. induction params as [|entry params IH]; intros l Hl; simpl; [exact Hl|].
  apply IH. now apply step_list_keeps.
Qed.

Lemma fold_writes params l :
  existsb writes params = true -> fold_left step_list params l <> [].
Proof.
  revert l. induction params as [|entry params IH]; intros l Hw; simpl in *; [discriminate|].
  destruct (writes entry) eqn:E.
  - apply fold_keeps. now apply step_list_writes.
  - now apply IH.
Qed.

Lemma serialize_nonempty l : l <> [] -> urlencoded_serialize l <> [].
Proof.
  destruct l as [|p l]; [congruence|]. intros _. unfold urlencoded_serialize. simpl.
  destruct (map _ l); intros H; apply app_eq_nil in H as [_ H]; discriminate.
Qed.

(** What [buildUrl] returns when the parser accepts the string. *)
Lemma buildUrl_accepted new_URL base path params u :
  new_URL (base ++ path) = Some u ->
  NoDup (map fst params) ->
  exists u',
    buildUrl new_URL base path params = Ok (URL_toString u')
    /\ url_base u' = url_base u
    /\ url_fragment u' = url_fragment u
    /\ (forall key value, In (key, value) params ->
        entries_of key (searchParams u')
        = effect key value (entries_of key (searchParams u)))
    /\ (forall k, ~ In k (map fst params) ->
        entries_of k (searchParams u') = entries_of k (searchParams u))
    /\ (searchParams u = [] -> searchParams u' = flat_map param_pairs params)
    /\ (existsb writes params = true ->
        url_query u' = Some (urlencoded_serialize (searchParams u')))
    /\ (existsb writes params = false -> u' = u).
Proof.
  intros Hparse Hnd.
  exists (fold_left buildUrl_step params u).
  destruct (buildUrl_fold params u) as (Hl & Hb & Hf & Hn & Hs).
  cbv zeta in Hl, Hb, Hf, Hn, Hs.
  split; [unfold buildUrl; now rewrite Hparse|].
  split; [exact Hb|]. split; [exact Hf|].
  split; [intros key value Hin; rewrite Hl; now apply fold_entries_present|].
  split; [intros k Hk; rewrite Hl; now apply fold_entries_absent|].
  split; [|split; [|exact Hn]].
  - intros Hempty. rewrite Hl, Hempty.
    rewrite fold_fresh; [reflexivity | assumption | intros k _ []].
  - intros Hw. specialize (Hs (or_introl Hw)). unfold synced in Hs.
    rewrite Hs.
    destruct (urlencoded_serialize (searchParams (fold_left buildUrl_step params u)))
      eqn:E; [|reflexivity].
    exfalso. revert E. apply serialize_nonempty.
    rewrite Hl. now apply fold_writes.
Qed.

(** C5: when [new URL(base + path)] accepts the string, [buildUrl] returns
    one URL, the serialisation of the parsed one with its path and fragment
    unchanged and its query rewritten: a parameter whose value is
    [undefined] leaves the pairs of its name as they were, a scalar leaves
    exactly one pair of its name, an array appends one pair per element, and
    names that are no parameter are not touched.  On a URL without query the
    pairs are those of the parameters in their order.  The query is the
    [application/x-www-form-urlencoded] serialisation of the pairs as soon as
    one parameter writes; otherwise the URL is returned as parsed. *)
Theorem buildUrl_query :
  forall (new_URL : jsstring -> option URL) (base path : jsstring)
         (params : Params) (u : URL),
    new_URL (base ++ path) = Some u ->
    NoDup (map fst params) ->
    exists u',
      buildUrl new_URL base path params = Ok (URL_toString u')
      /\ url_base u' = url_base u
      /\ url_fragment u' = url_fragment u
      /\ (forall key value, In (key, value) params ->
          entries_of key (searchParams u')
          = match value with
            | PUndefined => entries_of key (searchParams u)
            | PArray vs => entries_of key (searchParams u) ++ map (pair key) vs
            | _ => [(key, String_value value)]
            end)
      /\ (forall k, ~ In k (map fst params) ->
          entries_of k (searchParams u') = entries_of k (searchParams u))
      /\ (searchParams u = [] -> searchParams u' = flat_map param_pairs params)
      /\ (existsb writes params = true ->
          url_query u' = Some (urlencoded_serialize (searchParams u')))
      /\ (existsb writes params = false -> u' = u).
Proof.
  intros new_URL base path params u Hparse Hnd.
  exact (buildUrl_accepted new_URL base path params u Hparse Hnd).
Qed.

Lemma buildUrl_query_witness :
  exists result,
    buildUrl reference_new_URL (js "https://example.com") (js "/search") example_params
    = Ok result
    /\ result = js "https://example.com/search?q=nurse&limit=10&tags=a&tags=b"
    /\ includes (js "q=nurse&limit=10&tags=a&tags=b") result = true
    /\ includes (js "missing") result = false.
Proof.
  destruct (buildUrl_query reference_new_URL (js "https://example.com") (js "/search")
              example_params
              (mkURL (js "https://example.com/search") None None []))
    as (u' & Hb & Hbase & Hfrag & _ & _ & Hflat & Hq & _).
  - vm_compute. reflexivity.
  - repeat constructor; simpl; intuition discriminate.
  - exists (URL_toString u'). split; [exact Hb|].
    assert (E : URL_toString u'
                = js "https://example.com/search?q=nurse&limit=10&tags=a&tags=b").
    { unfold URL_toString. rewrite Hbase, Hfrag, (Hq eq_refl), (Hflat eq_refl).
      vm_compute. reflexivity. }
    rewrite E. repeat split; vm_compute; reflexivity.
Defined.

(** C9: [buildUrl] returns the parsed URL with its path and fragment and
    with the query that serialises its pairs (the URL as parsed when no
    parameter writes).  On a URL that does not carry the key yet, a parameter
    leaves no pair of its key exactly when its value is [undefined] or an
    empty array; among the values that are no array only [undefined] is
    omitted.  The empty string, the number 0 and [false] give the one pair
    [key=], [key=0] and [key=false], and an array one pair per element.  For
    a single parameter on a URL without query the returned string is spelled
    out: nothing is added for [undefined] and for the empty array, and
    [?key=value], both encoded, for a scalar. *)
Theorem buildUrl_omits_only_undefined :
  forall (new_URL : jsstring -> option URL) (base path : jsstring)
         (params : Params) (u : URL),
    new_URL (base ++ path) = Some u ->
    NoDup (map fst params) ->
    exists u',
      buildUrl new_URL base path params = Ok (URL_toString u')
      /\ url_base u' = url_base u
      /\ url_fragment u' = url_fragment u
      /\ (existsb writes params = true ->
          url_query u' = Some (urlencoded_serialize (searchParams u')))
      /\ (existsb writes params = false -> u' = u)
      /\ (forall key value,
           In (key, value) params ->
           entries_of key (searchParams u) = [] ->
           let occurrences := entries_of key (searchParams u') in
           (occurrences = [] <-> value = PUndefined \/ value = PArray [])
           /\ ((forall vs, value <> PArray vs) ->
               (occurrences = [] <-> value = PUndefined))
           /\ (value = PString [] -> occurrences = [(key, [])])
           /\ (value = PNumber 0 -> occurrences = [(key, js "0")])
           /\ (value = PBoolean false -> occurrences = [(key, js "false")])
           /\ (value = PArray [] -> occurrences = [])
           /\ (forall vs, value = PArray vs -> occurrences = map (pair key) vs))
      /\ (forall key value,
           params = [(key, value)] -> searchParams u = [] -> url_query u = None ->
           buildUrl new_URL base path params
           = Ok (url_base u
                 ++ match value with
                    | PUndefined | PArray [] => []
                    | PArray vs => js "?" ++ urlencoded_serialize (map (pair key) vs)
                    | PString s => js "?" ++ urlencode key ++ js "=" ++ urlencode s
                    | PNumber n => js "?" ++ urlencode key ++ js "=" ++ urlencode (String_number n)
                    | PBoolean b => js "?" ++ urlencode key ++ js "="
                                      ++ urlencode (if b then js "true" else js "false")
                    end
                 ++ match url_fragment u with Some f => js "#" ++ f | None => [] end)).
Proof.
  intros new_URL base path params u Hparse Hnd.
  destruct (buildUrl_accepted new_URL base path params u Hparse Hnd)
    as (u' & Hb & Hbase & Hfrag & Hin & _ & Hflat & Hq & Hn).
  exists u'. split; [exact Hb|]. split; [exact Hbase|]. split; [exact Hfrag|].
  split; [exact Hq|]. split; [exact Hn|]. split.
  - intros key value Hkv Hfresh occurrences. unfold occurrences.
    rewrite (Hin key value Hkv), Hfresh. unfold effect.
    destruct value as [|s|n|b|vs]; simpl;
      repeat match goal with
        | |- _ /\ _ => split
        | |- _ -> _ => intros
        | |- _ <-> _ => split
        | H : _ \/ _ |- _ => destruct H
        | H : PString _ = PString _ |- _ => injection H as ->
        | H : PNumber _ = PNumber _ |- _ => injection H as ->
        | H : PBoolean _ = PBoolean _ |- _ => injection H as ->
        | H : PArray _ = PArray _ |- _ => injection H as ->
        end;
      try discriminate; try reflexivity; try (now left).
    + destruct vs as [|v vs]; [now right | discriminate].
    + exfalso. match goal with H : forall vs0, PArray vs <> PArray vs0 |- _ => now apply (H vs) end.
  - intros key value -> Hfresh Hnoq. rewrite Hb. f_equal.
    specialize (Hflat Hfresh). unfold URL_toString. rewrite Hbase, Hfrag. f_equal.
    destruct value as [|s|n|b|[|v vs]];
      try (rewrite (Hn eq_refl), Hnoq; reflexivity);
      rewrite (Hq eq_refl), Hflat; cbn [flat_map param_pairs effect fst snd app];
      try reflexivity.
    rewrite List.app_nil_r. reflexivity.
Qed.

Lemma buildUrl_omits_only_undefined_witness :
  buildUrl reference_new_URL (js "https://example.com") (js "/search")
    [(js "key", PString [])] = Ok (js "https://example.com/search?key=")
  /\ buildUrl reference_new_URL (js "https://example.com") (js "/search")
    [(js "key", PNumber 0)] = Ok (js "https://example.com/search?key=0")
  /\ buildUrl reference_new_URL (js "https://example.com") (js "/search")
    [(js "key", PBoolean false)] = Ok (js "https://example.com/search?key=false")
  /\ buildUrl reference_new_URL (js "https://example.com") (js "/search")
    [(js "key", PArray [])] = Ok (js "https://example.com/search")
  /\ buildUrl reference_new_URL (js "https://example.com") (js "/search")
    [(js "key", PUndefined)] = Ok (js "https://example.com/search")
  /\ exists u',
      buildUrl reference_new_URL (js "https://example.com") (js "/search")
        [(js "s", PString []); (js "n", PNumber 0); (js "b", PBoolean false);
         (js "a", PArray []); (js "u", PUndefined)]
      = Ok (URL_toString u')
      /\ entries_of (js "s") (searchParams u') = [(js "s", [])]
      /\ entries_of (js "n") (searchParams u') = [(js "n", js "0")]
      /\ entries_of (js "b") (searchParams u') = [(js "b", js "false")]
      /\ entries_of (js "a") (searchParams u') = []
      /\ entries_of (js "u") (searchParams u') = [].
Proof.
  repeat (split; [vm_compute; reflexivity|]).
  destruct (buildUrl_omits_only_undefined reference_new_URL
              (js "https://example.com") (js "/search")
              [(js "s", PString []); (js "n", PNumber 0); (js "b", PBoolean false);
               (js "a", PArray []); (js "u", PUndefined)]
              (mkURL (js "https://example.com/search") None None []))
    as (u' & Hb & _ & _ & _ & _ & H & _).
  - vm_compute. reflexivity.
  - repeat constructor; simpl; intuition discriminate.
  - exists u'. split; [exact Hb|].
    pose proof (H (js "s") (PString []) ltac:(simpl; auto) eq_refl)
      as (_ & _ & Hs & _).
    pose proof (H (js "n") (PNumber 0) ltac:(simpl; auto) eq_refl)
      as (_ & _ & _ & Hn & _).
    pose proof (H (js "b") (PBoolean false) ltac:(simpl; auto) eq_refl)
      as (_ & _ & _ & _ & Hf & _).
    pose proof (H (js "a") (PArray []) ltac:(simpl; auto 6) eq_refl)
      as (_ & _ & _ & _ & _ & Ha & _).
    pose proof (H (js "u") PUndefined ltac:(simpl; auto 6) eq_refl)
      as ([_ Hu] & _).
    repeat split; auto.
Defined.

(** ** The concept handler *)

Lemma concept_catch_failed concept_id err : failed concept_id (concept_catch concept_id err).
Proof.
  unfold concept_catch.
  destruct (statusCode_is err 404); [simpl; auto|].
  destruct (instanceof_Error err); simpl; auto.
Qed.

Lemma Promise_all_rejected {A} first (r1 r2 r3 r4 : JsResult A) :
  (exists e, r1 = Throw e \/ r2 = Throw e \/ r3 = Throw e \/ r4 = Throw e) ->
  exists e, Promise_all first r1 r2 r3 r4 = Throw e.
Proof.
  intros (e & H). unfold Promise_all.
  destruct r1, r2, r3, r4; try (eexists; reflexivity).
  destruct H as [H|[H|[H|H]]]; discriminate.
Qed.

Lemma Promise_all_fulfilled {A} first (r1 r2 r3 r4 : JsResult A) res :
  Promise_all first r1 r2 r3 r4 = Ok res ->
  exists a b c d, r1 = Ok a /\ r2 = Ok b /\ r3 = Ok c /\ r4 = Ok d /\ res = (a, b, c, d).
Proof.
  unfold Promise_all. destruct r1, r2, r3, r4; try discriminate.
  intros H. injection H as <-. eauto 10.
Qed.

Lemma concept_try_cases concept_id conceptRes broaderRes narrowerRes relatedRes :
  let res := concept_try concept_id (conceptRes, broaderRes, narrowerRes, relatedRes) in
  (exists c cs br na re,
      conceptRes = Some (c :: cs) /\ broaderRes = Some br
      /\ narrowerRes = Some na /\ relatedRes = Some re
      /\ res = Ok (concept_result (concept_detail c br na re)))
  \/ res = Ok (mkToolResult [not_found_text concept_id] None false)
  \/ exists e, res = Throw e.
Proof.
  unfold concept_try.
  destruct conceptRes as [[|c cs]|]; auto.
  destruct broaderRes as [br|]; simpl; eauto.
  destruct narrowerRes as [na|]; simpl; eauto.
  destruct relatedRes as [re|]; simpl; eauto.
  left. exists c, cs, br, na, re. repeat split.
Qed.

(** The settlement of the four fetches decides the result: the full payload
    when all four are fulfilled with arrays, the first not empty, and a
    failure otherwise. *)
Lemma concept_settle_cases concept_id first (r1 r2 r3 r4 : JsResult TaxonomyBody) :
  let res := concept_settle concept_id (Promise_all first r1 r2 r3 r4) in
  (exists c cs br na re,
      r1 = Ok (Some (c :: cs)) /\ r2 = Ok (Some br)
      /\ r3 = Ok (Some na) /\ r4 = Ok (Some re)
      /\ res = Ok (concept_result (concept_detail c br na re)))
  \/ failed concept_id res.
Proof.
  cbv zeta.
  destruct (Promise_all first r1 r2 r3 r4) as [[[[a b] c] d]|e] eqn:E.
  - apply Promise_all_fulfilled in E as (a' & b' & c' & d' & -> & -> & -> & -> & E).
    injection E as <- <- <- <-. unfold concept_settle.
    destruct (concept_try_cases concept_id a b c d)
      as [(c0 & cs & br & na & re & -> & -> & -> & -> & Hres)|[Hres|(e & Hres)]];
      cbv zeta in Hres; rewrite Hres.
    + left. exists c0, cs, br, na, re. repeat split.
    + right. simpl. auto.
    + right. apply concept_catch_failed.
  - right. apply concept_catch_failed.
Qed.

(** [Promise.all] rejects with one of the rejections of its promises. *)
Lemma Promise_all_rejects {A} first (r1 r2 r3 r4 : JsResult A) :
  (exists e, r1 = Throw e \/ r2 = Throw e \/ r3 = Throw e \/ r4 = Throw e) ->
  exists e, Promise_all first r1 r2 r3 r4 = Throw e
            /\ (r1 = Throw e \/ r2 = Throw e \/ r3 = Throw e \/ r4 = Throw e).
Proof.
  intros (e0 & H). unfold Promise_all.
  destruct r1, r2, r3, r4; cbn [rejection app];
    try (destruct H as [H|[H|[H|H]]]; discriminate);
    (eexists; split; [reflexivity|]);
    destruct first as [|[|[|[|[|n]]]]]; cbn; auto 6.
Qed.

(** What the [catch] block makes of a rejection. *)
Lemma concept_catch_cases concept_id err :
  concept_catch concept_id err
  = if statusCode_is err 404
    then Ok (mkToolResult
               [js "Taxonomy concept with ID " ++ [34] ++ concept_id ++ [34] ++ js " not found."]
               None false)
    else if instanceof_Error err
    then Ok (mkToolResult [js "An error occurred: " ++ err_message err] None true)
    else Throw err.
Proof. reflexivity. Qed.

(** ** Fan-out *)

(** C7: the concept handler fails as a whole when [new URL] throws; else its
    result carries a payload only if all four fetches were fulfilled, and the
    payload then holds the concept with its three relation lists, each the
    image of the whole body of its fetch.  When all four bodies are arrays
    and the first is not empty the payload is there.  As soon as one fetch is
    rejected the result is what the [catch] block makes of one of the
    rejections: the not-found text when its [statusCode] is 404, else the
    text [An error occurred: ] with its message and [isError] when it is an
    [Error], and else the rejection itself, none of them with a payload.  When
    all four are fulfilled but the first body is empty or [null] the result is
    the not-found text, and when a relation body is [null] it is the error
    text of the [TypeError].  Every result is the payload, the not-found text,
    an error text or a thrown value that is no [Error]. *)
Theorem concept_all_or_nothing :
  forall (new_URL : jsstring -> option URL) (server : nat -> Request -> Reply TaxonomyBody)
         (concept_id : jsstring) (first : nat) (w : World),
    let out := af_get_taxonomy_concept new_URL server concept_id first w in
    let not_found : JsResult (ToolResult ConceptPayload) :=
      Ok (mkToolResult
            [js "Taxonomy concept with ID " ++ [34] ++ concept_id ++ [34] ++ js " not found."]
            None false) in
    let error_text (msg : jsstring) : JsResult (ToolResult ConceptPayload) :=
      Ok (mkToolResult [js "An error occurred: " ++ msg] None true) in
    match concept_urls new_URL concept_id with
    | Throw e => out = (Throw e, w)
    | Ok urls =>
        let '(r1, r2, r3, r4, w4) := concept_fetches server urls w in
        let complete (p : ConceptPayload) :=
          exists c cs br na re,
            r1 = Ok (Some (c :: cs)) /\ r2 = Ok (Some br)
            /\ r3 = Ok (Some na) /\ r4 = Ok (Some re)
            /\ concept p = mkConceptDetail (mapItem c) (Some (map mapItem br))
                             (Some (map mapItem na)) (Some (map mapItem re)) in
        snd out = w4
        /\ (forall p, structured (fst out) p -> complete p)
        /\ (forall p, complete p -> structured (fst out) p)
        /\ ((exists e, r1 = Throw e \/ r2 = Throw e \/ r3 = Throw e \/ r4 = Throw e) ->
            exists e,
              (r1 = Throw e \/ r2 = Throw e \/ r3 = Throw e \/ r4 = Throw e)
              /\ fst out = if statusCode_is e 404 then not_found
                           else if instanceof_Error e then error_text (err_message e)
                           else Throw e)
        /\ (forall b1 b2 b3 b4,
              r1 = Ok b1 -> r2 = Ok b2 -> r3 = Ok b3 -> r4 = Ok b4 ->
              (b1 = None \/ b1 = Some [] -> fst out = not_found)
              /\ ((exists c cs, b1 = Some (c :: cs)) ->
                  b2 = None \/ b3 = None \/ b4 = None ->
                  fst out = error_text (js "Cannot read properties of null (reading 'map')")))
        /\ ((exists p, structured (fst out) p)
            \/ fst out = not_found
            \/ (exists msg, fst out = error_text msg)
            \/ (exists e, fst out = Throw e /\ instanceof_Error e = false))
    end.
Proof.
  intros new_URL server concept_id first w out not_found error_text.
  unfold out, af_get_taxonomy_concept.
  destruct (concept_urls new_URL concept_id) as [urls|e]; [|reflexivity].
  destruct (concept_fetches server urls w) as [[[[r1 r2] r3] r4] w4].
  cbn [fst snd]. split; [reflexivity|].
  pose proof (concept_settle_cases concept_id first r1 r2 r3 r4) as Hcases.
  cbv zeta in Hcases.
  assert (Hcatch : forall err,
             concept_catch concept_id err = not_found
             \/ (exists msg, concept_catch concept_id err = error_text msg)
             \/ (exists e, concept_catch concept_id err = Throw e
                           /\ instanceof_Error e = false)).
  { intros err. rewrite concept_catch_cases.
    destruct (statusCode_is err 404); [now left|].
    destruct (instanceof_Error err) eqn:E; [right; left; eexists; reflexivity|].
    right. right. exists err. split; [reflexivity | exact E]. }
  split; [|split; [|split; [|split]]].
  - intros p (t & Ht & Hp).
    destruct Hcases as [(c & cs & br & na & re & -> & -> & -> & -> & Hres)|Hf].
    + rewrite Hres in Ht. injection Ht as <-. simpl in Hp.
      injection Hp as <-. exists c, cs, br, na, re. repeat split.
    + rewrite Ht in Hf. simpl in Hf. destruct Hf as [Hf _]. congruence.
  - intros p (c & cs & br & na & re & -> & -> & -> & -> & Hp).
    destruct p as [detail]. simpl in Hp. subst detail.
    eexists. split; reflexivity.
  - intros H. destruct (Promise_all_rejects first _ _ _ _ H) as (e & -> & Hin).
    exists e. split; [exact Hin|]. cbn [concept_settle]. apply concept_catch_cases.
  - intros b1 b2 b3 b4 -> -> -> ->. cbn [Promise_all concept_settle]. split.
    + intros [->| ->]; reflexivity.
    + intros (c & cs & ->) [->|[->| ->]]; cbn [concept_try map_body];
        try reflexivity;
        destruct b2 as [br|]; cbn [map_body]; try reflexivity;
        destruct b3 as [na|]; reflexivity.
  - destruct (Promise_all first r1 r2 r3 r4) as [[[[a b] c] d]|err] eqn:E.
    + cbn [concept_settle].
      destruct (concept_try_cases concept_id a b c d)
        as [(c0 & cs & br & na & re & -> & -> & -> & -> & Hres)|[Hres|(e & Hres)]];
        cbv zeta in Hres; rewrite Hres.
      * left. eexists. eexists. split; reflexivity.
      * right. now left.
      * right. apply Hcatch.
    + cbn [concept_settle]. right. apply Hcatch.
Qed.

Lemma concept_all_or_nothing_witness :
  let out := af_get_taxonomy_concept reference_new_URL broader_unavailable
               (js "i46j_HmG_v64") 0 [] in
  fst out = Ok (mkToolResult
                  [js "An error occurred: API request failed: 503 Service Unavailable"]
                  None true)
  /\ (forall p, ~ structured (fst out) p)
  /\ attempts (snd out) = 7%nat.
Proof.
  intros out.
  pose proof (concept_all_or_nothing reference_new_URL broader_unavailable
                (js "i46j_HmG_v64") 0 []) as H.
  cbv zeta in H.
  assert (exists urls, concept_urls reference_new_URL (js "i46j_HmG_v64") = Ok urls)
    as [urls Hu] by (eexists; vm_compute; reflexivity).
  rewrite Hu in H.
  destruct (concept_fetches broader_unavailable urls []) as [[[[r1 r2] r3] r4] w4] eqn:Hf.
  destruct H as (_ & Hc & _ & Hfail & _).
  assert (Hrs : exists b1 b3 b4 url,
             r1 = Ok b1 /\ r3 = Ok b3 /\ r4 = Ok b4
             /\ r2 = Throw (ApiError (js "API request failed: 503 Service Unavailable")
                              (Some 503) (Some url))).
  { revert Hf. vm_compute in Hu. injection Hu as <-. vm_compute.
    intros Hf. injection Hf as <- <- <- <- _. do 4 eexists. repeat split. }
  destruct Hrs as (b1 & b3 & b4 & url & -> & -> & -> & ->).
  destruct Hfail as (e & He & Hout); [eexists; right; left; reflexivity|].
  destruct He as [He|[He|[He|He]]]; try discriminate He.
  injection He as <-.
  split; [exact Hout|].
  split; [|vm_compute; reflexivity].
  intros p Hp. destruct (Hc p Hp) as (c & cs & br & na & re & _ & Hbr & _).
  discriminate Hbr.
Defined.

(** ** Listing a taxonomy type *)

(** C10: a result of [af_list_taxonomy_types] that carries a payload has
    [count] equal to the length of [concepts], which are the concepts of the
    response, all of them when [include_deprecated] is set and else those
    whose [deprecated] flag is not truthy. *)
Theorem list_count_matches_concepts :
  forall (new_URL : jsstring -> option URL) (server : nat -> Request -> Reply TaxonomyBody)
         (type_ : jsstring) (include_deprecated : bool) (w : World)
         (p : ListPayload),
    structured (fst (af_list_taxonomy_types new_URL server type_ include_deprecated w)) p ->
    count p = jslength (concepts p)
    /\ list_type p = type_
    /\ (include_deprecated = false ->
        Forall (fun c => truthy_flag (deprecated c) = false) (concepts p))
    /\ exists url items w1,
         taxonomyFetch _ server url w = (Ok (Some items), w1)
         /\ concepts p
            = (if include_deprecated then map mapItem items
               else filter (fun c => negb (truthy_flag (deprecated c))) (map mapItem items)).
Proof.
  intros new_URL server type_ include_deprecated w p (t & Ht & Hp).
  unfold af_list_taxonomy_types in Ht.
  destruct (buildTaxonomyUrl new_URL concept_path _) as [url|e]; [|discriminate].
  destruct (taxonomyFetch TaxonomyBody server url w) as [[response|err] w1] eqn:Hfetch.
  - destruct response as [items|]; [|discriminate].
    cbn [map_body] in Ht.
    destruct (jslength (map mapItem items) =? 0); cbn [fst] in Ht;
      injection Ht as <-; [discriminate|].
    cbn [structuredContent] in Hp. injection Hp as <-.
    cbn [count concepts list_type].
    split; [reflexivity|]. split; [reflexivity|]. split.
    + intros ->. apply Forall_forall. intros x Hx.
      apply filter_In in Hx as [_ Hx]. now apply negb_true_iff in Hx.
    + exists url, items, w1. split; [exact Hfetch | reflexivity].
  - destruct (statusCode_is err 404); cbn [fst] in Ht; [|discriminate].
    injection Ht as <-. discriminate.
Qed.

Lemma list_count_matches_concepts_witness :
  exists p,
    structured (fst (af_list_taxonomy_types reference_new_URL two_fields
                       (js "occupation-field") false [])) p
    /\ count p = 1
    /\ map preferredLabel (concepts p) = [js "Data/IT"].
Proof.
  eexists. split; [eexists; split; vm_compute; reflexivity|].
  split.
  - refine (proj1 (list_count_matches_concepts reference_new_URL two_fields
                     (js "occupation-field") false [] _ _)).
    eexists. split; vm_compute; reflexivity.
  - vm_compute. reflexivity.
Defined.

(** ** Truncation *)

(** C6, as the code has it: [truncateIfNeeded] returns a text of at most
    50000 code units unchanged and replaces a longer one by its first 50000
    code units followed by the 25 code units of the marker.  The taxonomy
    handlers do not call it: the text block that goes with a payload is the
    first 50000 code units of the formatted text and nothing more. *)
Theorem truncation_of_text :
  (forall text,
      (jslength text <= CHARACTER_LIMIT -> truncateIfNeeded text = text)
      /\ (CHARACTER_LIMIT < jslength text ->
          truncateIfNeeded text = slice0 CHARACTER_LIMIT text ++ truncation_marker
          /\ jslength (truncateIfNeeded text) = CHARACTER_LIMIT + 25)
      /\ jslength (truncateIfNeeded text) <= CHARACTER_LIMIT + 25)
  /\ (forall new_URL server concept_id first w p,
         structured (fst (af_get_taxonomy_concept new_URL server concept_id first w)) p ->
         exists t,
           fst (af_get_taxonomy_concept new_URL server concept_id first w) = Ok t
           /\ content t = [slice0 CHARACTER_LIMIT (join [10] (concept_lines (concept p)))]
           /\ Forall (fun block => jslength block <= CHARACTER_LIMIT) (content t))
  /\ (forall new_URL server type_ include_deprecated w p,
         structured (fst (af_list_taxonomy_types new_URL server type_ include_deprecated w)) p ->
         exists t,
           fst (af_list_taxonomy_types new_URL server type_ include_deprecated w) = Ok t
           /\ content t = [slice0 CHARACTER_LIMIT (list_text p)]
           /\ Forall (fun block => jslength block <= CHARACTER_LIMIT) (content t)).
Proof.
  split; [|split].
  - intros text. unfold truncateIfNeeded.
    assert (Hm : jslength truncation_marker = 25) by reflexivity.
    destruct (Z.gtb_spec (jslength text) CHARACTER_LIMIT) as [Hgt|Hle].
    + split; [lia|]. rewrite jslength_app, jslength_slice0, Hm by (unfold CHARACTER_LIMIT; lia).
      split; [intros _; split; [reflexivity | lia] | lia].
    + split; [reflexivity|]. split; [lia | unfold CHARACTER_LIMIT in *; lia].
  - intros new_URL server concept_id first w p (t & Ht & Hp).
    unfold af_get_taxonomy_concept in *.
    destruct (concept_urls new_URL concept_id) as [urls|e]; [|discriminate].
    destruct (concept_fetches server urls w) as [[[[r1 r2] r3] r4] w4].
    cbn [fst] in *.
    destruct (concept_settle_cases concept_id first r1 r2 r3 r4)
      as [(c & cs & br & na & re & _ & _ & _ & _ & Hres)|Hf].
    + rewrite Hres in Ht |- *. injection Ht as <-. cbn [structuredContent concept_result] in Hp.
      injection Hp as <-.
      eexists. split; [reflexivity|]. cbn [content concept concept_result].
      split; [reflexivity|].
      constructor; [|constructor].
      rewrite jslength_slice0 by (unfold CHARACTER_LIMIT; lia). lia.
    + rewrite Ht in Hf. destruct Hf as [Hf _]. congruence.
  - intros new_URL server type_ include_deprecated w p (t & Ht & Hp).
    exists t. unfold af_list_taxonomy_types in *.
    destruct (buildTaxonomyUrl new_URL concept_path _) as [url|e]; [|discriminate].
    destruct (taxonomyFetch TaxonomyBody server url w) as [[response|err] w1].
    + destruct response as [items|]; [|discriminate].
      cbn [map_body] in *.
      destruct (jslength (map mapItem items) =? 0); cbn [fst] in *;
        injection Ht as <-; [discriminate|].
      cbn [structuredContent] in Hp. injection Hp as <-.
      split; [reflexivity|]. cbn [content]. split; [reflexivity|].
      constructor; [|constructor].
      rewrite jslength_slice0 by (unfold CHARACTER_LIMIT; lia). lia.
    + destruct (statusCode_is err 404); cbn [fst] in *; [|discriminate].
      injection Ht as <-. discriminate.
Qed.

Lemma truncation_of_text_witness :
  truncateIfNeeded long_label = slice0 CHARACTER_LIMIT long_label ++ truncation_marker
  /\ jslength (truncateIfNeeded long_label) = CHARACTER_LIMIT + 25
  /\ truncateIfNeeded (js "Sjukskoterska") = js "Sjukskoterska".
Proof.
  destruct truncation_of_text as (H & _).
  destruct (H long_label) as (_ & Hlong & _).
  destruct (H (js "Sjukskoterska")) as (Hshort & _).
  split; [apply Hlong; vm_compute; reflexivity|].
  split; [apply Hlong; vm_compute; reflexivity|].
  apply Hshort. vm_compute. discriminate.
Defined.

Lemma labelled_fetch label url w :
  taxonomyFetch TaxonomyBody (labelled label) url w
  = (Ok (Some [labelled_item label]), w ++ [Fetched (get_request url) (Answered 200)]).
Proof.
  unfold taxonomyFetch.
  apply (fetchJson_first_ok (labelled label) url 3 w
           (mkResponse 200 (js "OK") 5 (Ok (Some [labelled_item label])))).
  - split; reflexivity.
  - reflexivity.
Qed.

Lemma labelled_concept_result label :
  fst (af_get_taxonomy_concept reference_new_URL (labelled label) (js "i46j_HmG_v64") 0 [])
  = Ok (concept_result
          (concept_detail (labelled_item label) [labelled_item label]
             [labelled_item label] [labelled_item label])).
Proof.
  unfold af_get_taxonomy_concept.
  assert (exists urls, concept_urls reference_new_URL (js "i46j_HmG_v64") = Ok urls)
    as [[[[u1 u2] u3] u4] ->] by (eexists; vm_compute; reflexivity).
  unfold concept_fetches. rewrite !labelled_fetch. reflexivity.
Qed.

(** C6 as stated fails: for a concept whose label has 50001 code units the
    concept handler cuts the text to exactly 50000 code units, without the
    marker [truncateIfNeeded] would append. *)
Lemma concept_text_cut_without_marker :
  exists t p,
    fst (af_get_taxonomy_concept reference_new_URL (labelled long_label)
           (js "i46j_HmG_v64") 0 []) = Ok t
    /\ structuredContent t = Some p
    /\ let full := join [10] (concept_lines (concept p)) in
       CHARACTER_LIMIT < jslength full
       /\ content t = [slice0 CHARACTER_LIMIT full]
       /\ jslength (hd [] (content t)) = 50000
       /\ endsWith truncation_marker (hd [] (content t)) = false
       /\ content t <> [truncateIfNeeded full].
Proof.
  rewrite labelled_concept_result.
  eexists. eexists. split; [reflexivity|]. split; [reflexivity|].
  cbv zeta. cbn [content concept concept_result hd].
  split; [vm_compute; reflexivity|].
  split; [reflexivity|].
  split; [vm_compute; reflexivity|].
  split; [vm_compute; reflexivity|].
  intros H. apply (f_equal (fun l => jslength (hd [] l))) in H.
  vm_compute in H. discriminate H.
Qed.

(** ** More on the runs of the retry policy *)

Section PolicyMore.

Context {T : Type} (server : nat -> Request -> Reply T).
Variables (url : jsstring) (rq : Request) (delay : Z -> Z) (what : jsstring).

Lemma run_first_client_error retries w out r :
  responds server rq (attempts w) r ->
  status r <> 429 -> status r < 500 -> ok r = false ->
  run server url rq delay what retries w out ->
  out = (Throw (http_error T what r url), w ++ [Fetched rq (Answered (status r))]).
Proof.
  intros Hr H429 H5 Hok Hrun.
  destruct Hrun as [retries w Hl | retries w e Hl Hs | retries w r' Hr' H429'
                   | retries w r' out Hr' H5' Hre Hrun
                   | retries w r' Hr' H429' Hex Hok' | retries w r' Hr' Hok'].
  - destruct Hr. lia.
  - destruct Hr. congruence.
  - rewrite (responds_inj _ _ _ _ _ Hr' Hr) in H429'. contradiction.
  - rewrite (responds_inj _ _ _ _ _ Hr' Hr) in H5'. lia.
  - now rewrite (responds_inj _ _ _ _ _ Hr' Hr).
  - rewrite (responds_inj _ _ _ _ _ Hr' Hr) in Hok'. congruence.
Qed.

Lemma run_first_unreachable retries w out e :
  latency (server (attempts w) rq) < 10000 ->
  settlement (server (attempts w) rq) = Fails e ->
  run server url rq delay what retries w out ->
  out = (Throw (on_catch url e), w ++ [Fetched rq Unreachable]).
Proof.
  intros Hl Hs Hrun.
  destruct Hrun as [retries w Hl' | retries w e' Hl' Hs' | retries w r' [_ Hr'] H429'
                   | retries w r' out [_ Hr'] H5' Hre Hrun
                   | retries w r' [_ Hr'] H429' Hex Hok' | retries w r' [_ Hr'] Hok'];
    try congruence; try lia.
Qed.

Lemma retry_delays_length retries k : List.length (retry_delays delay retries k) = k.
Proof. revert retries. induction k; intros; simpl; [reflexivity | now rewrite IHk]. Qed.

(** A run only appends to the trace, and every attempt of it sends [rq]. *)
Lemma run_sends_only retries w out :
  run server url rq delay what retries w out ->
  exists new, snd out = w ++ new /\ sends_only rq new.
Proof.
  induction 1 as [retries w Hl | retries w e Hl Hs | retries w r Hr H429
                 | retries w r out Hr H5 Hre Hrun IH
                 | retries w r Hr H429 Hex Hok | retries w r Hr Hok];
    try (eexists; split; [reflexivity | repeat constructor]).
  destruct IH as (new & Hw & Hnew).
  exists (retry_events url rq delay retries r ++ new).
  rewrite Hw, <- List.app_assoc. split; [reflexivity|].
  apply Forall_app. split; [repeat constructor | exact Hnew].
Qed.

(** After [k] failures with a status of 500 or more that the budget covers,
    a response that is [ok] ends the run with its body. *)
Lemma run_recovers k : forall retries w out r,
  fails_5xx server rq (attempts w) k ->
  responds server rq (attempts w + k) r -> ok r = true ->
  Z.of_nat k <= retries ->
  run server url rq delay what retries w out ->
  fst out = json r
  /\ attempts (snd out) = (attempts w + k + 1)%nat
  /\ delays (snd out) = delays w ++ retry_delays delay retries k.
Proof.
  induction k as [|k IH]; intros retries w out r Hfail Hr Hok Hk Hrun.
  - rewrite Nat.add_0_r in Hr.
    rewrite (run_first_ok _ _ _ _ _ _ _ _ _ Hr Hok Hrun). cbn [fst snd].
    rewrite attempts_snoc_fetch, delays_snoc_fetch. simpl.
    rewrite List.app_nil_r. repeat split; lia.
  - destruct (Hfail O ltac:(lia)) as (r0 & Hr0 & H50). rewrite Nat.add_0_r in Hr0.
    destruct Hrun as [retries w Hl | retries w e Hl Hs | retries w r' Hr' H429'
                     | retries w r' out Hr' H5' Hre Hrun
                     | retries w r' Hr' H429' Hex Hok' | retries w r' Hr' Hok'].
    + destruct Hr0. lia.
    + destruct Hr0. congruence.
    + rewrite (responds_inj _ _ _ _ _ Hr' Hr0) in H429'. lia.
    + assert (Ha : attempts (w ++ retry_events url rq delay retries r') = S (attempts w)).
      { rewrite attempts_app.
        change (attempts (retry_events url rq delay retries r')) with 1%nat. lia. }
      destruct (IH (retries - 1) (w ++ retry_events url rq delay retries r') out r)
        as (Hres & Hatt & Hdel); try assumption.
      * intros i Hi. rewrite Ha.
        destruct (Hfail (S i) ltac:(lia)) as (ri & Hri & H5i).
        exists ri. split; [|exact H5i].
        replace (S (attempts w) + i)%nat with (attempts w + S i)%nat by lia. exact Hri.
      * rewrite Ha. replace (S (attempts w) + k)%nat with (attempts w + S k)%nat by lia.
        exact Hr.
      * lia.
      * rewrite Hres, Hatt, Hdel, Ha, delays_app.
        change (delays (retry_events url rq delay retries r')) with [delay retries].
        simpl. rewrite <- List.app_assoc. repeat split; lia.
    + rewrite (responds_inj _ _ _ _ _ Hr' Hr0) in Hex. lia.
    + rewrite (responds_inj _ _ _ _ _ Hr' Hr0) in Hok'. unfold ok in Hok'.
      apply andb_prop in Hok' as [_ H2]. apply Z.leb_le in H2. lia.
Qed.

End PolicyMore.

Lemma total_wait_firstn_le (k : nat) (l : list Z) :
  Forall (fun d => 0 <= d) l -> total_wait (firstn k l) <= total_wait l.
Proof.
  revert k. induction l as [|d l IH]; intros k Hl.
  - rewrite firstn_nil. simpl. lia.
  - inversion Hl as [|? ? Hd Hl']; subst. destruct k as [|k]; simpl.
    + assert (0 <= total_wait l).
      { clear IH Hl. induction Hl' as [|x l Hx _ IH']; simpl; unfold total_wait in *; simpl; lia. }
      unfold total_wait in *. simpl. lia.
    + specialize (IH k Hl'). unfold total_wait in *. simpl. lia.
Qed.

Lemma Forall_firstn_keep {A} (P : A -> Prop) (k : nat) (l : list A) :
  Forall P l -> Forall P (firstn k l).
Proof.
  intros H. revert k. induction H as [|x l Hx _ IH]; intros [|k]; simpl; constructor;
    [exact Hx | apply IH].
Qed.

(** X1: a first response that is [ok] (status 200..299, in time) settles
    the call at once: [fetchJson] and [postJson] return what
    [response.json()] settles to, the parsed body or its rejection as it is,
    after one attempt and without any wait, whatever the budget. *)
Theorem ok_response_settles_call :
  forall (T : Type) (server : nat -> Request -> Reply T)
         (Body : Type) (JSON_stringify : Body -> jsstring)
         (url : jsstring) (body : Body) (retries : Z) (w : World),
    (forall r, responds server (get_request url) (attempts w) r -> ok r = true ->
       fetchJson T server url retries w
       = (json r, w ++ [Fetched (get_request url) (Answered (status r))])
       /\ attempts_made w (snd (fetchJson T server url retries w)) = 1
       /\ delays (snd (fetchJson T server url retries w)) = delays w)
    /\ (forall r, responds server (post_request Body JSON_stringify url body) (attempts w) r ->
        ok r = true ->
        postJson T server Body JSON_stringify url body retries w
        = (json r, w ++ [Fetched (post_request Body JSON_stringify url body)
                           (Answered (status r))])
        /\ attempts_made w (snd (postJson T server Body JSON_stringify url body retries w)) = 1
        /\ delays (snd (postJson T server Body JSON_stringify url body retries w)) = delays w).
Proof.
  intros T server Body JSON_stringify url body retries w. split; intros r Hr Hok.
  - rewrite (run_first_ok _ _ _ _ _ _ _ _ _ Hr Hok (fetchJson_run server url retries w)).
    cbn [snd]. unfold attempts_made.
    rewrite attempts_snoc_fetch, delays_snoc_fetch. repeat split. lia.
  - rewrite (run_first_ok _ _ _ _ _ _ _ _ _ Hr Hok
               (postJson_run server JSON_stringify url body retries w)).
    cbn [snd]. unfold attempts_made.
    rewrite attempts_snoc_fetch, delays_snoc_fetch. repeat split. lia.
Qed.

Lemma ok_response_settles_call_witness :
  let url := js "https://example.com/jobs" in
  fetchJson unit never_failing url 3 []
  = (Ok tt, [Fetched (get_request url) (Answered 200)]).
Proof.
  intros url.
  destruct (ok_response_settles_call unit never_failing unit (fun _ => js "{}") url tt 3 [])
    as (H & _).
  destruct (H (mkResponse 200 (js "OK") 5 (Ok tt))) as (E & _).
  - split; [simpl; lia | reflexivity].
  - reflexivity.
  - exact E.
Defined.

(** X2: whatever the upstream does, a call of [fetchJson] or [postJson]
    makes at least one attempt and at most [1 + max(0, retries)], so at most
    4 with the default budget and exactly one with a budget of 0 or less; it
    waits once less than it makes attempts. *)
Theorem attempts_within_budget :
  forall (T : Type) (server : nat -> Request -> Reply T)
         (Body : Type) (JSON_stringify : Body -> jsstring)
         (url : jsstring) (body : Body) (retries : Z) (w : World),
    let bounded (w' : World) :=
      1 <= attempts_made w w' <= 1 + Z.max 0 retries
      /\ jslength (delays w') = jslength (delays w) + attempts_made w w' - 1
      /\ (retries <= 3 -> attempts_made w w' <= 4)
      /\ (retries <= 0 -> attempts_made w w' = 1) in
    bounded (snd (fetchJson T server url retries w))
    /\ bounded (snd (postJson T server Body JSON_stringify url body retries w)).
Proof.
  intros T server Body JSON_stringify url body retries w bounded.
  assert (H : forall rq delay what out,
             run server url rq delay what retries w out -> bounded (snd out)).
  { intros rq delay what out Hrun.
    pose proof (run_attempts_bound _ _ _ _ _ _ _ _ Hrun) as [Hlo Hhi].
    pose proof (run_delays _ _ _ _ _ _ _ _ Hrun) as Hd.
    unfold bounded, attempts_made, jslength.
    rewrite Hd, length_app, retry_delays_length.
    repeat split; lia. }
  split; [exact (H _ _ _ _ (fetchJson_run server url retries w))
         | exact (H _ _ _ _ (postJson_run server JSON_stringify url body retries w))].
Qed.

(** X3: a first response whose status is neither 2xx, nor 429, nor 500 or
    more (a 404, say) is not retried: the call fails after that one attempt
    with the [ApiError] that carries the status, the status text in its
    message and the URL, whatever the budget. *)
Theorem client_error_not_retried :
  forall (T : Type) (server : nat -> Request -> Reply T)
         (Body : Type) (JSON_stringify : Body -> jsstring)
         (url : jsstring) (body : Body) (retries : Z) (w : World),
    let client_error (r : Response T) :=
      ok r = false /\ status r <> 429 /\ status r < 500 in
    (forall r, responds server (get_request url) (attempts w) r -> client_error r ->
       fetchJson T server url retries w
       = (Throw (ApiError (js "API request failed: " ++ String_number (status r)
                             ++ js " " ++ statusText r) (Some (status r)) (Some url)),
          w ++ [Fetched (get_request url) (Answered (status r))]))
    /\ (forall r, responds server (post_request Body JSON_stringify url body) (attempts w) r ->
        client_error r ->
        postJson T server Body JSON_stringify url body retries w
        = (Throw (ApiError (js "POST API request failed: " ++ String_number (status r)
                              ++ js " " ++ statusText r) (Some (status r)) (Some url)),
           w ++ [Fetched (post_request Body JSON_stringify url body) (Answered (status r))])).
Proof.
  intros T server Body JSON_stringify url body retries w client_error.
  split; intros r Hr (Hok & H429 & H5).
  - exact (run_first_client_error _ _ _ _ _ _ _ _ _ Hr H429 H5 Hok
             (fetchJson_run server url retries w)).
  - exact (run_first_client_error _ _ _ _ _ _ _ _ _ Hr H429 H5 Hok
             (postJson_run server JSON_stringify url body retries w)).
Qed.

Lemma client_error_not_retried_witness :
  let url := js "https://example.com/jobs/none" in
  exists e,
    fetchJson unit always_404 url 3 [] = (Throw e, [Fetched (get_request url) (Answered 404)])
    /\ err_statusCode e = Some 404.
Proof.
  intros url.
  destruct (client_error_not_retried unit always_404 unit (fun _ => js "{}") url tt 3 [])
    as (H & _).
  eexists. split.
  - apply (H (mkResponse 404 (js "Not Found") 5 (Ok tt))).
    + split; [simpl; lia | reflexivity].
    + split; [reflexivity | split; [discriminate | simpl; lia]].
  - reflexivity.
Defined.

(** X4: when the first attempt fails in transport before the timer fires,
    the call is not retried and rejects after that one attempt; the value
    [fetch] rejected with is rethrown as it is, unless it is an [Error] named
    [AbortError], which becomes the timeout error. *)
Theorem transport_failure_rethrown :
  forall (T : Type) (server : nat -> Request -> Reply T)
         (Body : Type) (JSON_stringify : Body -> jsstring)
         (url : jsstring) (body : Body) (retries : Z) (w : World) (e : JsError),
    let rethrown := if instanceof_Error e && jsstring_eqb (err_name e) (js "AbortError")
                    then timeout_error url else e in
    (latency (server (attempts w) (get_request url)) < 10000 ->
     settlement (server (attempts w) (get_request url)) = Fails e ->
     fetchJson T server url retries w
     = (Throw rethrown, w ++ [Fetched (get_request url) Unreachable]))
    /\ (latency (server (attempts w) (post_request Body JSON_stringify url body)) < 10000 ->
        settlement (server (attempts w) (post_request Body JSON_stringify url body)) = Fails e ->
        postJson T server Body JSON_stringify url body retries w
        = (Throw rethrown, w ++ [Fetched (post_request Body JSON_stringify url body) Unreachable])).
Proof.
  intros T server Body JSON_stringify url body retries w e rethrown.
  split; intros Hl Hs.
  - exact (run_first_unreachable _ _ _ _ _ _ _ _ _ Hl Hs (fetchJson_run server url retries w)).
  - exact (run_first_unreachable _ _ _ _ _ _ _ _ _ Hl Hs
             (postJson_run server JSON_stringify url body retries w)).
Qed.

Lemma transport_failure_rethrown_witness :
  let url := js "https://example.com/jobs" in
  fetchJson unit unreachable url 3 []
  = (Throw connection_refused, [Fetched (get_request url) Unreachable]).
Proof.
  intros url.
  destruct (transport_failure_rethrown unit unreachable unit (fun _ => js "{}") url tt 3 []
              connection_refused) as (H & _).
  apply H; [simpl; lia | reflexivity].
Defined.

(** X5: when the first [k] responses of a call have a status of 500 or
    more, [k] is within the budget and the next response is [ok], the call
    returns what its [response.json()] settles to, after [k + 1] attempts and
    the first [k] waits of the back-off. *)
Theorem recovers_after_failures :
  forall (T : Type) (server : nat -> Request -> Reply T)
         (Body : Type) (JSON_stringify : Body -> jsstring)
         (url : jsstring) (body : Body) (retries : Z) (w : World) (k : nat),
    Z.of_nat k <= retries ->
    (forall r, fails_5xx server (get_request url) (attempts w) k ->
       responds server (get_request url) (attempts w + k) r -> ok r = true ->
       let g := fetchJson T server url retries w in
       fst g = json r
       /\ attempts_made w (snd g) = Z.of_nat k + 1
       /\ delays (snd g) = delays w ++ retry_delays fetchJson_delay retries k)
    /\ (forall r, fails_5xx server (post_request Body JSON_stringify url body) (attempts w) k ->
        responds server (post_request Body JSON_stringify url body) (attempts w + k) r ->
        ok r = true ->
        let p := postJson T server Body JSON_stringify url body retries w in
        fst p = json r
        /\ attempts_made w (snd p) = Z.of_nat k + 1
        /\ delays (snd p) = delays w ++ retry_delays postJson_delay retries k).
Proof.
  intros T server Body JSON_stringify url body retries w k Hk.
  split; intros r Hf Hr Hok out.
  - destruct (run_recovers _ _ _ _ _ _ _ _ _ _ Hf Hr Hok Hk
                (fetchJson_run server url retries w)) as (H1 & H2 & H3).
    fold out in H1, H2, H3. unfold attempts_made. rewrite H2.
    repeat split; [exact H1 | lia | exact H3].
  - destruct (run_recovers _ _ _ _ _ _ _ _ _ _ Hf Hr Hok Hk
                (postJson_run server JSON_stringify url body retries w)) as (H1 & H2 & H3).
    fold out in H1, H2, H3. unfold attempts_made. rewrite H2.
    repeat split; [exact H1 | lia | exact H3].
Qed.

Lemma recovers_after_failures_witness :
  let out := fetchJson bool fails_twice (js "https://example.com/jobs") 3 [] in
  fst out = Ok true
  /\ attempts_made [] (snd out) = 3
  /\ delays (snd out) = [1000; 2000].
Proof.
  intros out.
  destruct (recovers_after_failures bool fails_twice unit (fun _ => js "{}")
              (js "https://example.com/jobs") tt 3 [] 2 ltac:(lia)) as (H & _).
  apply (H (mkResponse 200 (js "OK") 5 (Ok true))).
  - intros i Hi. exists (mkResponse 500 (js "Internal Server Error") 5
                           (Throw (NativeError (js "SyntaxError") []))).
    destruct i as [|[|i]]; [| |lia]; (split; [split; [simpl; lia | reflexivity] | simpl; lia]).
  - split; [simpl; lia | reflexivity].
  - reflexivity.
Defined.

(** X6: with the default budget of 3 the waits of one call add up to at
    most 6000 ms for [fetchJson] and 7000 ms for [postJson], whatever the
    upstream does, and no single wait is shorter than 1000 ms. *)
Theorem total_wait_bounded :
  forall (T : Type) (server : nat -> Request -> Reply T)
         (Body : Type) (JSON_stringify : Body -> jsstring)
         (url : jsstring) (body : Body) (w : World),
    (exists waits,
        delays (snd (fetchJson T server url 3 w)) = delays w ++ waits
        /\ total_wait waits <= 6000
        /\ Forall (fun d => 1000 <= d) waits)
    /\ (exists waits,
        delays (snd (postJson T server Body JSON_stringify url body 3 w)) = delays w ++ waits
        /\ total_wait waits <= 7000
        /\ Forall (fun d => 1000 <= d) waits).
Proof.
  intros T server Body JSON_stringify url body w.
  pose proof (fetchJson_run server url 3 w) as Rg.
  pose proof (postJson_run server JSON_stringify url body 3 w) as Rp.
  pose proof (run_delays _ _ _ _ _ _ _ _ Rg) as Dg.
  pose proof (run_delays _ _ _ _ _ _ _ _ Rp) as Dp.
  pose proof (run_attempts_bound _ _ _ _ _ _ _ _ Rg) as [Lg Bg].
  pose proof (run_attempts_bound _ _ _ _ _ _ _ _ Rp) as [Lp Bp].
  rewrite retry_delays_fetchJson in Dg by lia.
  rewrite retry_delays_postJson in Dp by lia.
  split; eexists; (split; [eassumption|]); split.
  - etransitivity; [apply total_wait_firstn_le; repeat constructor; lia | simpl; lia].
  - apply Forall_firstn_keep. repeat constructor; lia.
  - etransitivity; [apply total_wait_firstn_le; repeat constructor; lia | simpl; lia].
  - apply Forall_firstn_keep. repeat constructor; lia.
Qed.

(** X7: a call only appends to the trace, and every attempt of it sends the
    same request: [fetchJson] a GET of the URL with the [accept] header and no
    body, [postJson] a POST of the URL with the JSON headers and the
    stringified body. *)
Theorem every_attempt_same_request :
  forall (T : Type) (server : nat -> Request -> Reply T)
         (Body : Type) (JSON_stringify : Body -> jsstring)
         (url : jsstring) (body : Body) (retries : Z) (w : World),
    (exists new,
        snd (fetchJson T server url retries w) = w ++ new
        /\ sends_only (mkRequest GET url [(js "accept", js "application/json")] None) new)
    /\ (exists new,
        snd (postJson T server Body JSON_stringify url body retries w) = w ++ new
        /\ sends_only (mkRequest POST url
                         [(js "Content-Type", js "application/json");
                          (js "accept", js "application/json")]
                         (Some (JSON_stringify body))) new).
Proof.
  intros T server Body JSON_stringify url body retries w. split.
  - exact (run_sends_only _ _ _ _ _ _ _ _ (fetchJson_run server url retries w)).
  - exact (run_sends_only _ _ _ _ _ _ _ _
             (postJson_run server JSON_stringify url body retries w)).
Qed.

(** ** The characters of a query *)

Lemma js_well_formed (s : string) : well_formed (js s).
Proof.
  unfold well_formed, js. apply Forall_map, Forall_forall. intros a _.
  pose proof (N_ascii_bounded a). lia.
Qed.

Lemma code_points_range_aux (n : nat) : forall s,
  (List.length s <= n)%nat -> well_formed s ->
  Forall (fun cp => 0 <= cp <= 1114111) (code_points s).
Proof.
  induction n as [|n IH]; intros s Hn Hs.
  - destruct s; [constructor | simpl in Hn; lia].
  - destruct s as [|c rest]; [constructor|].
    inversion Hs as [|? ? Hc Hrest]; subst. simpl in Hn.
    assert (IHrest : Forall (fun cp => 0 <= cp <= 1114111) (code_points rest))
      by (apply IH; [lia | exact Hrest]).
    cbn [code_points].
    destruct ((55296 <=? c) && (c <=? 56319)) eqn:Hhigh.
    + apply andb_prop in Hhigh as [H1 H2]. apply Z.leb_le in H1, H2.
      destruct rest as [|d rest']; [repeat constructor; lia|].
      destruct ((56320 <=? d) && (d <=? 57343)) eqn:Hlow.
      * apply andb_prop in Hlow as [H3 H4]. apply Z.leb_le in H3, H4.
        inversion Hrest; subst. constructor; [lia|].
        apply IH; [simpl in Hn; lia | assumption].
      * constructor; [lia | exact IHrest].
    + destruct ((56320 <=? c) && (c <=? 57343)); constructor; try lia; exact IHrest.
Qed.

Lemma code_points_range s :
  well_formed s -> Forall (fun cp => 0 <= cp <= 1114111) (code_points s).
Proof. apply (code_points_range_aux (List.length s)). lia. Qed.

Lemma utf8_encode_range cp :
  0 <= cp <= 1114111 -> Forall (fun b => 0 <= b <= 255) (utf8_encode cp).
Proof.
  intros Hcp. unfold utf8_encode.
  destruct (Z.ltb_spec cp 128); [repeat constructor; lia|].
  destruct (Z.ltb_spec cp 2048).
  { repeat constructor; try (pose proof (Z.mod_pos_bound cp 64); lia);
      try (assert (0 <= cp / 64 < 32)
             by (split; [apply Z.div_pos; lia | apply Z.div_lt_upper_bound; lia]); lia). }
  destruct (Z.ltb_spec cp 65536).
  { repeat constructor;
      try (pose proof (Z.mod_pos_bound cp 64); pose proof (Z.mod_pos_bound (cp / 64) 64); lia);
      try (assert (0 <= cp / 4096 < 16)
             by (split; [apply Z.div_pos; lia | apply Z.div_lt_upper_bound; lia]); lia). }
  repeat constructor;
    try (pose proof (Z.mod_pos_bound cp 64); pose proof (Z.mod_pos_bound (cp / 64) 64);
         pose proof (Z.mod_pos_bound (cp / 4096) 64); lia);
    try (assert (0 <= cp / 262144 < 5)
           by (split; [apply Z.div_pos; lia | apply Z.div_lt_upper_bound; lia]); lia).
Qed.

Lemma hex_digit_encoded d : 0 <= d < 16 -> encoded_char (hex_digit d) = true.
Proof.
  intros Hd. unfold hex_digit, encoded_char, is_alphanumeric.
  destruct (Z.ltb_spec d 10).
  - replace ((48 <=? 48 + d) && (48 + d <=? 57)) with true; [reflexivity|].
    symmetry. apply andb_true_intro. split; apply Z.leb_le; lia.
  - replace ((65 <=? 55 + d) && (55 + d <=? 90)) with true;
      [now rewrite orb_true_r|].
    symmetry. apply andb_true_intro. split; apply Z.leb_le; lia.
Qed.

Lemma urlencode_byte_encoded b :
  0 <= b <= 255 -> forallb encoded_char (urlencode_byte b) = true.
Proof.
  intros Hb. unfold urlencode_byte.
  destruct (is_alphanumeric b || (b =? 42) || (b =? 45) || (b =? 46) || (b =? 95)) eqn:E.
  - simpl. unfold encoded_char. rewrite E. reflexivity.
  - destruct (b =? 32); [reflexivity|]. cbn [forallb].
    rewrite !hex_digit_encoded; [reflexivity | |].
    + apply Z.mod_pos_bound. lia.
    + split; [apply Z.div_pos; lia | apply Z.div_lt_upper_bound; lia].
Qed.

Lemma forallb_flat_map {A B} (p : B -> bool) (f : A -> list B) (P : A -> Prop) (l : list A) :
  (forall a, P a -> forallb p (f a) = true) -> Forall P l ->
  forallb p (flat_map f l) = true.
Proof.
  intros Hf Hl. induction Hl as [|a l Ha _ IH]; simpl; [reflexivity|].
  rewrite forallb_app, (Hf a Ha), IH. reflexivity.
Qed.

Lemma Forall_flat_map_range {A B} (Q : B -> Prop) (f : A -> list B) (P : A -> Prop)
    (l : list A) :
  (forall a, P a -> Forall Q (f a)) -> Forall P l -> Forall Q (flat_map f l).
Proof.
  intros Hf Hl. induction Hl as [|a l Ha _ IH]; simpl; [constructor|].
  apply Forall_app. split; [now apply Hf | exact IH].
Qed.

(** A name or a value is encoded with the safe characters only. *)
Lemma urlencode_encoded s : well_formed s -> forallb encoded_char (urlencode s) = true.
Proof.
  intros Hs. unfold urlencode.
  apply (forallb_flat_map _ _ (fun b => 0 <= b <= 255)); [apply urlencode_byte_encoded|].
  apply (Forall_flat_map_range _ _ (fun cp => 0 <= cp <= 1114111));
    [apply utf8_encode_range | now apply code_points_range].
Qed.

Lemma forallb_weaken {A} (p q : A -> bool) (l : list A) :
  (forall a, p a = true -> q a = true) -> forallb p l = true -> forallb q l = true.
Proof.
  intros Hpq. induction l as [|a l IH]; simpl; [reflexivity|].
  intros H. apply andb_prop in H as [Ha Hl]. now rewrite (Hpq a Ha), IH.
Qed.

Lemma occurrences_of_app c s t :
  occurrences_of c (s ++ t) = occurrences_of c s + occurrences_of c t.
Proof. unfold occurrences_of, jslength. rewrite filter_app, length_app. lia. Qed.

Lemma occurrences_of_encoded c s :
  encoded_char c = false -> forallb encoded_char s = true -> occurrences_of c s = 0.
Proof.
  intros Hc. induction s as [|x s IH]; simpl; [reflexivity|].
  intros H. apply andb_prop in H as [Hx Hs]. unfold occurrences_of in *. simpl.
  destruct (Z.eqb_spec c x) as [->|_]; [congruence | now apply IH].
Qed.

Lemma join_cons2 sep (x y : jsstring) l :
  join sep (x :: y :: l) = x ++ sep ++ join sep (y :: l).
Proof. reflexivity. Qed.

(** The serialised list has one [=] per pair and one [&] between two
    pairs, and nothing else besides the encoded names and values. *)
Lemma serialize_separators l :
  Forall (fun p => well_formed (fst p) /\ well_formed (snd p)) l ->
  forallb (fun c => encoded_char c || (c =? 61) || (c =? 38)) (urlencoded_serialize l) = true
  /\ occurrences_of 61 (urlencoded_serialize l) = jslength l
  /\ occurrences_of 38 (urlencoded_serialize l) = Z.max 0 (jslength l - 1).
Proof.
  unfold urlencoded_serialize.
  induction 1 as [|[k v] l [Hk Hv] Hl (IH1 & IH2 & IH3)]; [repeat split|].
  cbn [fst snd] in Hk, Hv.
  assert (Hpair : forallb (fun c => encoded_char c || (c =? 61) || (c =? 38))
                    (urlencode k ++ js "=" ++ urlencode v) = true
                  /\ occurrences_of 61 (urlencode k ++ js "=" ++ urlencode v) = 1
                  /\ occurrences_of 38 (urlencode k ++ js "=" ++ urlencode v) = 0).
  { pose proof (urlencode_encoded k Hk) as Ek. pose proof (urlencode_encoded v Hv) as Ev.
    rewrite !forallb_app, !occurrences_of_app,
      (occurrences_of_encoded 61 _ eq_refl Ek), (occurrences_of_encoded 61 _ eq_refl Ev),
      (occurrences_of_encoded 38 _ eq_refl Ek), (occurrences_of_encoded 38 _ eq_refl Ev).
    split; [|split; reflexivity].
    assert (W : forall t, forallb encoded_char t = true ->
                forallb (fun c => encoded_char c || (c =? 61) || (c =? 38)) t = true)
      by (intros t; apply forallb_weaken; intros c ->; reflexivity).
    rewrite (W _ Ek), (W _ Ev). reflexivity. }
  destruct Hpair as (P1 & P2 & P3).
  cbn [map fst snd]. set (x := urlencode k ++ js "=" ++ urlencode v) in *.
  destruct l as [|p l].
  - cbn [map join]. unfold jslength. simpl List.length.
    repeat split; assumption.
  - rewrite map_cons in *. rewrite join_cons2.
    set (rest := join (js "&") _) in *.
    rewrite !forallb_app, !occurrences_of_app, P1, P2, P3, IH1, IH2, IH3.
    unfold jslength. cbn [List.length]. repeat split; try reflexivity.
    + change (occurrences_of 61 (js "&")) with 0. lia.
    + change (occurrences_of 38 (js "&")) with 1. lia.
Qed.

Lemma param_pairs_well_formed entry :
  well_formed (fst entry) /\ well_formed_value (snd entry) ->
  Forall (fun p => well_formed (fst p) /\ well_formed (snd p)) (param_pairs entry).
Proof.
  destruct entry as [key value]. intros [Hk Hv]. cbn [fst snd] in Hk, Hv.
  unfold param_pairs, effect. cbn [fst snd app].
  destruct value as [|s|n|b|vs]; cbn [String_value well_formed_value] in *;
    try (repeat constructor; try assumption).
  - apply js_well_formed.
  - destruct b; apply js_well_formed.
  - induction Hv as [|v vs Hv _ IH]; simpl; constructor; [split; assumption | exact IH].
Qed.

(** X8: on a URL that the parser accepts without a query, and for
    parameters made of UTF-16 code units of which at least one writes,
    [buildUrl] returns the parsed URL with a query in which every name and
    value is encoded with alphanumerics and [*-._+%] only: the query has one
    [=] per pair and one [&] between two pairs, so no value can add a
    parameter, a fragment or a second query of its own. *)
Theorem buildUrl_query_is_safe :
  forall (new_URL : jsstring -> option URL) (base path : jsstring)
         (params : Params) (u : URL),
    new_URL (base ++ path) = Some u ->
    searchParams u = [] ->
    NoDup (map fst params) ->
    existsb writes params = true ->
    Forall (fun entry => well_formed (fst entry) /\ well_formed_value (snd entry)) params ->
    exists query,
      buildUrl new_URL base path params
      = Ok (url_base u ++ js "?" ++ query
              ++ match url_fragment u with Some f => js "#" ++ f | None => [] end)
      /\ forallb (fun c => encoded_char c || (c =? 61) || (c =? 38)) query = true
      /\ occurrences_of 61 query = jslength (flat_map param_pairs params)
      /\ occurrences_of 38 query = jslength (flat_map param_pairs params) - 1
      /\ occurrences_of 35 query = 0
      /\ occurrences_of 63 query = 0.
Proof.
  intros new_URL base path params u Hparse Hfresh Hnd Hw Hwf.
  destruct (buildUrl_accepted new_URL base path params u Hparse Hnd)
    as (u' & Hb & Hbase & Hfrag & _ & _ & Hflat & Hq & _).
  specialize (Hflat Hfresh). specialize (Hq Hw).
  exists (urlencoded_serialize (searchParams u')).
  split; [rewrite Hb; unfold URL_toString; rewrite Hq, Hbase, Hfrag; reflexivity|].
  rewrite Hflat.
  assert (Hpairs : Forall (fun p => well_formed (fst p) /\ well_formed (snd p))
                     (flat_map param_pairs params)).
  { apply (Forall_flat_map_range _ _
             (fun entry => well_formed (fst entry) /\ well_formed_value (snd entry)));
      [apply param_pairs_well_formed | exact Hwf]. }
  destruct (serialize_separators _ Hpairs) as (S1 & S2 & S3).
  assert (Hne : flat_map param_pairs params <> []).
  { pose proof (fold_writes params [] Hw) as H.
    rewrite fold_fresh in H; [exact H | exact Hnd | intros k _ []]. }
  assert (Hlen : 0 < jslength (flat_map param_pairs params)).
  { unfold jslength. destruct (flat_map param_pairs params); [congruence | simpl; lia]. }
  split; [exact S1|]. split; [exact S2|]. split; [rewrite S3; lia|].
  assert (Hnone : forall c, encoded_char c || (c =? 61) || (c =? 38) = false ->
                    occurrences_of c (urlencoded_serialize (flat_map param_pairs params)) = 0).
  { intros c Hc. revert S1. generalize (urlencoded_serialize (flat_map param_pairs params)).
    intros l. induction l as [|x l IH]; [reflexivity|]. simpl. intros H.
    apply andb_prop in H as [Hx Hl]. unfold occurrences_of in *. simpl.
    destruct (Z.eqb_spec c x) as [->|_]; [congruence | now apply IH]. }
  split; apply Hnone; reflexivity.
Qed.

Lemma buildUrl_query_is_safe_witness :
  exists query,
    buildUrl reference_new_URL (js "https://example.com") (js "/search")
             [(js "q", PString (js "a&b=c #d?"))]
    = Ok (js "https://example.com/search" ++ js "?" ++ query)
    /\ occurrences_of 61 query = 1
    /\ occurrences_of 38 query = 0
    /\ occurrences_of 35 query = 0.
Proof.
  destruct (buildUrl_query_is_safe reference_new_URL (js "https://example.com") (js "/search")
              [(js "q", PString (js "a&b=c #d?"))]
              (mkURL (js "https://example.com/search") None None []))
    as (query & Hb & _ & H61 & H38 & H35 & _).
  - vm_compute. reflexivity.
  - reflexivity.
  - repeat constructor; simpl; intuition discriminate.
  - reflexivity.
  - constructor; [split; apply js_well_formed | constructor].
  - exists query. cbn [url_base url_fragment] in Hb. rewrite List.app_nil_r in Hb.
    split; [exact Hb|]. split; [exact H61|]. split; [exact H38 | exact H35].
Defined.

(** ** Formatting a listing *)

Lemma slice0_app_exact n (s t : jsstring) :
  jslength s = n -> slice0 n (s ++ t) = s.
Proof.
  intros Hn. unfold slice0, jslength in *.
  replace (Z.to_nat n) with (List.length s + 0)%nat by lia.
  rewrite firstn_app_2. simpl. apply List.app_nil_r.
Qed.

Lemma slice0_slice0 n (s : jsstring) : slice0 n (slice0 n s) = slice0 n s.
Proof. unfold slice0. rewrite firstn_firstn. f_equal. lia. Qed.

Lemma truncateIfNeeded_bound text :
  jslength (truncateIfNeeded text) <= CHARACTER_LIMIT + 25.
Proof.
  unfold truncateIfNeeded.
  destruct (Z.gtb_spec (jslength text) CHARACTER_LIMIT) as [Hgt|Hle]; [|lia].
  rewrite jslength_app, jslength_slice0 by (unfold CHARACTER_LIMIT; lia).
  change (jslength truncation_marker) with 25. lia.
Qed.

Lemma truncateIfNeeded_twice text :
  truncateIfNeeded (truncateIfNeeded text) = truncateIfNeeded text
  /\ slice0 CHARACTER_LIMIT (truncateIfNeeded text) = slice0 CHARACTER_LIMIT text.
Proof.
  unfold truncateIfNeeded.
  destruct (Z.gtb_spec (jslength text) CHARACTER_LIMIT) as [Hgt|Hle].
  - assert (Hs : jslength (slice0 CHARACTER_LIMIT text) = CHARACTER_LIMIT)
      by (rewrite jslength_slice0 by (unfold CHARACTER_LIMIT; lia); lia).
    assert (Hlong : jslength (slice0 CHARACTER_LIMIT text ++ truncation_marker)
                    > CHARACTER_LIMIT).
    { rewrite jslength_app, Hs. change (jslength truncation_marker) with 25. lia. }
    destruct (Z.gtb_spec (jslength (slice0 CHARACTER_LIMIT text ++ truncation_marker))
                CHARACTER_LIMIT) as [_|Hle]; [|lia].
    rewrite (slice0_app_exact _ _ _ Hs). split; reflexivity.
  - destruct (Z.gtb_spec (jslength text) CHARACTER_LIMIT) as [Hgt|_]; [lia|].
    split; reflexivity.
Qed.

(** X9: [truncateIfNeeded] is idempotent, and it never alters the first
    50000 code units of a text: a text that was cut once, marker included,
    goes through a second call unchanged. *)
Theorem truncateIfNeeded_idempotent :
  forall text : jsstring,
    truncateIfNeeded (truncateIfNeeded text) = truncateIfNeeded text
    /\ slice0 CHARACTER_LIMIT (truncateIfNeeded text) = slice0 CHARACTER_LIMIT text.
Proof. exact truncateIfNeeded_twice. Qed.

(** X10: [formatJobAdFull] cuts its text as [truncateIfNeeded] does: the
    result is [truncateIfNeeded] of the joined lines, it never has more than
    50025 code units, a further [truncateIfNeeded] leaves it unchanged, and a
    listing that carries only the mandatory fields, short enough, is rendered
    as its heading and its ID. *)
Theorem formatJobAdFull_truncated :
  forall ad : JobAd,
    formatJobAdFull ad = truncateIfNeeded (join [10] (full_lines ad))
    /\ jslength (formatJobAdFull ad) <= CHARACTER_LIMIT + 25
    /\ truncateIfNeeded (formatJobAdFull ad) = formatJobAdFull ad
    /\ (forall i h,
          ad = bare_ad i h ->
          jslength h + jslength i + 11 <= CHARACTER_LIMIT ->
          formatJobAdFull ad = js "# " ++ h ++ [10] ++ js "**ID:** " ++ i).
Proof.
  intros ad.
  assert (E : formatJobAdFull ad = truncateIfNeeded (join [10] (full_lines ad)))
    by reflexivity.
  split; [exact E|]. rewrite E.
  split; [apply truncateIfNeeded_bound|].
  split; [apply truncateIfNeeded_twice|].
  intros i h -> Hlen.
  change (join [10] (full_lines (bare_ad i h)))
    with ((js "# " ++ h) ++ [10] ++ js "**ID:** " ++ i).
  unfold truncateIfNeeded.
  destruct (Z.gtb_spec (jslength ((js "# " ++ h) ++ [10] ++ js "**ID:** " ++ i))
              CHARACTER_LIMIT) as [Hgt|_].
  - rewrite !jslength_app in Hgt.
    change (jslength (js "# ")) with 2 in Hgt. change (jslength [10]) with 1 in Hgt.
    change (jslength (js "**ID:** ")) with 8 in Hgt. lia.
  - now rewrite <- List.app_assoc.
Qed.

Lemma formatJobAdFull_truncated_witness :
  formatJobAdFull (bare_ad (js "29384756") (js "Sjukskoterska till akuten"))
  = js "# Sjukskoterska till akuten" ++ [10] ++ js "**ID:** 29384756".
Proof.
  destruct (formatJobAdFull_truncated
              (bare_ad (js "29384756") (js "Sjukskoterska till akuten")))
    as (_ & _ & _ & H).
  apply (H (js "29384756") (js "Sjukskoterska till akuten") eq_refl).
  vm_compute. discriminate.
Defined.

Lemma startsWith_app (p s : jsstring) : startsWith p (p ++ s) = true.
Proof.
  induction p as [|a p IH]; simpl; [reflexivity|]. now rewrite Z.eqb_refl, IH.
Qed.

Lemma join_head sep (x : jsstring) l : exists tail, join sep (x :: l) = x ++ tail.
Proof.
  destruct l as [|y l]; [exists []; simpl; now rewrite List.app_nil_r|].
  eexists. reflexivity.
Qed.

Lemma push_if_length cond line : (List.length (push_if cond line) <= 1)%nat.
Proof. destruct cond; simpl; lia. Qed.

(** X11: [formatJobAdSummary] always begins with the headline in bold and
    the ID on the next line, has between two and eight lines before they are
    joined, and is never cut: its length is at least that of the headline and
    the ID. *)
Theorem formatJobAdSummary_shape :
  forall ad : JobAd,
    startsWith (js "**" ++ headline ad ++ js "**" ++ [10] ++ js "ID: " ++ ad_id ad)
               (formatJobAdSummary ad) = true
    /\ 2 <= jslength (summary_lines ad) <= 8
    /\ jslength (headline ad) + jslength (ad_id ad) + 9 <= jslength (formatJobAdSummary ad)
    /\ (forall i h, ad = bare_ad i h ->
          formatJobAdSummary ad = js "**" ++ h ++ js "**" ++ [10] ++ js "ID: " ++ i).
Proof.
  intros ad.
  assert (Hshape : exists tail,
             formatJobAdSummary ad
             = (js "**" ++ headline ad ++ js "**" ++ [10] ++ js "ID: " ++ ad_id ad) ++ tail).
  { unfold formatJobAdSummary, summary_lines.
    set (rest := push_if _ _ ++ _).
    change ([js "**" ++ headline ad ++ js "**"; js "ID: " ++ ad_id ad] ++ rest)
      with ((js "**" ++ headline ad ++ js "**") :: (js "ID: " ++ ad_id ad) :: rest).
    rewrite join_cons2. destruct (join_head [10] (js "ID: " ++ ad_id ad) rest) as (tail & ->).
    exists tail. now rewrite <- !List.app_assoc. }
  destruct Hshape as (tail & Hshape).
  split; [rewrite Hshape; apply startsWith_app|].
  split.
  - unfold summary_lines, jslength. rewrite !length_app.
    repeat match goal with
           | |- context [List.length (push_if ?c ?l)] =>
               let H := fresh in
               pose proof (push_if_length c l) as H;
               generalize dependent (List.length (push_if c l)); intros
           end.
    simpl. lia.
  - split.
    + rewrite Hshape, !jslength_app.
      change (jslength (js "**")) with 2. change (jslength [10]) with 1.
      change (jslength (js "ID: ")) with 4.
      assert (0 <= jslength tail) by (unfold jslength; lia). lia.
    + intros i h ->.
      change (formatJobAdSummary (bare_ad i h))
        with ((js "**" ++ h ++ js "**") ++ [10] ++ js "ID: " ++ i).
      now rewrite <- !List.app_assoc.
Qed.

Lemma formatJobAdSummary_shape_witness :
  formatJobAdSummary (bare_ad (js "29384756") (js "Sjukskoterska till akuten"))
  = js "**Sjukskoterska till akuten**" ++ [10] ++ js "ID: 29384756".
Proof.
  destruct (formatJobAdSummary_shape
              (bare_ad (js "29384756") (js "Sjukskoterska till akuten")))
    as (_ & _ & _ & H).
  exact (H (js "29384756") (js "Sjukskoterska till akuten") eq_refl).
Defined.

Lemma split_head_app sep (a b : jsstring) :
  free_of sep a -> split_head sep (a ++ sep :: b) = a.
Proof.
  induction 1 as [|c a Hc _ IH]; simpl.
  - now rewrite Z.eqb_refl.
  - destruct (Z.eqb_spec c sep); [contradiction | now rewrite IH].
Qed.

Lemma split_head_whole sep (a : jsstring) : free_of sep a -> split_head sep a = a.
Proof.
  induction 1 as [|c a Hc _ IH]; simpl; [reflexivity|].
  destruct (Z.eqb_spec c sep); [contradiction | now rewrite IH].
Qed.

(** X12: both formatters show the date of the application deadline without
    its time: for a deadline [date ++ "T" ++ time] whose date holds no [T] the
    line of the deadline ends with [date], and a deadline without any [T] is
    shown whole. *)
Theorem deadline_shows_date_only :
  forall (ad : JobAd) (date time : jsstring),
    free_of 84 date ->
    (application_deadline ad = Some (date ++ [84] ++ time) ->
     In (js "Sista ans" ++ [246] ++ js "kningsdag: " ++ date) (summary_lines ad)
     /\ In (js "**Sista ans" ++ [246] ++ js "kningsdag:** " ++ date) (full_lines ad))
    /\ (application_deadline ad = Some date -> date <> [] ->
        In (js "Sista ans" ++ [246] ++ js "kningsdag: " ++ date) (summary_lines ad)
        /\ In (js "**Sista ans" ++ [246] ++ js "kningsdag:** " ++ date) (full_lines ad)).
Proof.
  intros ad date time Hfree. split.
  - intros Hd. unfold summary_lines, full_lines. rewrite Hd.
    assert (Ht : truthy_string (Some (date ++ [84] ++ time)) = true)
      by (destruct date; reflexivity).
    rewrite Ht. cbn [template push_if].
    change (date ++ [84] ++ time) with (date ++ 84 :: time).
    rewrite (split_head_app 84 date time Hfree).
    split.
    + do 5 (apply in_or_app; right). apply in_or_app; left. now left.
    + do 12 (apply in_or_app; right). apply in_or_app; left. now left.
  - intros Hd Hne. unfold summary_lines, full_lines. rewrite Hd.
    assert (Ht : truthy_string (Some date) = true)
      by (destruct date; [congruence | reflexivity]).
    rewrite Ht. cbn [template push_if].
    rewrite (split_head_whole 84 date Hfree).
    split.
    + do 5 (apply in_or_app; right). apply in_or_app; left. now left.
    + do 12 (apply in_or_app; right). apply in_or_app; left. now left.
Qed.

Lemma deadline_shows_date_only_witness :
  In (js "Sista ans" ++ [246] ++ js "kningsdag: 2024-06-30") (summary_lines closing_ad)
  /\ In (js "**Sista ans" ++ [246] ++ js "kningsdag:** 2024-06-30") (full_lines closing_ad).
Proof.
  destruct (deadline_shows_date_only closing_ad (js "2024-06-30") (js "23:59:59")) as (H & _).
  - repeat constructor; discriminate.
  - exact (H eq_refl).
Defined.

(** ** The client under the tools *)

Section ClientMore.

Context {T : Type} (server : nat -> Request -> Reply T).

Lemma fetchJson_attempts_bound url retries w :
  1 <= attempts_made w (snd (fetchJson T server url retries w)) <= 1 + Z.max 0 retries.
Proof.
  pose proof (run_attempts_bound _ _ _ _ _ _ _ _ (fetchJson_run server url retries w)).
  unfold attempts_made. lia.
Qed.

Lemma fetchJson_first_client_error url retries w r :
  responds server (get_request url) (attempts w) r -> client_error r ->
  fetchJson T server url retries w
  = (Throw (http_error T (js "API request failed: ") r url),
     w ++ [Fetched (get_request url) (Answered (status r))]).
Proof.
  intros Hr (Hok & H429 & H5).
  exact (run_first_client_error _ _ _ _ _ _ _ _ _ Hr H429 H5 Hok
           (fetchJson_run server url retries w)).
Qed.

Lemma fetchJson_first_timeout url retries w :
  10000 <= latency (server (attempts w) (get_request url)) ->
  fetchJson T server url retries w
  = (Throw (timeout_error url), w ++ [Fetched (get_request url) Aborted]).
Proof.
  intros Hl. exact (run_first_timeout _ _ _ _ _ _ _ _ Hl (fetchJson_run server url retries w)).
Qed.

End ClientMore.

Lemma attempts_made_snoc w rq a : attempts_made w (w ++ [Fetched rq a]) = 1.
Proof. unfold attempts_made. rewrite attempts_snoc_fetch. lia. Qed.

(** ** Reading items that may be null *)

Lemma read_items_Ok {A} property (items : list (option A)) l :
  read_items property items = Ok l -> items = map Some l.
Proof.
  revert l. induction items as [|[a|] items IH]; intros l; cbn [read_items].
  - intros H. injection H as <-. reflexivity.
  - destruct (read_items property items) as [l'|e]; [|discriminate].
    intros H. injection H as <-. cbn [map]. now rewrite (IH l' eq_refl).
  - discriminate.
Qed.

Lemma read_items_Throw {A} property (items : list (option A)) e :
  read_items property items = Throw e <-> In None items /\ e = null_read property.
Proof.
  induction items as [|[a|] items IH]; cbn [read_items].
  - split; [discriminate | intros [[] _]].
  - destruct (read_items property items) as [l'|e'].
    + split; [discriminate|]. intros [[H|H] He]; [discriminate|].
      discriminate (proj2 IH (conj H He)).
    + split.
      * intros H. injection H as ->. destruct (proj1 IH eq_refl) as [Hin He].
        split; [now right | exact He].
      * intros [[H|H] He]; [discriminate|]. exact (proj2 IH (conj H He)).
  - split.
    + intros H. injection H as <-. split; [now left | reflexivity].
    + intros [_ ->]. reflexivity.
Qed.

Lemma read_items_some {A} property (l : list A) :
  read_items property (map Some l) = Ok l.
Proof. induction l as [|a l IH]; cbn [map read_items]; [reflexivity | now rewrite IH]. Qed.

(** ** Searching the taxonomy *)

(** X13: once its URL is accepted, [af_search_taxonomy] fetches that URL,
    makes at most 4 attempts, and turns every rejection of the fetch into a
    result with [isError] and no payload: the text [An error occurred: ] with
    the message of an [Error], or [An unknown error occurred.].  A first
    response that is a client error (a 404, say) is so reported with its
    status, a timeout with the timeout message, each after the one attempt.
    The handler itself rejects exactly when the fetched body is an array that
    holds a [null], with the [TypeError] of the read, which is outside the
    [try] block.  A payload has [count] equal to the number of its concepts,
    which are those of the body and not none, and goes with a text of at most
    50000 code units. *)
Theorem search_taxonomy_failures :
  forall (new_URL : jsstring -> option URL) (taxonomy : nat -> Request -> Reply SuggestBody)
         (q : jsstring) (type_ : option jsstring) (limit : Z) (w : World) (u : URL),
    new_URL (TAXONOMY_BASE_URL ++ js "/v1/taxonomy/suggesters/autocomplete") = Some u ->
    let out := af_search_taxonomy new_URL taxonomy q type_ limit w in
    let error_result (text : jsstring) : JsResult (ToolResult SearchTaxonomyPayload) :=
      Ok (mkToolResult [text] None true) in
    exists url,
      buildTaxonomyUrl new_URL (js "/v1/taxonomy/suggesters/autocomplete")
        ([(js "query-string", PString q); (js "limit", PNumber limit)]
         ++ match type_ with
            | Some (c :: t) => [(js "type", PString (c :: t))]
            | _ => []
            end) = Ok url
      /\ snd out = snd (taxonomyFetch SuggestBody taxonomy url w)
      /\ 1 <= attempts_made w (snd out) <= 4
      /\ (forall e, fst (taxonomyFetch SuggestBody taxonomy url w) = Throw e ->
            fst out = error_result (if instanceof_Error e
                                    then js "An error occurred: " ++ err_message e
                                    else js "An unknown error occurred."))
      /\ (forall e, fst out = Throw e <->
            exists items,
              fst (taxonomyFetch SuggestBody taxonomy url w) = Ok (Some items)
              /\ In None items
              /\ e = NativeError (js "TypeError")
                       (js "Cannot read properties of null (reading 'taxonomy/id')"))
      /\ (forall t p, fst out = Ok t -> structuredContent t = Some p ->
            isError t = false
            /\ taxonomy_query p = q
            /\ taxonomy_count p = jslength (taxonomy_concepts p)
            /\ 0 < taxonomy_count p
            /\ Forall (fun block => jslength block <= CHARACTER_LIMIT) (content t)
            /\ exists items,
                 fst (taxonomyFetch SuggestBody taxonomy url w) = Ok (Some (map Some items))
                 /\ map conceptId (taxonomy_concepts p) = map taxonomy_id items
                 /\ map preferredLabel (taxonomy_concepts p)
                    = map taxonomy_preferred_label items)
      /\ (forall r, responds taxonomy (get_request url) (attempts w) r -> client_error r ->
            fst out = error_result (js "An error occurred: API request failed: "
                                      ++ String_number (status r) ++ js " " ++ statusText r)
            /\ attempts_made w (snd out) = 1)
      /\ (10000 <= latency (taxonomy (attempts w) (get_request url)) ->
            fst out = error_result (js "An error occurred: Timeout after 10s for " ++ url)
            /\ attempts_made w (snd out) = 1).
Proof.
  intros new_URL taxonomy q type_ limit w u Hparse out error_result.
  assert (Hparams : [(js "query-string", PString q); (js "limit", PNumber limit)]
                    ++ (if truthy_string type_ then [(js "type", PString (template type_))]
                        else [])
                    = [(js "query-string", PString q); (js "limit", PNumber limit)]
                      ++ match type_ with
                         | Some (c :: t) => [(js "type", PString (c :: t))]
                         | _ => []
                         end)
    by (destruct type_ as [[|c t]|]; reflexivity).
  unfold out, af_search_taxonomy. rewrite Hparams.
  unfold buildTaxonomyUrl, buildUrl. rewrite Hparse.
  set (url := URL_toString _). exists url. split; [reflexivity|].
  unfold taxonomyFetch.
  pose proof (fetchJson_attempts_bound taxonomy url 3 w) as Hbound.
  assert (Hmsg : null_read (js "taxonomy/id")
                 = NativeError (js "TypeError")
                     (js "Cannot read properties of null (reading 'taxonomy/id')"))
    by reflexivity.
  split; [|split; [|split; [|split; [|split; [|split]]]]].
  - destruct (fetchJson SuggestBody taxonomy url 3 w) as [[data|err] w1].
    + destruct data as [[|x xs]|]; try reflexivity.
      destruct (read_items (js "taxonomy/id") (x :: xs)); reflexivity.
    + destruct (instanceof_Error err); reflexivity.
  - destruct (fetchJson SuggestBody taxonomy url 3 w) as [[data|err] w1].
    + destruct data as [[|x xs]|]; cbn [snd] in *; try lia.
      destruct (read_items (js "taxonomy/id") (x :: xs)); cbn [snd]; lia.
    + destruct (instanceof_Error err); cbn [snd] in *; lia.
  - intros e. destruct (fetchJson SuggestBody taxonomy url 3 w) as [[data|err] w1];
      cbn [fst]; [discriminate|].
    intros H. injection H as <-. destruct (instanceof_Error err); reflexivity.
  - intros e. destruct (fetchJson SuggestBody taxonomy url 3 w) as [[data|err] w1];
      cbn [fst].
    + destruct data as [[|x xs]|].
      * split; [discriminate|]. intros (items & H & Hin & _).
        injection H as <-. destruct Hin.
      * destruct (read_items (js "taxonomy/id") (x :: xs)) as [items|e'] eqn:E; cbn [fst].
        -- split; [discriminate|]. intros (items' & H & Hin & He).
           injection H as <-.
           assert (Hthrow : read_items (js "taxonomy/id") (x :: xs) = Throw e)
             by (apply read_items_Throw; split; [exact Hin | now rewrite Hmsg]).
           congruence.
        -- apply read_items_Throw in E as [Hin He]. split.
           ++ intros H. injection H as <-. exists (x :: xs).
              split; [reflexivity|]. split; [exact Hin | now rewrite He, Hmsg].
           ++ intros (items' & _ & _ & ->). now rewrite He, Hmsg.
      * split; [discriminate|]. intros (items & H & _). discriminate H.
    + destruct (instanceof_Error err); (split; [discriminate|]);
        intros (items & H & _); discriminate H.
  - intros t p. destruct (fetchJson SuggestBody taxonomy url 3 w) as [[data|err] w1];
      cbn [fst].
    + destruct data as [[|x xs]|];
        try (intros H; injection H as <-; discriminate).
      destruct (read_items (js "taxonomy/id") (x :: xs)) as [items|e'] eqn:E; cbn [fst];
        [|discriminate].
      intros H Hp. injection H as <-. cbn [structuredContent] in Hp. injection Hp as <-.
      cbn [isError taxonomy_query taxonomy_count taxonomy_concepts content].
      pose proof (read_items_Ok _ _ _ E) as Hitems.
      split; [reflexivity|]. split; [reflexivity|]. split; [reflexivity|].
      split.
      { destruct items as [|i items]; [discriminate Hitems|].
        unfold jslength. cbn [map List.length]. lia. }
      split.
      { constructor; [|constructor].
        rewrite jslength_slice0 by (unfold CHARACTER_LIMIT; lia). lia. }
      exists items. rewrite Hitems, !map_map. repeat split.
    + destruct (instanceof_Error err); intros H; injection H as <-; discriminate.
  - intros r Hr Hce.
    rewrite (fetchJson_first_client_error taxonomy url 3 w r Hr Hce).
    cbn [instanceof_Error http_error fst snd err_message].
    split; [reflexivity | apply attempts_made_snoc].
  - intros Hl. rewrite (fetchJson_first_timeout taxonomy url 3 w Hl).
    cbn [instanceof_Error timeout_error fst snd err_message].
    split; [reflexivity | apply attempts_made_snoc].
Qed.

Lemma search_taxonomy_failures_witness :
  fst (af_search_taxonomy reference_new_URL missing_suggestions (js "nurse") None 20 [])
  = Ok (mkToolResult [js "An error occurred: API request failed: 404 Not Found"] None true)
  /\ fst (af_search_taxonomy reference_new_URL null_suggestion (js "nurse") None 20 [])
     = Throw (NativeError (js "TypeError")
                (js "Cannot read properties of null (reading 'taxonomy/id')")).
Proof.
  destruct (search_taxonomy_failures reference_new_URL missing_suggestions (js "nurse")
              None 20 []
              (mkURL (js "https://taxonomy.api.jobtechdev.se/v1/taxonomy/suggesters/autocomplete")
                     None None []))
    as (url & _ & _ & _ & _ & _ & _ & H & _); [vm_compute; reflexivity|].
  destruct (search_taxonomy_failures reference_new_URL null_suggestion (js "nurse")
              None 20 []
              (mkURL (js "https://taxonomy.api.jobtechdev.se/v1/taxonomy/suggesters/autocomplete")
                     None None []))
    as (url' & _ & _ & _ & _ & Hnull & _); [vm_compute; reflexivity|].
  split.
  - apply (H (mkResponse 404 (js "Not Found") 5 (Ok None))).
    + split; reflexivity.
    + split; [reflexivity | split; [discriminate | reflexivity]].
  - apply Hnull.
    exists [Some (labelled_item (js "Sjukskoterska")); None].
    split; [|split; [right; now left | reflexivity]].
    unfold taxonomyFetch.
    rewrite (fetchJson_first_ok null_suggestion url' 3 []
               (mkResponse 200 (js "OK") 5
                  (Ok (Some [Some (labelled_item (js "Sjukskoterska")); None]))));
      [reflexivity | split; reflexivity | reflexivity].
Defined.

(** ** Listing a taxonomy type, failures *)



(** ** The concept handler, failures and attempts *)

Lemma concept_catch_escapes concept_id err e :
  concept_catch concept_id err = Throw e -> instanceof_Error e = false.
Proof.
  unfold concept_catch. destruct (statusCode_is err 404); [discriminate|].
  destruct (instanceof_Error err) eqn:E; [discriminate|].
  intros H. injection H as <-. exact E.
Qed.

Lemma concept_settle_escapes concept_id all e :
  concept_settle concept_id all = Throw e -> instanceof_Error e = false.
Proof.
  unfold concept_settle. destruct all as [res|err]; [|apply concept_catch_escapes].
  destruct (concept_try concept_id res); [discriminate | apply concept_catch_escapes].
Qed.

Lemma Promise_all_picks {A} first (e1 e2 e3 e4 : JsError) :
  exists e, @Promise_all A first (Throw e1) (Throw e2) (Throw e3) (Throw e4) = Throw e
            /\ In e [e1; e2; e3; e4].
Proof.
  unfold Promise_all. cbn [rejection app]. eexists. split; [reflexivity|].
  destruct first as [|[|[|[|n]]]]; simpl; auto.
  destruct n; simpl; auto.
Qed.

(** X15: once its four URLs are built, [af_get_taxonomy_concept] lets no
    [Error] escape: whatever it rejects with is a thrown value that is no
    [Error] object.  It makes between 4 and 16 network attempts, and when the
    taxonomy answers every request with status 404 it answers with the
    not-found text after exactly four. *)
Theorem concept_errors_are_caught :
  forall (new_URL : jsstring -> option URL) (server : nat -> Request -> Reply TaxonomyBody)
         (concept_id : jsstring) (first : nat) (w : World)
         (urls : jsstring * jsstring * jsstring * jsstring),
    concept_urls new_URL concept_id = Ok urls ->
    let out := af_get_taxonomy_concept new_URL server concept_id first w in
    (forall e, fst out = Throw e -> instanceof_Error e = false)
    /\ 4 <= attempts_made w (snd out) <= 16
    /\ (forall r, (forall n rq, responds server rq n r) -> status r = 404 ->
          fst out = Ok (mkToolResult [not_found_text concept_id] None false)
          /\ attempts_made w (snd out) = 4).
Proof.
  intros new_URL server concept_id first w [[[u1 u2] u3] u4] Hurls out.
  unfold out, af_get_taxonomy_concept. rewrite Hurls.
  unfold concept_fetches, taxonomyFetch.
  split; [|split].
  - pose proof (fetchJson_attempts_bound server u1 3 w) as _.
    destruct (fetchJson TaxonomyBody server u1 3 w) as [r1 w1].
    destruct (fetchJson TaxonomyBody server u2 3 w1) as [r2 w2].
    destruct (fetchJson TaxonomyBody server u3 3 w2) as [r3 w3].
    destruct (fetchJson TaxonomyBody server u4 3 w3) as [r4 w4].
    cbn [fst]. intros e. apply concept_settle_escapes.
  - pose proof (fetchJson_attempts_bound server u1 3 w) as B1.
    destruct (fetchJson TaxonomyBody server u1 3 w) as [r1 w1].
    pose proof (fetchJson_attempts_bound server u2 3 w1) as B2.
    destruct (fetchJson TaxonomyBody server u2 3 w1) as [r2 w2].
    pose proof (fetchJson_attempts_bound server u3 3 w2) as B3.
    destruct (fetchJson TaxonomyBody server u3 3 w2) as [r3 w3].
    pose proof (fetchJson_attempts_bound server u4 3 w3) as B4.
    destruct (fetchJson TaxonomyBody server u4 3 w3) as [r4 w4].
    cbn [fst snd] in *. unfold attempts_made in *. lia.
  - intros r Hr H404.
    assert (Hce : client_error r).
    { unfold client_error, ok. rewrite H404.
      split; [reflexivity | split; [discriminate | lia]]. }
    rewrite !(fun url w => fetchJson_first_client_error server url 3 w r (Hr _ _) Hce).
    cbn [fst snd].
    destruct (Promise_all_picks (A := TaxonomyBody) first
                (http_error TaxonomyBody (js "API request failed: ") r u1)
                (http_error TaxonomyBody (js "API request failed: ") r u2)
                (http_error TaxonomyBody (js "API request failed: ") r u3)
                (http_error TaxonomyBody (js "API request failed: ") r u4))
      as (e & -> & Hin).
    split.
    + unfold concept_settle, concept_catch.
      assert (He : statusCode_is e 404 = true).
      { unfold statusCode_is.
        destruct Hin as [<-|[<-|[<-|[<-|[]]]]]; cbn; rewrite H404; reflexivity. }
      rewrite He. reflexivity.
    + unfold attempts_made. rewrite !attempts_snoc_fetch. lia.
Qed.

Lemma concept_errors_are_caught_witness :
  let out := af_get_taxonomy_concept reference_new_URL missing_taxonomy
               (js "i46j_HmG_v64") 2 [] in
  fst out = Ok (mkToolResult [not_found_text (js "i46j_HmG_v64")] None false)
  /\ attempts_made [] (snd out) = 4.
Proof.
  intros out.
  assert (exists urls, concept_urls reference_new_URL (js "i46j_HmG_v64") = Ok urls)
    as [urls Hu] by (eexists; vm_compute; reflexivity).
  destruct (concept_errors_are_caught reference_new_URL missing_taxonomy
              (js "i46j_HmG_v64") 2 [] urls Hu) as (_ & _ & H).
  apply (H (mkResponse 404 (js "Not Found") 5 (Ok None))).
  - intros n rq. split; reflexivity.
  - reflexivity.
Defined.

(** ** The job tools *)

Lemma filter_partition_length {A} (f : A -> bool) (l : list A) :
  jslength (filter (fun x => negb (f x)) l) + jslength (filter f l) = jslength l.
Proof.
  unfold jslength. rewrite <- Nat2Z.inj_add. f_equal.
  induction l as [|x l IH]; simpl; [reflexivity|].
  destruct (f x); simpl; lia.
Qed.

(** X16: a payload of [af_stream_jobs] is computed from the events of the
    fetched body, the direct array or its [events], none of them [null]:
    [total] is their number, which is not zero, [removed] the number of those
    whose [removed] flag is truthy and [new_or_updated] that of the others,
    so that [total = new_or_updated + removed]; the payload holds the first
    100 of them, in their order, and goes with a text of at most 50000 code
    units and no [isError]. *)
Theorem stream_counts_add_up :
  forall (new_URL : jsstring -> option URL) (jobstream : nat -> Request -> Reply StreamData)
         (params : StreamArgs) (w : World) (p : StreamPayload),
    structured (fst (af_stream_jobs new_URL jobstream params w)) p ->
    (exists url data w1 events,
        buildJobStreamUrl new_URL (js "/v2/stream") (stream_jobs_params params) = Ok url
        /\ jobStreamFetch StreamData jobstream url w = (Ok data, w1)
        /\ (data = StreamArray (map Some events)
            \/ data = StreamObject (Some (map Some events)))
        /\ stream_events p = firstn 100 events
        /\ stream_total p = jslength events
        /\ stream_removed p
           = jslength (filter (fun e => truthy_flag (event_removed e)) events)
        /\ stream_new_or_updated p
           = jslength (filter (fun e => negb (truthy_flag (event_removed e))) events))
    /\ stream_total p = stream_new_or_updated p + stream_removed p
    /\ 0 < stream_total p
    /\ jslength (stream_events p) = Z.min 100 (stream_total p)
    /\ exists t, fst (af_stream_jobs new_URL jobstream params w) = Ok t
                 /\ isError t = false
                 /\ Forall (fun block => jslength block <= CHARACTER_LIMIT) (content t).
Proof.
  intros new_URL jobstream params w p (t & Ht & Hp).
  unfold af_stream_jobs in *.
  destruct (buildJobStreamUrl new_URL (js "/v2/stream") (stream_jobs_params params))
    as [url|e] eqn:Hurl; [|discriminate].
  destruct (jobStreamFetch StreamData jobstream url w) as [[data|err] w1] eqn:Hfetch;
    [|discriminate].
  destruct (stream_events_of data) as [items|e] eqn:Hdata; [|discriminate].
  destruct (Z.eqb_spec (jslength items) 0) as [E|E]; cbn [fst] in *;
    [injection Ht as <-; discriminate|].
  destruct (read_items (js "removed") items) as [events|e] eqn:Hitems; [|discriminate].
  apply read_items_Ok in Hitems. subst items.
  set (shown := firstn 100 events) in *.
  cbn [fst] in *. injection Ht as <-.
  cbn [structuredContent] in Hp. injection Hp as <-.
  cbn [stream_total stream_new_or_updated stream_removed stream_events].
  assert (Hlen : jslength (map Some events) = jslength events)
    by (unfold jslength; now rewrite length_map).
  split.
  { exists url, data, w1, events. split; [reflexivity|]. split; [exact Hfetch|].
    split; [|repeat split].
    destruct data as [l|[l|]|]; cbn [stream_events_of] in Hdata;
      try discriminate; injection Hdata as Hdata.
    - left. now rewrite Hdata.
    - right. now rewrite Hdata.
    - exfalso. apply E. now rewrite <- Hdata. }
  split; [symmetry; apply filter_partition_length|].
  split; [unfold jslength in *; lia|].
  split; [unfold shown, jslength; rewrite length_firstn; lia|].
  eexists. split; [reflexivity|]. split; [reflexivity|].
  cbn [content]. constructor; [|constructor].
  rewrite jslength_slice0 by (unfold CHARACTER_LIMIT; lia). lia.
Qed.

Lemma stream_counts_add_up_witness :
  exists p,
    structured (fst (af_stream_jobs reference_new_URL three_events since_june [])) p
    /\ stream_total p = stream_new_or_updated p + stream_removed p
    /\ stream_removed p = 1
    /\ map event_id (stream_events p) = [js "1"; js "2"; js "3"].
Proof.
  eexists. split; [eexists; split; vm_compute; reflexivity|]. split.
  - refine (proj1 (proj2 (stream_counts_add_up reference_new_URL three_events since_june []
                            _ _))).
    eexists. split; vm_compute; reflexivity.
  - split; vm_compute; reflexivity.
Defined.

Lemma startsWith_app_l (p s t : jsstring) :
  startsWith p s = true -> startsWith p (s ++ t) = true.
Proof.
  revert s. induction p as [|a p IH]; intros [|b s]; simpl; try discriminate; auto.
  intros H. apply andb_prop in H as [Hab Hp]. now rewrite Hab, IH.
Qed.

Lemma includes_app_l (p s t : jsstring) :
  includes p s = true -> includes p (s ++ t) = true.
Proof.
  induction s as [|b s IH]; simpl.
  - rewrite orb_false_r. intros H. destruct p; [|discriminate].
    destruct t; reflexivity.
  - intros H. apply orb_prop in H as [H|H].
    + change (startsWith p (b :: s ++ t)) with (startsWith p ((b :: s) ++ t)).
      now rewrite (startsWith_app_l _ _ _ H).
    + rewrite (IH H). apply orb_true_r.
Qed.

Lemma includes_app_r (p s t : jsstring) :
  includes p t = true -> includes p (s ++ t) = true.
Proof.
  intros H. induction s as [|b s IH]; simpl; [exact H|].
  rewrite IH. apply orb_true_r.
Qed.

Lemma includes_prefix (p s : jsstring) : includes p (p ++ s) = true.
Proof.
  destruct (p ++ s) eqn:E; simpl.
  - destruct p; [reflexivity | discriminate].
  - rewrite <- E, startsWith_app. reflexivity.
Qed.

Lemma includes_join p sep x l :
  In x l -> includes p x = true -> includes p (join sep l) = true.
Proof.
  intros Hin Hp. induction l as [|y l IH]; [contradiction|].
  destruct l as [|z l].
  - destruct Hin as [->|[]]. exact Hp.
  - rewrite join_cons2. destruct Hin as [->|Hin].
    + now apply includes_app_l.
    + apply includes_app_r, includes_app_r. now apply IH.
Qed.

(** X17: a payload of [af_search_jobs] has [count] equal to the number of
    its hits, which is not zero, and repeats the requested offset; the total
    is the one the upstream reports, 0 when it reports none.  The text that
    goes with it is not cut: in summary mode it holds the headline of every
    hit in full, whatever its length. *)
Theorem search_jobs_payload :
  forall (new_URL : jsstring -> option URL)
         (jobsearch : nat -> Request -> Reply (option SearchResponse))
         (params : SearchArgs) (w : World) (p : SearchPayload),
    structured (fst (af_search_jobs new_URL jobsearch params w)) p ->
    search_count p = jslength (search_hits p)
    /\ 0 < search_count p
    /\ search_offset p = arg_offset params
    /\ (exists url data w1,
          jobSearchFetch (option SearchResponse) jobsearch url w = (Ok (Some data), w1)
          /\ hits data = Some (search_hits p)
          /\ search_total p = match total_value data with Some v => v | None => 0 end)
    /\ exists text,
         fst (af_search_jobs new_URL jobsearch params w)
         = Ok (mkToolResult [text] (Some p) false)
         /\ (arg_detail params = summary ->
             forall ad, In ad (search_hits p) ->
               includes (js "**" ++ headline ad ++ js "**") text = true).
Proof.
  intros new_URL jobsearch params w p (t & Ht & Hp).
  unfold af_search_jobs in *.
  destruct (buildJobSearchUrl new_URL (js "/search") (search_jobs_params params))
    as [url|e]; [|discriminate].
  destruct (jobSearchFetch (option SearchResponse) jobsearch url w)
    as [[[data|]|err] w1] eqn:Hfetch; try discriminate.
  destruct (hits data) as [l|] eqn:Hhits; cbn [fst] in *.
  - destruct (Z.eqb_spec (jslength l) 0) as [E|E]; injection Ht as <-; [discriminate|].
    cbn [structuredContent] in Hp. injection Hp as <-.
    cbn [search_count search_hits search_offset search_total].
    split; [reflexivity|]. split; [unfold jslength in *; lia|]. split; [reflexivity|].
    split; [exists url, data, w1; repeat split; assumption|].
    eexists. split; [reflexivity|].
    intros Hd ad Hin. rewrite Hd.
    apply includes_app_r. apply (includes_join _ _ (formatJobAdSummary ad)).
    + apply in_map_iff. exists ad. split; [reflexivity | exact Hin].
    + unfold formatJobAdSummary, summary_lines.
      set (rest := push_if _ _ ++ _).
      change ([js "**" ++ headline ad ++ js "**"; js "ID: " ++ ad_id ad] ++ rest)
        with ((js "**" ++ headline ad ++ js "**") :: (js "ID: " ++ ad_id ad) :: rest).
      rewrite join_cons2. apply includes_prefix.
  - change (jslength (@nil JobAd) =? 0) with true in Ht. injection Ht as <-. discriminate.
Qed.

Lemma search_jobs_payload_witness :
  exists p,
    structured (fst (af_search_jobs reference_new_URL one_hit plain_search [])) p
    /\ search_count p = 1
    /\ search_total p = 57.
Proof.
  eexists. split; [eexists; split; vm_compute; reflexivity|]. split.
  - refine (proj1 (search_jobs_payload reference_new_URL one_hit plain_search [] _ _)).
    eexists. split; vm_compute; reflexivity.
  - vm_compute. reflexivity.
Defined.

(** X18: [af_get_job] fetches the URL as parsed, without query, makes at
    most four attempts and has no error handling of its own.  When the fetch
    rejects, the handler rejects with the same value: a listing the upstream
    does not know (a first response that is a client error, 404 say) gives
    the [ApiError] of that status after one attempt.  When the body is [null]
    the handler rejects with the [TypeError] of reading its headline.  When
    the body is a listing, as [JobAd] types it, the result carries it as
    received, with its full rendering of at most 50025 code units and no
    [isError]. *)
Theorem get_job_result :
  forall (new_URL : jsstring -> option URL)
         (jobsearch : nat -> Request -> Reply (option JobAd))
         (id : jsstring) (w : World) (u : URL),
    new_URL (JOBSEARCH_BASE_URL ++ js "/ad/" ++ id) = Some u ->
    let out := af_get_job new_URL jobsearch id w in
    let url := URL_toString u in
    let call := jobSearchFetch (option JobAd) jobsearch url w in
    snd out = snd call
    /\ 1 <= attempts_made w (snd out) <= 4
    /\ fst out
       = match fst call with
         | Throw e => Throw e
         | Ok None => Throw (NativeError (js "TypeError")
                               (js "Cannot read properties of null (reading 'headline')"))
         | Ok (Some ad) => Ok (mkToolResult [formatJobAdFull ad] (Some ad) false)
         end
    /\ (forall ad, jslength (formatJobAdFull ad) <= CHARACTER_LIMIT + 25)
    /\ (forall r, responds jobsearch (get_request url) (attempts w) r -> client_error r ->
          out = (Throw (ApiError (js "API request failed: " ++ String_number (status r)
                                    ++ js " " ++ statusText r) (Some (status r)) (Some url)),
                 w ++ [Fetched (get_request url) (Answered (status r))]))
    /\ (forall r ad, responds jobsearch (get_request url) (attempts w) r -> ok r = true ->
          json r = Ok (Some ad) ->
          out = (Ok (mkToolResult [formatJobAdFull ad] (Some ad) false),
                 w ++ [Fetched (get_request url) (Answered (status r))]))
    /\ (forall r, responds jobsearch (get_request url) (attempts w) r -> ok r = true ->
          json r = Ok None ->
          out = (Throw (NativeError (js "TypeError")
                          (js "Cannot read properties of null (reading 'headline')")),
                 w ++ [Fetched (get_request url) (Answered (status r))])).
Proof.
  intros new_URL jobsearch id w u Hparse out url call.
  unfold out, call, af_get_job, buildJobSearchUrl, buildUrl. rewrite Hparse.
  cbn [fold_left]. fold url. unfold jobSearchFetch.
  pose proof (fetchJson_attempts_bound jobsearch url 3 w) as Hbound.
  split; [|split; [|split; [|split; [|split; [|split]]]]].
  - destruct (fetchJson (option JobAd) jobsearch url 3 w) as [[[ad|]|err] w1]; reflexivity.
  - destruct (fetchJson (option JobAd) jobsearch url 3 w) as [[[ad|]|err] w1];
      cbn [snd] in *; lia.
  - destruct (fetchJson (option JobAd) jobsearch url 3 w) as [[[ad|]|err] w1]; reflexivity.
  - intros ad.
    change (formatJobAdFull ad) with (truncateIfNeeded (join [10] (full_lines ad))).
    apply truncateIfNeeded_bound.
  - intros r Hr Hce. now rewrite (fetchJson_first_client_error jobsearch url 3 w r Hr Hce).
  - intros r ad Hr Hok Hjson.
    now rewrite (fetchJson_first_ok jobsearch url 3 w r Hr Hok), Hjson.
  - intros r Hr Hok Hjson.
    now rewrite (fetchJson_first_ok jobsearch url 3 w r Hr Hok), Hjson.
Qed.

Lemma get_job_result_witness :
  (exists e,
      fst (af_get_job reference_new_URL no_listing (js "29384756") []) = Throw e
      /\ err_statusCode e = Some 404)
  /\ fst (af_get_job reference_new_URL null_listing (js "29384756") [])
     = Throw (NativeError (js "TypeError")
                (js "Cannot read properties of null (reading 'headline')")).
Proof.
  destruct (get_job_result reference_new_URL no_listing (js "29384756") []
              (mkURL (js "https://jobsearch.api.jobtechdev.se/ad/29384756") None None []))
    as (_ & _ & _ & _ & H & _); [vm_compute; reflexivity|].
  destruct (get_job_result reference_new_URL null_listing (js "29384756") []
              (mkURL (js "https://jobsearch.api.jobtechdev.se/ad/29384756") None None []))
    as (_ & _ & _ & _ & _ & _ & Hnull); [vm_compute; reflexivity|].
  split.
  - eexists. split.
    + rewrite (H (mkResponse 404 (js "Not Found") 5 (Ok None))).
      * reflexivity.
      * split; reflexivity.
      * split; [reflexivity | split; [discriminate | reflexivity]].
    + reflexivity.
  - rewrite (Hnull (mkResponse 200 (js "OK") 5 (Ok None))); try reflexivity.
    split; reflexivity.
Defined.

(** ** The query of a job search *)

Lemma optional_keys_NoDup (spec : list (jsstring * bool)) :
  NoDup (map fst spec) ->
  NoDup (present_keys spec).
Proof.
  unfold present_keys.
  induction spec as [|[k b] spec IH]; intros Hnd; simpl; [constructor|].
  inversion Hnd as [|? ? Hk Hnd']; subst.
  destruct b; simpl; [|now apply IH].
  constructor; [|now apply IH].
  intros Hin. apply Hk. apply in_flat_map in Hin as ([k' b'] & Hspec & Hin).
  simpl in Hin. destruct b'; [|contradiction]. destruct Hin as [<-|[]].
  apply (in_map fst) in Hspec. exact Hspec.
Qed.

Lemma optional_keys_In (spec : list (jsstring * bool)) k :
  In k (present_keys spec) -> In (k, true) spec.
Proof.
  unfold present_keys.
  intros Hin. apply in_flat_map in Hin as ([k' b'] & Hspec & Hin).
  simpl in Hin. destruct b'; [|contradiction]. now destruct Hin as [<-|[]].
Qed.

(** The keys of the object of [af_search_jobs], each with whether it is
    there. *)
Lemma search_jobs_params_keys params :
  map fst (search_jobs_params params)
  = present_keys
      [(js "limit", true); (js "offset", true);
       (js "q", truthy_string (arg_q params));
       (js "occupation-name", truthy_string (arg_occupation_name params));
       (js "occupation-group", truthy_string (arg_occupation_group params));
       (js "occupation-field", truthy_string (arg_occupation_field params));
       (js "municipality", truthy_string (arg_municipality params));
       (js "region", truthy_string (arg_region params));
       (js "country", truthy_string (arg_country params));
       (js "employer", truthy_string (arg_employer params));
       (js "experience", match arg_experience params with Some _ => true | None => false end)].
Proof.
  unfold search_jobs_params, present_keys. rewrite !map_app. cbn [flat_map snd fst].
  repeat match goal with
         | |- context [truthy_string ?v] => destruct (truthy_string v)
         end;
    destruct (arg_experience params); reflexivity.
Qed.

Lemma search_jobs_params_NoDup params : NoDup (map fst (search_jobs_params params)).
Proof.
  rewrite search_jobs_params_keys. apply optional_keys_NoDup.
  cbn [map fst]. repeat constructor; simpl; intuition discriminate.
Qed.

(** X19: on a URL accepted without a query, the URL [af_search_jobs] builds
    always carries [limit] and [offset]; a text filter is sent exactly when
    it is given and not the empty string ([q] stands for the eight of them),
    while [experience] is sent whenever it is given, [false] included.  The
    query is the serialisation of these pairs. *)
Theorem search_jobs_query :
  forall (new_URL : jsstring -> option URL) (params : SearchArgs) (u : URL),
    new_URL (JOBSEARCH_BASE_URL ++ js "/search") = Some u ->
    searchParams u = [] ->
    exists u',
      buildJobSearchUrl new_URL (js "/search") (search_jobs_params params)
      = Ok (URL_toString u')
      /\ url_query u' = Some (urlencoded_serialize (searchParams u'))
      /\ entries_of (js "limit") (searchParams u')
         = [(js "limit", String_number (arg_limit params))]
      /\ entries_of (js "offset") (searchParams u')
         = [(js "offset", String_number (arg_offset params))]
      /\ entries_of (js "q") (searchParams u')
         = match arg_q params with
           | Some (c :: s) => [(js "q", c :: s)]
           | _ => []
           end
      /\ entries_of (js "experience") (searchParams u')
         = match arg_experience params with
           | Some b => [(js "experience", String_boolean b)]
           | None => []
           end.
Proof.
  intros new_URL params u Hparse Hfresh.
  destruct (buildUrl_accepted new_URL JOBSEARCH_BASE_URL (js "/search")
              (search_jobs_params params) u Hparse (search_jobs_params_NoDup params))
    as (u' & Hb & _ & _ & Hin & Hout & _ & Hq & _).
  exists u'. split; [exact Hb|].
  split; [apply Hq; reflexivity|].
  assert (Habsent : forall k, entries_of k (searchParams u) = [])
    by (intros k; rewrite Hfresh; reflexivity).
  split; [|split; [|split]].
  - rewrite (Hin (js "limit") (PNumber (arg_limit params))), Habsent; [reflexivity|].
    unfold search_jobs_params. apply in_or_app. left. now left.
  - rewrite (Hin (js "offset") (PNumber (arg_offset params))), Habsent; [reflexivity|].
    unfold search_jobs_params. apply in_or_app. left. right. now left.
  - destruct (arg_q params) as [[|c s]|] eqn:E.
    + rewrite Hout, Habsent; [reflexivity|].
      rewrite search_jobs_params_keys, E. intros H. apply optional_keys_In in H.
      cbn [truthy_string] in H. simpl in H. intuition discriminate.
    + rewrite (Hin (js "q") (PString (c :: s))), Habsent; [reflexivity|].
      unfold search_jobs_params. rewrite E.
      apply in_or_app. right. apply in_or_app. left. now left.
    + rewrite Hout, Habsent; [reflexivity|].
      rewrite search_jobs_params_keys, E. intros H. apply optional_keys_In in H.
      cbn [truthy_string] in H. simpl in H. intuition discriminate.
  - destruct (arg_experience params) as [b|] eqn:E.
    + rewrite (Hin (js "experience") (PBoolean b)), Habsent; [reflexivity|].
      unfold search_jobs_params. rewrite E.
      do 9 (apply in_or_app; right). now left.
    + rewrite Hout, Habsent; [reflexivity|].
      rewrite search_jobs_params_keys, E. intros H. apply optional_keys_In in H.
      simpl in H. intuition discriminate.
Qed.

Lemma search_jobs_query_witness :
  exists u',
    buildJobSearchUrl reference_new_URL (js "/search") (search_jobs_params plain_search)
    = Ok (URL_toString u')
    /\ entries_of (js "q") (searchParams u') = [(js "q", js "nurse")]
    /\ entries_of (js "experience") (searchParams u') = [(js "experience", js "false")].
Proof.
  destruct (search_jobs_query reference_new_URL plain_search
              (mkURL (js "https://jobsearch.api.jobtechdev.se/search") None None []))
    as (u' & Hb & _ & _ & _ & Hq & He).
  - vm_compute. reflexivity.
  - reflexivity.
  - exists u'. split; [exact Hb|]. split; [exact Hq | exact He].
Defined.

(** ** The query of the job stream *)

Lemma stream_jobs_params_keys params :
  map fst (stream_jobs_params params)
  = present_keys
      [(js "updated-after", true);
       (js "updated-before", truthy_string (arg_date_before params));
       (js "occupation-concept-id", has_items (arg_occupation_concept_id params));
       (js "location-concept-id", has_items (arg_location_concept_id params))].
Proof.
  unfold stream_jobs_params, present_keys, has_items. rewrite !map_app. cbn [flat_map snd fst].
  destruct (truthy_string (arg_date_before params));
    destruct (arg_occupation_concept_id params) as [[|? ?]|];
    destruct (arg_location_concept_id params) as [[|? ?]|]; reflexivity.
Qed.

Lemma stream_jobs_params_NoDup params : NoDup (map fst (stream_jobs_params params)).
Proof.
  rewrite stream_jobs_params_keys. apply optional_keys_NoDup.
  cbn [map fst]. repeat constructor; simpl; intuition discriminate.
Qed.

(** X20: on a URL accepted without a query, the URL [af_stream_jobs] builds
    carries [updated-after] with the given date, [updated-before] exactly when
    [date_before] is given and not the empty string, and one
    [occupation-concept-id] pair per concept ID, in their order, none when the
    list is missing or empty. *)
Theorem stream_jobs_query :
  forall (new_URL : jsstring -> option URL) (params : StreamArgs) (u : URL),
    new_URL (JOBSTREAM_BASE_URL ++ js "/v2/stream") = Some u ->
    searchParams u = [] ->
    exists u',
      buildJobStreamUrl new_URL (js "/v2/stream") (stream_jobs_params params)
      = Ok (URL_toString u')
      /\ url_query u' = Some (urlencoded_serialize (searchParams u'))
      /\ entries_of (js "updated-after") (searchParams u')
         = [(js "updated-after", arg_date params)]
      /\ entries_of (js "updated-before") (searchParams u')
         = match arg_date_before params with
           | Some (c :: s) => [(js "updated-before", c :: s)]
           | _ => []
           end
      /\ entries_of (js "occupation-concept-id") (searchParams u')
         = match arg_occupation_concept_id params with
           | Some ids => map (pair (js "occupation-concept-id")) ids
           | None => []
           end.
Proof.
  intros new_URL params u Hparse Hfresh.
  destruct (buildUrl_accepted new_URL JOBSTREAM_BASE_URL (js "/v2/stream")
              (stream_jobs_params params) u Hparse (stream_jobs_params_NoDup params))
    as (u' & Hb & _ & _ & Hin & Hout & _ & Hq & _).
  exists u'. split; [exact Hb|].
  split; [apply Hq; reflexivity|].
  assert (Habsent : forall k, entries_of k (searchParams u) = [])
    by (intros k; rewrite Hfresh; reflexivity).
  split; [|split].
  - rewrite (Hin (js "updated-after") (PString (arg_date params))), Habsent; [reflexivity|].
    unfold stream_jobs_params. apply in_or_app. left. now left.
  - destruct (arg_date_before params) as [[|c s]|] eqn:E.
    + rewrite Hout, Habsent; [reflexivity|].
      rewrite stream_jobs_params_keys, E. intros H. apply optional_keys_In in H.
      simpl in H. intuition discriminate.
    + rewrite (Hin (js "updated-before") (PString (c :: s))), Habsent; [reflexivity|].
      unfold stream_jobs_params. rewrite E.
      apply in_or_app. right. apply in_or_app. left. now left.
    + rewrite Hout, Habsent; [reflexivity|].
      rewrite stream_jobs_params_keys, E. intros H. apply optional_keys_In in H.
      simpl in H. intuition discriminate.
  - destruct (arg_occupation_concept_id params) as [[|x xs]|] eqn:E.
    + rewrite Hout, Habsent; [reflexivity|].
      rewrite stream_jobs_params_keys, E. intros H. apply optional_keys_In in H.
      simpl in H. intuition discriminate.
    + rewrite (Hin (js "occupation-concept-id") (PArray (x :: xs))), Habsent; [reflexivity|].
      unfold stream_jobs_params. rewrite E.
      do 2 (apply in_or_app; right). apply in_or_app. left. now left.
    + rewrite Hout, Habsent; [reflexivity|].
      rewrite stream_jobs_params_keys, E. intros H. apply optional_keys_In in H.
      simpl in H. intuition discriminate.
Qed.

Lemma stream_jobs_query_witness :
  exists u',
    buildJobStreamUrl reference_new_URL (js "/v2/stream") (stream_jobs_params nurses_since_june)
    = Ok (URL_toString u')
    /\ entries_of (js "occupation-concept-id") (searchParams u')
       = [(js "occupation-concept-id", js "bXNH_MNX_dUR");
          (js "occupation-concept-id", js "Z8ci_bBE_tmx")].
Proof.
  destruct (stream_jobs_query reference_new_URL nurses_since_june
              (mkURL (js "https://jobstream.api.jobtechdev.se/v2/stream") None None []))
    as (u' & Hb & _ & _ & _ & Hids).
  - vm_compute. reflexivity.
  - reflexivity.
  - exists u'. split; [exact Hb | exact Hids].
Defined.

(** ** Failures under the job tools *)

(** X21: [af_search_jobs] and [af_stream_jobs] have no error handling of
    their own: once the URL is built they leave the trace as the one call of
    the client left it, after at most four attempts, and when that call
    rejects they reject with the same value.  They also reject, with the
    [TypeError] of the read, when the body is [null], and [af_stream_jobs]
    when an event of the body is [null]; a stream body whose events are not
    [null], or that has none, gives a result. *)
Theorem job_tools_rethrow :
  forall (new_URL : jsstring -> option URL)
         (jobsearch : nat -> Request -> Reply (option SearchResponse))
         (jobstream : nat -> Request -> Reply StreamData)
         (search : SearchArgs) (stream : StreamArgs) (w : World),
    let type_error (property : jsstring) : JsError :=
      NativeError (js "TypeError")
        (js "Cannot read properties of null (reading '" ++ property ++ js "')") in
    (forall url,
        buildJobSearchUrl new_URL (js "/search") (search_jobs_params search) = Ok url ->
        let out := af_search_jobs new_URL jobsearch search w in
        let call := jobSearchFetch (option SearchResponse) jobsearch url w in
        snd out = snd call
        /\ 1 <= attempts_made w (snd out) <= 4
        /\ (forall e, fst call = Throw e -> fst out = Throw e)
        /\ (fst call = Ok None -> fst out = Throw (type_error (js "total"))))
    /\ (forall url,
        buildJobStreamUrl new_URL (js "/v2/stream") (stream_jobs_params stream) = Ok url ->
        let out := af_stream_jobs new_URL jobstream stream w in
        let call := jobStreamFetch StreamData jobstream url w in
        snd out = snd call
        /\ 1 <= attempts_made w (snd out) <= 4
        /\ (forall e, fst call = Throw e -> fst out = Throw e)
        /\ (fst call = Ok StreamNull -> fst out = Throw (type_error (js "events")))
        /\ (forall items,
              fst call = Ok (StreamArray items) \/ fst call = Ok (StreamObject (Some items)) ->
              (In None items -> fst out = Throw (type_error (js "removed")))
              /\ (~ In None items -> exists t, fst out = Ok t))
        /\ (fst call = Ok (StreamObject None) -> exists t, fst out = Ok t)).
Proof.
  intros new_URL jobsearch jobstream search stream w type_error.
  split; intros url Hurl out call.
  - unfold out, call, af_search_jobs. rewrite Hurl. unfold jobSearchFetch.
    pose proof (fetchJson_attempts_bound jobsearch url 3 w) as Hbound.
    destruct (fetchJson (option SearchResponse) jobsearch url 3 w) as [[[data|]|err] w1];
      cbn [fst snd] in *.
    + destruct (jslength match hits data with Some l => l | None => [] end =? 0);
        cbn [fst snd];
        (split; [reflexivity|]; split; [lia|]; split; discriminate).
    + split; [reflexivity|]. split; [lia|]. split; [discriminate | reflexivity].
    + split; [reflexivity|]. split; [lia|].
      split; [intros e H; injection H as <-; reflexivity | discriminate].
  - unfold out, call, af_stream_jobs. rewrite Hurl. unfold jobStreamFetch.
    pose proof (fetchJson_attempts_bound jobstream url 3 w) as Hbound.
    assert (Hitems : forall items : list (option StreamEvent),
               (In None items -> read_items (js "removed") items
                                 = Throw (type_error (js "removed")))
               /\ (~ In None items -> exists l, read_items (js "removed") items = Ok l)).
    { intros items. split.
      - intros Hin. apply read_items_Throw. split; [exact Hin | reflexivity].
      - intros Hnot. destruct (read_items (js "removed") items) as [l|e] eqn:E;
          [eauto|]. apply read_items_Throw in E as [Hin _]. contradiction. }
    assert (Hlist : forall (items : list (option StreamEvent)) w1,
               let res :=
                 (if jslength items =? 0
                  then (Ok (mkToolResult
                              [js "No events found since " ++ arg_date stream ++ js "."]
                              None false), w1)
                  else match read_items (js "removed") items with
                       | Throw e => (Throw e, w1)
                       | Ok events =>
                           let removed :=
                             filter (fun e => truthy_flag (event_removed e)) events in
                           let active :=
                             filter (fun e => negb (truthy_flag (event_removed e))) events in
                           let text :=
                             join [10] (stream_lines (arg_date stream) events active removed) in
                           (Ok (mkToolResult [slice0 CHARACTER_LIMIT text]
                                  (Some (mkStreamPayload (jslength events) (jslength active)
                                           (jslength removed) (firstn 100 events)))
                                  false), w1)
                       end) : JsResult (ToolResult StreamPayload) * World in
               snd res = w1
               /\ (In None items -> fst res = Throw (type_error (js "removed")))
               /\ (~ In None items -> exists t, fst res = Ok t)).
    { intros items w1 res. unfold res.
      destruct (Z.eqb_spec (jslength items) 0) as [E|E].
      - destruct items; [|discriminate E].
        split; [reflexivity|]. split; [intros []|]. intros _. eexists. reflexivity.
      - destruct (Hitems items) as [Hthrow Hok].
        split; [destruct (read_items (js "removed") items); reflexivity|].
        split.
        + intros Hin. now rewrite (Hthrow Hin).
        + intros Hnot. destruct (Hok Hnot) as (l & ->). eexists. reflexivity. }
    destruct (fetchJson StreamData jobstream url 3 w) as [[data|err] w1];
      cbn [fst snd] in *.
    + destruct data as [items|[items|]|]; cbn [stream_events_of].
      * destruct (Hlist items w1) as (Hs & Hthrow & Hok).
        split; [exact Hs|]. split; [rewrite Hs; lia|]. split; [discriminate|].
        split; [discriminate|]. split; [|discriminate].
        intros items' [H|H]; [|discriminate]. injection H as <-. split; assumption.
      * destruct (Hlist items w1) as (Hs & Hthrow & Hok).
        split; [exact Hs|]. split; [rewrite Hs; lia|]. split; [discriminate|].
        split; [discriminate|]. split; [|discriminate].
        intros items' [H|H]; [discriminate|]. injection H as <-. split; assumption.
      * change (jslength (@nil (option StreamEvent)) =? 0) with true. cbn [fst snd].
        split; [reflexivity|]. split; [lia|]. split; [discriminate|].
        split; [discriminate|]. split; [intros items' [H|H]; discriminate|].
        intros _. eexists. reflexivity.
      * cbn [fst snd]. split; [reflexivity|]. split; [lia|]. split; [discriminate|].
        split; [reflexivity|]. split; [intros items' [H|H]; discriminate | discriminate].
    + split; [reflexivity|]. split; [lia|].
      split; [intros e H; injection H as <-; reflexivity|].
      split; [discriminate|]. split; [intros items' [H|H]; discriminate | discriminate].
Qed.

Lemma job_tools_rethrow_witness :
  (exists e,
      fst (af_search_jobs reference_new_URL busy_search plain_search []) = Throw e
      /\ err_statusCode e = Some 429)
  /\ fst (af_search_jobs reference_new_URL null_search plain_search [])
     = Throw (NativeError (js "TypeError")
                (js "Cannot read properties of null (reading 'total')")).
Proof.
  destruct (job_tools_rethrow reference_new_URL busy_search three_events plain_search
              since_june []) as (H & _).
  destruct (H (js "https://jobsearch.api.jobtechdev.se/search?limit=10&offset=0&q=nurse&experience=false"))
    as (_ & _ & He & _); [vm_compute; reflexivity|].
  destruct (job_tools_rethrow reference_new_URL null_search three_events plain_search
              since_june []) as (H' & _).
  destruct (H' (js "https://jobsearch.api.jobtechdev.se/search?limit=10&offset=0&q=nurse&experience=false"))
    as (_ & _ & _ & Hnull); [vm_compute; reflexivity|].
  split.
  - eexists. split; [apply He; vm_compute; reflexivity | reflexivity].
  - apply Hnull. vm_compute. reflexivity.
Defined.
